(** * The SIOP verifiable-credentials validator: claim tokens, the SIOP
      token validator and the validation orchestrator

    A shallow embedding of [ClaimToken], [SiopTokenValidator] and [Validator]
    and the properties the specification states about them.

    Conventions of the embedding.
    - A JavaScript value is a [json] tree, or [undefined] ([None] of
      [value]).  Objects are association lists in enumeration order.
    - Where a property depends on who holds an object, as for the header
      and the payload that a claim token keeps and hands out, objects live
      in a store and values refer to them: module [Store].
    - A string is a sequence of code units below 256.
    - Numbers are carried as integers; the code modelled here only tests
      them for truthiness, compares them and prints them.
    - A [throw] is the [Throw] branch of [res]; state that the source
      mutates (the validation queue, the log of network requests) is passed
      explicitly and survives a [throw].
    - The platform and library services the code calls (JSON and base64url
      decoding, JSON-path, URL parsing, signing, HTTP) are the fields of the
      classes [Runtime] and [StatusServices]. *)

From Stdlib Require Import String Ascii List ZArith Bool Lia DecimalString.
Import ListNotations.
Local Open Scope string_scope.

(* ================================================================== *)
(** * Part I: the embedding                                            *)
(* ================================================================== *)

(** ** Exceptions *)

(** [Error] is the source's [throw new Error(message)].  [TypeError] is
    raised by the engine on a faulting access; its text names the access
    and stands for the engine's own wording.  [LibError] is raised inside a
    library or platform service. *)
Inductive exn : Type :=
| Error (message : string)
| TypeError (message : string)
| LibError (message : string).

Definition message (e : exn) : string :=
  match e with
  | Error m | TypeError m | LibError m => m
  end.

Inductive res (A : Type) : Type :=
| Ok (a : A)
| Throw (e : exn).
Arguments Ok {A} a.
Arguments Throw {A} e.

Definition bind {A B : Type} (m : res A) (k : A -> res B) : res B :=
  match m with
  | Ok a => k a
  | Throw e => Throw e
  end.

Declare Scope res_scope.
Delimit Scope res_scope with res.
Notation "x <- m ;; k" := (bind m (fun x => k))
  (at level 61, m at next level, right associativity) : res_scope.
Local Open Scope res_scope.

(** ** Strings *)

(** [s.split(sep)] for a one-character separator: never empty. *)
Fixpoint split (sep : ascii) (s : string) : list string :=
  match s with
  | EmptyString => [EmptyString]
  | String c rest =>
      if Ascii.eqb c sep then EmptyString :: split sep rest
      else match split sep rest with
           | [] => [String c EmptyString]
           | part :: parts => String c part :: parts
           end
  end.

(** White space of [String.prototype.trim] among the code units below 256. *)
Definition is_white (c : ascii) : bool :=
  let n := nat_of_ascii c in
  (((9 <=? n) && (n <=? 13)) || (n =? 32) || (n =? 160))%nat.

Fixpoint trimStart (s : string) : string :=
  match s with
  | EmptyString => EmptyString
  | String c rest => if is_white c then trimStart rest else s
  end.

Fixpoint rev_string (s acc : string) : string :=
  match s with
  | EmptyString => acc
  | String c rest => rev_string rest (String c acc)
  end.

Definition trimEnd (s : string) : string :=
  rev_string (trimStart (rev_string s EmptyString)) EmptyString.

Definition trim (s : string) : string := trimEnd (trimStart s).

Fixpoint join (sep : string) (parts : list string) : string :=
  match parts with
  | [] => ""
  | [p] => p
  | p :: rest => p ++ sep ++ join sep rest
  end.

Definition string_of_nat (n : nat) : string :=
  NilZero.string_of_uint (Nat.to_uint n).

(** No character of [s] is the separator. *)
Fixpoint free_of (sep : ascii) (s : string) : bool :=
  match s with
  | EmptyString => true
  | String c rest => negb (Ascii.eqb c sep) && free_of sep rest
  end.

(** [s.includes(sub)], used to state that a message contains a value. *)
Fixpoint includes (sub s : string) : bool :=
  prefix sub s ||
  match s with
  | EmptyString => false
  | String _ rest => includes sub rest
  end.

Definition Contains (s sub : string) : Prop :=
  exists before after, s = before ++ sub ++ after.

Definition EndsWith (s suffix : string) : Prop :=
  exists before, s = before ++ suffix.

(** ** JavaScript values *)

#[warnings="-register-all"]
Inductive json : Type :=
| JNull
| JBool (b : bool)
| JNum (n : Z)
| JStr (s : string)
| JArr (items : list json)
| JObj (fields : list (string * json)).

(** [None] is [undefined]. *)
Definition value : Type := option json.

(** ToBoolean. *)
Definition truthy (v : value) : bool :=
  match v with
  | None => false
  | Some JNull => false
  | Some (JBool b) => b
  | Some (JNum n) => negb (n =? 0)%Z
  | Some (JStr s) => negb (s =? "")
  | Some (JArr _) => true
  | Some (JObj _) => true
  end.

Fixpoint lookup {A : Type} (k : string) (fields : list (string * A)) : option A :=
  match fields with
  | [] => None
  | (k', v) :: rest => if k =? k' then Some v else lookup k rest
  end.

(** The element whose index prints as [k], counting from [i]. *)
Fixpoint element_at (k : string) (i : nat) (items : list json) : value :=
  match items with
  | [] => None
  | x :: rest => if k =? string_of_nat i then Some x else element_at k (S i) rest
  end.

Fixpoint char_at (k : string) (i : nat) (s : string) : value :=
  match s with
  | EmptyString => None
  | String c rest =>
      if k =? string_of_nat i then Some (JStr (String c EmptyString))
      else char_at k (S i) rest
  end.

(** Own properties and the [length] of arrays and strings; methods of the
    prototypes are not values of the model. *)
Definition property (j : json) (k : string) : value :=
  match j with
  | JObj fields => lookup k fields
  | JArr items =>
      if k =? "length" then Some (JNum (Z.of_nat (List.length items)))
      else element_at k 0 items
  | JStr s =>
      if k =? "length" then Some (JNum (Z.of_nat (String.length s)))
      else char_at k 0 s
  | _ => None
  end.

(** [v.k] and [v[k]]: reading a property of [undefined] or [null] throws. *)
Definition get (v : value) (k : string) : res value :=
  match v with
  | None => Throw (TypeError ("Cannot read property '" ++ k ++ "' of undefined"))
  | Some JNull => Throw (TypeError ("Cannot read property '" ++ k ++ "' of null"))
  | Some j => Ok (property j k)
  end.

(** [v?.k] *)
Definition get_opt (v : value) (k : string) : value :=
  match v with
  | None => None
  | Some JNull => None
  | Some j => property j k
  end.

Fixpoint string_entries (i : nat) (s : string) : list (string * json) :=
  match s with
  | EmptyString => []
  | String c rest =>
      (string_of_nat i, JStr (String c EmptyString)) :: string_entries (S i) rest
  end.

(** The pairs [(k, v[k])] a [for (k in v)] loop visits, in order. *)
Definition entries (v : value) : list (string * json) :=
  match v with
  | Some (JObj fields) => fields
  | Some (JArr items) =>
      combine (map string_of_nat (seq 0 (List.length items))) items
  | Some (JStr s) => string_entries 0 s
  | _ => []
  end.

(** ToString, as a template literal applies it (for a number, the decimal
    digits of the integer, as the engine prints integers below 10^21). *)
Fixpoint to_string (j : json) : string :=
  match j with
  | JNull => "null"
  | JBool true => "true"
  | JBool false => "false"
  | JNum n => NilZero.string_of_int (Z.to_int n)
  | JStr s => s
  | JArr items =>
      join "," (map (fun x => match x with JNull => "" | _ => to_string x end) items)
  | JObj _ => "[object Object]"
  end.

Definition template (v : value) : string :=
  match v with
  | None => "undefined"
  | Some j => to_string j
  end.

(** [s === v] for a string [s]. *)
Definition strict_eq_string (s : string) (v : value) : bool :=
  match v with
  | Some (JStr s') => s =? s'
  | _ => false
  end.

(** Assignment [o[k] = v] on an object kept as an association list: an
    existing key keeps its place, a new key goes last.  (An engine lists
    keys that are array indices first; no property below depends on the
    order of keys.  At the key [__proto__] an engine runs the prototype
    setter of an object literal and adds no property: the list is that of
    an object assigned at other keys, and the properties below that tell
    the keys of a map built here are stated for such keys,
    [ordinary_ids].) *)
Fixpoint assign {A : Type} (k : string) (v : A) (o : list (string * A))
  : list (string * A) :=
  match o with
  | [] => [(k, v)]
  | (k', v') :: rest =>
      if k =? k' then (k, v) :: rest else (k', v') :: assign k v rest
  end.

(** ** Services of the platform and of libraries *)

Class Runtime : Type := {
  (** [JSON.parse(base64url.decode(segment))] *)
  parse_segment : string -> res json;
  (** [jp.query(object, path)] of the jsonpath package *)
  jp_query : value -> value -> res (list json);
  (** [new URL(text).pathname] *)
  URL_pathname : value -> res string;
  (** [decodeURIComponent(text)] *)
  decodeURIComponent : string -> res string
}.

(** ** VerifiableCredentialConstants *)

(** Modelled from the spec: the class VerifiableCredentialConstants is not
    among the sources; the spec gives the SIOP issuer sentinel, the reserved
    attestation key and the two payload markers. *)
Definition TOKEN_SI_ISS : string := "https://self-issued.me".
Definition CLAIMS_SELFISSUED : string := "selfIssued".
Definition ATTESTATIONS : string := "attestations".
Definition PRESENTATION_SUBMISSION : string := "presentation_submission".

(** ** ClaimToken *)

Inductive TokenType : Type :=
| selfIssued
| idToken
| siopIssuance
| siopPresentationAttestation
| siopPresentationExchange
| verifiablePresentation
| verifiableCredential
| verifiablePresentationStatus.

(** The string each member of the enum stands for. *)
Definition TokenType_name (t : TokenType) : string :=
  match t with
  | selfIssued => "selfIssued"
  | idToken => "idToken"
  | siopIssuance => "siopIssuance"
  | siopPresentationAttestation => "siopPresentationAttestation"
  | siopPresentationExchange => "siopPresentationExchange"
  | verifiablePresentation => "verifiablePresentation"
  | verifiableCredential => "verifiableCredential"
  | verifiablePresentationStatus => "verifiablePresentationStatus"
  end.

Definition TokenType_values : list TokenType :=
  [selfIssued; idToken; siopIssuance; siopPresentationAttestation;
   siopPresentationExchange; verifiablePresentation; verifiableCredential;
   verifiablePresentationStatus].

Definition TokenType_eqb (a b : TokenType) : bool :=
  TokenType_name a =? TokenType_name b.

Record ClaimToken : Type := {
  _configuration : string;
  _rawToken : string;
  _type : TokenType;
  _decodedToken : json;
  _tokenHeader : json
}.

(** The public accessors of the class. *)
Definition type (t : ClaimToken) : TokenType := _type t.
Definition configuration (t : ClaimToken) : string := _configuration t.
Definition rawToken (t : ClaimToken) : string := _rawToken t.
Definition tokenHeader (t : ClaimToken) : json := _tokenHeader t.
Definition decodedToken (t : ClaimToken) : json := _decodedToken t.

(** [set rawToken(value)] *)
Definition set_rawToken (t : ClaimToken) (v : string) : ClaimToken :=
  {| _configuration := _configuration t;
     _rawToken := v;
     _type := _type t;
     _decodedToken := _decodedToken t;
     _tokenHeader := _tokenHeader t |}.

Section ClaimTokenClass.
Context {R : Runtime}.

(** [decode()]: header and payload of the raw token. *)
Definition decode (raw : string) : res (json * json) :=
  let parts := split "." raw in
  if (List.length parts <? 2)%nat then
    Throw (Error "Cannot decode. Invalid input token")
  else
    header <- parse_segment (nth 0 parts "") ;;
    payload <- parse_segment (nth 1 parts "") ;;
    Ok (header, payload).

(** [new ClaimToken(typeName, token, configuration)] *)
Definition new_ClaimToken (typeName : string) (token : json)
    (config : option string) : res ClaimToken :=
  match find (fun t => TokenType_name t =? typeName) TokenType_values with
  | None => Throw (Error ("Type '" ++ typeName ++ " is not supported"))
  | Some t =>
      let conf := match config with Some c => c | None => "" end in
      match token with
      | JStr raw =>
          hp <- decode raw ;;
          Ok {| _configuration := conf; _rawToken := raw; _type := t;
                _decodedToken := snd hp; _tokenHeader := fst hp |}
      | _ =>
          Ok {| _configuration := conf; _rawToken := ""; _type := t;
                _decodedToken := token; _tokenHeader := JObj [] |}
      end
  end.

(** [token.split('.')] on a value that need not be a string. *)
Definition token_split (token : json) : res (list string) :=
  match token with
  | JStr raw => Ok (split "." raw)
  | _ => Throw (TypeError "token.split is not a function")
  end.

(** [getTokenPayload(token)]: [base64url.decode] throws on the missing
    second part of a token without a dot. *)
Definition getTokenPayload (token : json) : res json :=
  parts <- token_split token ;;
  match nth_error parts 1 with
  | Some segment => parse_segment segment
  | None => Throw (TypeError "Cannot read property 'toString' of undefined")
  end.

(** [tokenSignature(token)] *)
Definition tokenSignature (token : json) : res bool :=
  parts <- token_split token ;;
  Ok match nth_error parts 2 with
     | Some signature => negb (trim signature =? "")
     | None => false
     end.

(** [ClaimToken.create(token)] *)
Definition create (token : json) : res ClaimToken :=
  payload <- getTokenPayload token ;;
  iss <- get (Some payload) "iss" ;;
  if strict_eq_string TOKEN_SI_ISS iss then
    contract <- get (Some payload) "contract" ;;
    if truthy contract then
      new_ClaimToken (TokenType_name siopIssuance) token None
    else
      submission <- get (Some payload) "presentation_submission" ;;
      if truthy submission then
        new_ClaimToken (TokenType_name siopPresentationExchange) token None
      else
        attestations <- get (Some payload) "attestations" ;;
        if truthy attestations then
          new_ClaimToken (TokenType_name siopPresentationAttestation) token None
        else
          Throw (Error "SIOP was not recognized.")
  else
    vc <- get (Some payload) "vc" ;;
    if truthy vc then
      new_ClaimToken (TokenType_name verifiableCredential) token None
    else
      vp <- get (Some payload) "vp" ;;
      if truthy vp then
        new_ClaimToken (TokenType_name verifiablePresentation) token None
      else
        signed <- tokenSignature token ;;
        if signed then new_ClaimToken (TokenType_name idToken) token None
        else new_ClaimToken (TokenType_name selfIssued) token None.

(** [decodedTokens[key] = ClaimToken.create(token)] *)
Definition add_created (key : string) (token : json)
    (decodedTokens : list (string * ClaimToken))
  : res (list (string * ClaimToken)) :=
  claimToken <- create token ;;
  Ok (assign key claimToken decodedTokens).

(** A [for] loop whose body may throw, threading the accumulated map. *)
Fixpoint for_each {A B : Type} (body : A -> B -> res B) (l : list A) (acc : B)
  : res B :=
  match l with
  | [] => Ok acc
  | x :: rest => acc' <- body x acc ;; for_each body rest acc'
  end.

(** [ClaimToken.getClaimTokensFromAttestations(attestations)] *)
Definition getClaimTokensFromAttestations (attestations : value)
  : res (list (string * ClaimToken)) :=
  for_each
    (fun (entry : string * json) decodedTokens =>
       let (key, token) := entry in
       if key =? CLAIMS_SELFISSUED then
         claimToken <- new_ClaimToken (TokenType_name selfIssued) token None ;;
         Ok (assign CLAIMS_SELFISSUED claimToken decodedTokens)
       else
         for_each (fun (inner : string * json) => add_created (fst inner) (snd inner))
                  (entries (Some token)) decodedTokens)
    (entries attestations) [].

Definition descriptor_error (item : json) (tail : string) : exn :=
  Error ("The SIOP presentation exchange response has descriptor_map with id '"
           ++ template (property item "id") ++ "'. " ++ tail).

(** The body of the loop over the descriptor map. *)
Definition descriptor_step (payload : value) (item : json)
    (decodedTokens : list (string * ClaimToken))
  : res (list (string * ClaimToken)) :=
  if truthy (Some item) then
    if negb (truthy (property item "id")) then
      Throw (Error "The SIOP presentation exchange response has descriptor_map without id property")
    else if truthy (property item "path") then
      tokenFinder <- jp_query payload (property item "path") ;;
      match tokenFinder with
      | [] =>
          Throw (descriptor_error item
                   ("This path '" ++ template (property item "path")
                      ++ "' did not return a token."))
      | [JStr foundToken] =>
          claimToken <- create (JStr foundToken) ;;
          Ok (assign (template (property item "id")) claimToken decodedTokens)
      | [_] => Ok decodedTokens
      | _ :: _ :: _ =>
          Throw (descriptor_error item
                   ("This path '" ++ template (property item "path")
                      ++ "' points to multiple credentails and should only point to one credential."))
      end
    else
      Throw (descriptor_error item "No path property found.")
  else Ok decodedTokens.

(** [ClaimToken.getClaimTokensFromPresentationExchange(payload)] *)
Definition getClaimTokensFromPresentationExchange (payload : value)
  : res (list (string * ClaimToken)) :=
  descriptorMap <-
    jp_query payload (Some (JStr "$.presentation_submission.descriptor_map.*")) ;;
  for_each (descriptor_step payload) descriptorMap [].

(** [ClaimToken.getClaimTokensFromReceipt(payload)] *)
Definition getClaimTokensFromReceipt (payload : value)
  : res (list (string * ClaimToken)) :=
  receipt <- get payload "receipt" ;;
  if negb (truthy receipt) then
    Throw (Error "The SIOP status response has no receipt property.")
  else
    for_each (fun (entry : string * json) => add_created (fst entry) (snd entry))
             (entries receipt) [].

End ClaimTokenClass.

(** ** ClaimToken: instances, and the objects they hold

    The header and the decoded payload of a claim token are objects.  A
    field of an instance holds the object itself and a getter returns it,
    so that what the token shows depends on who else holds the object.
    Here objects live in a store and a value refers to an object by its
    place in it; the content of an object is the tree below it. *)

Module Store.

Definition ref : Type := nat.

(** A value as a variable or a field holds it: a primitive, or an object. *)
Inductive held : Type :=
| undefined
| null
| boolean (b : bool)
| number (n : Z)
| text (s : string)
| object (r : ref).

(** The content of an object: its properties, or the items of an array. *)
Inductive content : Type :=
| record (fields : list (string * json))
| array (items : list json).

Definition json_of (c : content) : json :=
  match c with
  | record fields => JObj fields
  | array items => JArr items
  end.

(** The objects made so far. *)
Definition store : Type := list content.

(** The value that [JSON.parse] gives: an object or an array is a new
    object of the store. *)
Definition parsed (s : store) (j : json) : store * held :=
  match j with
  | JNull => (s, null)
  | JBool b => (s, boolean b)
  | JNum n => (s, number n)
  | JStr t => (s, text t)
  | JArr items => ((s ++ [array items])%list, object (List.length s))
  | JObj fields => ((s ++ [record fields])%list, object (List.length s))
  end.

(** A held value read through the store. *)
Definition read (s : store) (x : held) : value :=
  match x with
  | undefined => None
  | null => Some JNull
  | boolean b => Some (JBool b)
  | number n => Some (JNum n)
  | text t => Some (JStr t)
  | object r => option_map json_of (nth_error s r)
  end.

(** An instance of the class: its five private fields. *)
Record instance : Type := {
  this_configuration : string;
  this_rawToken : string;
  this_type : TokenType;
  this_decodedToken : held;
  this_tokenHeader : held
}.

(** [this._rawToken = value] *)
Definition with_rawToken (t : instance) (v : string) : instance :=
  {| this_configuration := this_configuration t;
     this_rawToken := v;
     this_type := this_type t;
     this_decodedToken := this_decodedToken t;
     this_tokenHeader := this_tokenHeader t |}.

Section Class.
Context {R : Runtime}.

(** [decode()]: the header and the payload are parsed into the store, the
    header first. *)
Definition decode (s : store) (raw : string) : res (store * (held * held)) :=
  let parts := split "." raw in
  if (List.length parts <? 2)%nat then
    Throw (Error "Cannot decode. Invalid input token")
  else
    header <- parse_segment (nth 0 parts "") ;;
    let (s1, tokenHeader) := parsed s header in
    payload <- parse_segment (nth 1 parts "") ;;
    let (s2, decodedToken) := parsed s1 payload in
    Ok (s2, (tokenHeader, decodedToken)).

(** [new ClaimToken(typeName, token, configuration)]: the initialisers of
    [_decodedToken] and [_tokenHeader] make an empty object each, in the
    order of their declaration; a string is decoded, and any other token is
    kept as it is given. *)
Definition new_ClaimToken (s : store) (typeName : string) (token : held)
    (config : option string) : res (store * instance) :=
  let (s1, decodedToken0) := parsed s (JObj []) in
  let (s2, tokenHeader0) := parsed s1 (JObj []) in
  match find (fun t => TokenType_name t =? typeName) TokenType_values with
  | None => Throw (Error ("Type '" ++ typeName ++ " is not supported"))
  | Some t =>
      let conf := match config with Some c => c | None => "" end in
      match token with
      | text raw =>
          hp <- decode s2 raw ;;
          Ok (fst hp,
              {| this_configuration := conf; this_rawToken := raw;
                 this_type := t;
                 this_decodedToken := snd (snd hp);
                 this_tokenHeader := fst (snd hp) |})
      | _ =>
          Ok (s2,
              {| this_configuration := conf; this_rawToken := "";
                 this_type := t;
                 this_decodedToken := token;
                 this_tokenHeader := tokenHeader0 |})
      end
  end.

End Class.

(** The instance as the embedding above has it, its two objects read
    through the store. *)
Definition view (s : store) (t : instance) : option ClaimToken :=
  match read s (this_decodedToken t), read s (this_tokenHeader t) with
  | Some payload, Some header =>
      Some {| _configuration := this_configuration t;
              _rawToken := this_rawToken t;
              _type := this_type t;
              _decodedToken := payload;
              _tokenHeader := header |}
  | _, _ => None
  end.

(** The public operations on an instance: its five getters and its
    setter. *)
Inductive operation : Type :=
| get_type
| get_configuration
| get_rawToken
| get_tokenHeader
| get_decodedToken
| set_rawToken_to (v : string).

(** A call of a public member on the instance [t]: the store and the
    instance after it, and the value it returns.  A getter returns its
    field, [get tokenHeader()] and [get decodedToken()] what the field
    holds and no copy of it; [set rawToken(value)] assigns [_rawToken] and
    does nothing else. *)
Definition perform (op : operation) (st : store * instance)
  : (store * instance) * held :=
  let (s, t) := st in
  match op with
  | get_type => ((s, t), text (TokenType_name (this_type t)))
  | get_configuration => ((s, t), text (this_configuration t))
  | get_rawToken => ((s, t), text (this_rawToken t))
  | get_tokenHeader => ((s, t), this_tokenHeader t)
  | get_decodedToken => ((s, t), this_decodedToken t)
  | set_rawToken_to v => ((s, with_rawToken t v), undefined)
  end.

(** The object at [r] given the content [c], as property writes and
    deletions by a holder of the object leave it. *)
Fixpoint replace (r : ref) (c : content) (s : store) : store :=
  match s, r with
  | [], _ => []
  | _ :: rest, O => c :: rest
  | old :: rest, S r' => old :: replace r' c rest
  end.

(** What the code around a claim token does: it calls an operation of the
    token, or it changes an object. *)
Inductive action : Type :=
| call (op : operation)
| change (r : ref) (c : content).

Definition step (st : store * instance) (a : action) : store * instance :=
  match a with
  | call op => fst (perform op st)
  | change r c => (replace r c (fst st), snd st)
  end.

Definition run (trace : list action) (st : store * instance)
  : store * instance :=
  fold_left step trace st.

(** The raw token after a trace: the argument of the last call of the
    setter, and [raw] when there is none. *)
Definition last_set (trace : list action) (raw : string) : string :=
  fold_left (fun current a =>
               match a with
               | call (set_rawToken_to v) => v
               | _ => current
               end) trace raw.

(** An action is a call, or a change of an object that was in the store
    [made], before the token was constructed. *)
Definition reaches_only (made : store) (a : action) : Prop :=
  match a with
  | call _ => True
  | change r _ => r < List.length made
  end.

(** A trace of calls of the operations of the token, and nothing else. *)
Definition calls_only (trace : list action) : Prop :=
  Forall (fun a => exists op, a = call op) trace.

(** A value that is no object: [undefined], [null], a boolean, a number
    or a string. *)
Definition primitive (x : held) : Prop :=
  forall r, x <> object r.

End Store.

(** ** Validation responses and results *)

(** [IValidationResult]; every property may be absent, as in the object
    [checkVcsStatus] returns. *)
Record IValidationResult : Type := {
  vr_did : value;
  vr_contract : value;
  vr_siopJti : value;
  vr_idTokens : option (list ClaimToken);
  vr_verifiableCredentials : option (list (string * ClaimToken));
  vr_verifiablePresentations : option (list (string * ClaimToken));
  vr_selfIssued : option ClaimToken;
  vr_siop : option ClaimToken;
  vr_verifiablePresentationStatus : option (list (string * json))
}.

Record IValidationResponse : Type := {
  result : bool;
  status : Z;
  detailedError : option string;
  payloadObject : value;
  did : option string;
  tokensToValidate : option (list (string * ClaimToken));
  validationResult : option IValidationResult
}.

(** The object literal [{ result, status, detailedError }]. *)
Definition failure (code : Z) (text : string) : IValidationResponse :=
  {| result := false; status := code; detailedError := Some text;
     payloadObject := None; did := None; tokensToValidate := None;
     validationResult := None |}.

(** The object literal [{ result: true, status: 200 }]. *)
Definition success : IValidationResponse :=
  {| result := true; status := 200; detailedError := None;
     payloadObject := None; did := None; tokensToValidate := None;
     validationResult := None |}.

(** ** ValidationQueue *)

(** Modelled from the spec: the classes ValidationQueueItem and
    ValidationQueue are not among the sources.  An item carries its id, the
    raw token, the claim token when it was enqueued already classified, and
    after [setResult] the response and the validated token. *)
Record ValidationQueueItem : Type := {
  id : string;
  tokenToValidate : json;
  claimToken : option ClaimToken;
  validatedToken : option ClaimToken;
  validationResponse : option IValidationResponse;
  isValidated : bool
}.

(** Modelled from the spec: the queue is the ordered sequence of its items. *)
Definition ValidationQueue : Type := list ValidationQueueItem.

(** Modelled from the spec: [enqueueToken(id, raw)] appends a new
    unvalidated item. *)
Definition enqueueToken (queue : ValidationQueue) (i : string) (raw : json)
  : ValidationQueue :=
  (queue ++ [{| id := i; tokenToValidate := raw; claimToken := None;
                validatedToken := None; validationResponse := None;
                isValidated := false |}])%list.

(** Modelled from the spec: [enqueueItem] appends an unvalidated item that
    carries its claim token, so that it is not parsed again. *)
Definition enqueueItem (queue : ValidationQueue) (i : string) (token : ClaimToken)
  : ValidationQueue :=
  (queue ++ [{| id := i; tokenToValidate := JStr (rawToken token);
                claimToken := Some token; validatedToken := None;
                validationResponse := None; isValidated := false |}])%list.

(** Modelled from the spec: [getNextToken()] is the first unvalidated item
    in insertion order, given with its position. *)
Fixpoint getNextToken_from (pos : nat) (queue : ValidationQueue)
  : option (nat * ValidationQueueItem) :=
  match queue with
  | [] => None
  | item :: rest =>
      if isValidated item then getNextToken_from (S pos) rest
      else Some (pos, item)
  end.

Definition getNextToken (queue : ValidationQueue)
  : option (nat * ValidationQueueItem) :=
  getNextToken_from 0 queue.

(** Modelled from the spec: [setResult] marks the item validated and stores
    the response and the validated token. *)
Definition setResult (item : ValidationQueueItem) (response : IValidationResponse)
    (token : ClaimToken) : ValidationQueueItem :=
  {| id := id item; tokenToValidate := tokenToValidate item;
     claimToken := claimToken item; validatedToken := Some token;
     validationResponse := Some response; isValidated := true |}.

(** The item at [pos] is an object shared with the queue: [setResult] on it
    is an update in place. *)
Fixpoint setResult_at (pos : nat) (response : IValidationResponse)
    (token : ClaimToken) (queue : ValidationQueue) : ValidationQueue :=
  match queue, pos with
  | [], _ => []
  | item :: rest, O => setResult item response token :: rest
  | item :: rest, S pos' => item :: setResult_at pos' response token rest
  end.

(** Modelled from the spec: [getResult()] is the first failed response, or
    success when every item succeeded. *)
Fixpoint getResult (queue : ValidationQueue) : IValidationResponse :=
  match queue with
  | [] => success
  | item :: rest =>
      match validationResponse item with
      | Some response => if result response then getResult rest else response
      | None => getResult rest
      end
  end.

(** ** SiopTokenValidator *)

Record IExpectedSiop : Type := {
  expected_type : TokenType;
  audience : option string;
  nonce : option string;
  state : option string
}.

(** Truthiness of an optional string property. *)
Definition set_string (s : option string) : bool :=
  match s with
  | Some text => negb (text =? "")
  | None => false
  end.

Definition string_or_empty (s : option string) : string :=
  match s with
  | Some text => text
  | None => ""
  end.

(** What the first half of [getTokens] leaves: the response with its
    [tokensToValidate] assigned, or the response of a [catch] branch, which
    returns at once. *)
Inductive extraction : Type :=
| Extracted (response : IValidationResponse)
| Caught (response : IValidationResponse).

Definition with_tokens (response : IValidationResponse)
    (tokens : list (string * ClaimToken)) : IValidationResponse :=
  {| result := result response; status := status response;
     detailedError := detailedError response;
     payloadObject := payloadObject response; did := did response;
     tokensToValidate := Some tokens;
     validationResult := validationResult response |}.

Module SiopTokenValidator.
Section Class.
Context {R : Runtime}.

(** [new SiopValidation(options, expected).validate(raw)], a class that
    is not among the sources. *)
Variable siopValidation : json -> res IValidationResponse.
Variable expected : IExpectedSiop.

(** [validateReplayProtection(validationResponse)] *)
Definition validateReplayProtection (validationResponse : IValidationResponse)
  : res IValidationResponse :=
  nonceFailure <-
    (if set_string (nonce expected) then
       actual <- get (payloadObject validationResponse) "nonce" ;;
       if negb (strict_eq_string (string_or_empty (nonce expected)) actual) then
         Ok (Some (failure 403
                     ("Expect nonce '" ++ string_or_empty (nonce expected)
                        ++ "' does not match '" ++ template actual ++ "'.")))
       else Ok None
     else Ok None) ;;
  match nonceFailure with
  | Some response => Ok response
  | None =>
      if set_string (state expected) then
        actual <- get (payloadObject validationResponse) "state" ;;
        if negb (strict_eq_string (string_or_empty (state expected)) actual) then
          Ok (failure 403
                ("Expect state '" ++ string_or_empty (state expected)
                   ++ "' does not match '" ++ template actual ++ "'."))
        else Ok validationResponse
      else Ok validationResponse
  end.

(** The [type] that [getTokens] computes; [None] is the undeclared
    [TokenType.siop], which matches no [case]. *)
Definition siop_flavour (validationResponse : IValidationResponse)
  : res (option TokenType) :=
  attestations <- get (payloadObject validationResponse) ATTESTATIONS ;;
  if truthy attestations then Ok (Some siopPresentationAttestation)
  else
    submission <- get (payloadObject validationResponse) PRESENTATION_SUBMISSION ;;
    if truthy submission then Ok (Some siopPresentationExchange)
    else Ok None.

(** [getTokens] up to the end of its [switch]. *)
Definition extract_tokens (validationResponse : IValidationResponse)
  : res extraction :=
  flavour <- siop_flavour validationResponse ;;
  match flavour with
  | Some siopPresentationAttestation =>
      attestations <- get (payloadObject validationResponse) ATTESTATIONS ;;
      if truthy attestations then
        match getClaimTokensFromAttestations attestations with
        | Ok tokens => Ok (Extracted (with_tokens validationResponse tokens))
        | Throw err => Ok (Caught (failure 403 (message err)))
        end
      else Ok (Extracted validationResponse)
  | Some siopPresentationExchange =>
      match getClaimTokensFromPresentationExchange (payloadObject validationResponse) with
      | Ok tokens => Ok (Extracted (with_tokens validationResponse tokens))
      | Throw err => Ok (Caught (failure 403 (message err)))
      end
  | _ => Ok (Extracted validationResponse)
  end.

(** The loop that ends [getTokens]: one queue item per token. *)
Definition enqueue_all (tokens : list (string * ClaimToken))
    (queue : ValidationQueue) : ValidationQueue :=
  fold_left (fun q entry => enqueueItem q (fst entry) (snd entry)) tokens queue.

(** [getTokens(validationResponse, queue)] *)
Definition getTokens (validationResponse : IValidationResponse)
    (queue : ValidationQueue) : res IValidationResponse * ValidationQueue :=
  match extract_tokens validationResponse with
  | Throw e => (Throw e, queue)
  | Ok (Caught response) => (Ok response, queue)
  | Ok (Extracted response) =>
      (Ok response,
       match tokensToValidate response with
       | Some tokens => enqueue_all tokens queue
       | None => queue
       end)
  end.

(** [validate(queue, queueItem)] *)
Definition validate (queue : ValidationQueue) (queueItem : ValidationQueueItem)
  : res IValidationResponse * ValidationQueue :=
  match siopValidation (tokenToValidate queueItem) with
  | Throw e => (Throw e, queue)
  | Ok validationResult0 =>
      let (extracted, queue') :=
        if result validationResult0 then getTokens validationResult0 queue
        else (Ok validationResult0, queue) in
      (validationResult1 <- extracted ;; validateReplayProtection validationResult1,
       queue')
  end.

End Class.
End SiopTokenValidator.

(** ** Validator *)

(** [ITokenValidator]: its [validate(queue, queueItem, siopDid,
    siopContractId)] answers with a response and may have appended to the
    queue. *)
Record ITokenValidator : Type := {
  isType : TokenType;
  validator_validate :
    ValidationQueue -> ValidationQueueItem -> option string -> option string ->
    res IValidationResponse * ValidationQueue
}.

(** The properties of the builder the validator reads. *)
Record ValidatorBuilder : Type := {
  tokenValidators : list (string * ITokenValidator);
  featureVerifiedCredentialsStatusCheckEnabled : bool
}.

(** The answer of [fetch]: the [ok] flag and what [json()] gives. *)
Record FetchResponse : Type := {
  ok : bool;
  response_json : res json
}.

(** The collaborators of the status check. *)
Class StatusServices : Type := {
  (** the public key read from the key store *)
  keyStore_publicKey : res json;
  (** the serialized signature over the status request for a presentation *)
  sign_request : json -> ClaimToken -> res string;
  (** [fetch(url, { method: 'POST', body })] *)
  fetch : value -> string -> res FetchResponse;
  (** [new VerifiablePresentationStatusReceipt(receipt, ...).validate()],
      given the receipt and the issuer of the credential *)
  receipt_validate : json -> value -> res IValidationResponse
}.

(** The state a run of the validator changes: the queue, the claim tokens
    seen ([this.tokens]), the DID and contract id of the SIOP, the ids of
    the items handed to a token validator, and the requests sent. *)
Record Run : Type := {
  queue : ValidationQueue;
  tokens : list ClaimToken;
  siopDid : option string;
  siopContractId : option string;
  dispatched : list string;
  requests : list (value * string)
}.

Definition with_queue (run : Run) (q : ValidationQueue) : Run :=
  {| queue := q; tokens := tokens run; siopDid := siopDid run;
     siopContractId := siopContractId run; dispatched := dispatched run;
     requests := requests run |}.

Definition with_token (run : Run) (t : ClaimToken) : Run :=
  {| queue := queue run; tokens := (tokens run ++ [t])%list; siopDid := siopDid run;
     siopContractId := siopContractId run; dispatched := dispatched run;
     requests := requests run |}.

Definition with_siopDid (run : Run) (d : option string) : Run :=
  {| queue := queue run; tokens := tokens run; siopDid := d;
     siopContractId := siopContractId run; dispatched := dispatched run;
     requests := requests run |}.

Definition with_siopContractId (run : Run) (c : option string) : Run :=
  {| queue := queue run; tokens := tokens run; siopDid := siopDid run;
     siopContractId := c; dispatched := dispatched run;
     requests := requests run |}.

Definition with_dispatched (run : Run) (i : string) : Run :=
  {| queue := queue run; tokens := tokens run; siopDid := siopDid run;
     siopContractId := siopContractId run;
     dispatched := (dispatched run ++ [i])%list; requests := requests run |}.

Module Validator.

(** [isSiop(type)] *)
Definition isSiop (t : option TokenType) : bool :=
  match t with
  | Some siopIssuance => true
  | Some siopPresentationAttestation => true
  | _ => false
  end.

(** [item.validatedToken?.type] *)
Definition validated_type (item : ValidationQueueItem) : option TokenType :=
  option_map type (validatedToken item).

Definition has_type (t : TokenType) (item : ValidationQueueItem) : bool :=
  match validated_type item with
  | Some t' => TokenType_eqb t' t
  | None => false
  end.

(** [items.map(callback)] for a callback that may throw. *)
Fixpoint map_res {A B : Type} (f : A -> res B) (l : list A) : res (list B) :=
  match l with
  | [] => Ok []
  | x :: rest => y <- f x ;; ys <- map_res f rest ;; Ok (y :: ys)
  end.

(** [array[0]] *)
Definition first {A : Type} (l : list (option A)) : option A :=
  match l with
  | [] => None
  | x :: _ => x
  end.

(** [item.validationResponse.did] and
    [item.validationResponse.payloadObject.name] *)
Definition response_did (item : ValidationQueueItem) : res value :=
  match validationResponse item with
  | None => Throw (TypeError "Cannot read property 'did' of undefined")
  | Some response => Ok (option_map JStr (did response))
  end.

Definition response_payload (name : string) (item : ValidationQueueItem) : res value :=
  match validationResponse item with
  | None => Throw (TypeError "Cannot read property 'payloadObject' of undefined")
  | Some response => get (payloadObject response) name
  end.

(** [vc.validatedToken?.decodedToken.aud] *)
Definition validated_aud (item : ValidationQueueItem) : res value :=
  match validatedToken item with
  | None => Ok None
  | Some token => get (Some (decodedToken token)) "aud"
  end.

(** The map built by assigning [id -> validatedToken] item by item. *)
Definition tokens_by_id (items : list ValidationQueueItem)
  : list (string * ClaimToken) :=
  fold_left
    (fun acc item =>
       match validatedToken item with
       | Some token => assign (id item) token acc
       | None => acc
       end)
    items [].

Definition validated_tokens (items : list ValidationQueueItem) : list ClaimToken :=
  flat_map (fun item => match validatedToken item with
                        | Some token => [token]
                        | None => []
                        end) items.

(** [setValidationResult(queue)] *)
Definition setValidationResult (items : ValidationQueue) : res IValidationResult :=
  siopDids <- map_res response_did (filter (fun item => isSiop (validated_type item)) items) ;;
  did1 <- (if negb (truthy (first siopDids)) then
             auds <- map_res validated_aud (filter (has_type verifiableCredential) items) ;;
             Ok (first auds)
           else Ok (first siopDids)) ;;
  contracts <- map_res (response_payload "contract")
                       (filter (fun item => isSiop (validated_type item)) items) ;;
  jtis <- map_res (response_payload "jti")
                  (filter (fun item => isSiop (validated_type item)) items) ;;
  let idTokenItems := filter (has_type idToken) items in
  let vcItems := filter (has_type verifiableCredential) items in
  let vpItems := filter (has_type verifiablePresentation) items in
  let selfIssuedItems := filter (has_type selfIssued) items in
  let siopItems := filter (fun item => isSiop (validated_type item)) items in
  Ok {| vr_did := if truthy did1 then did1 else Some (JStr "");
        vr_contract := if truthy (first contracts) then first contracts
                       else Some (JStr "");
        vr_siopJti := match first jtis with
                      | None | Some JNull => Some (JStr "")
                      | Some jti => Some jti
                      end;
        vr_idTokens := match idTokenItems with
                       | [] => None
                       | _ => Some (validated_tokens idTokenItems)
                       end;
        vr_verifiableCredentials := match vcItems with
                                    | [] => None
                                    | _ => Some (tokens_by_id vcItems)
                                    end;
        vr_verifiablePresentations := match vpItems with
                                      | [] => None
                                      | _ => Some (tokens_by_id vpItems)
                                      end;
        vr_selfIssued := match selfIssuedItems with
                         | [] => None
                         | item :: _ => validatedToken item
                         end;
        vr_siop := match siopItems with
                   | [] => None
                   | item :: _ => validatedToken item
                   end;
        vr_verifiablePresentationStatus := None |}.

Definition path_separator : ascii := "/"%char.

Section Statics.
Context {R : Runtime}.

(** [Validator.readContractId(contractUrl)] *)
Definition readContractId (contractUrl : value) : res string :=
  path <- URL_pathname contractUrl ;;
  let pathParts := split path_separator path in
  decodeURIComponent (last pathParts "").

(** [Validator.getClaimToken(queueItem)] *)
Definition getClaimToken (queueItem : ValidationQueueItem) : res ClaimToken :=
  match claimToken queueItem with
  | Some token => Ok token
  | None => create (tokenToValidate queueItem)
  end.

End Statics.

Section Class.
Context {R : Runtime} {Net : StatusServices}.
Variable builder : ValidatorBuilder.

Definition status_result (statuses : list (string * json)) : IValidationResult :=
  {| vr_did := None; vr_contract := None; vr_siopJti := None;
     vr_idTokens := None; vr_verifiableCredentials := None;
     vr_verifiablePresentations := None; vr_selfIssued := None;
     vr_siop := None; vr_verifiablePresentationStatus := Some statuses |}.

Definition status_success (statuses : list (string * json)) : IValidationResponse :=
  {| result := true; status := 200; detailedError := None;
     payloadObject := None; did := None; tokensToValidate := None;
     validationResult := Some (status_result statuses) |}.

(** [response.validationResult?.verifiablePresentationStatus] *)
Definition statuses_of (response : IValidationResponse)
  : option (list (string * json)) :=
  match validationResult response with
  | Some r => vr_verifiablePresentationStatus r
  | None => None
  end.

(** [for (k in from) into[k] = from[k]] *)
Definition merge_statuses (from : option (list (string * json)))
    (into : list (string * json)) : list (string * json) :=
  match from with
  | Some entries => fold_left (fun acc kv => assign (fst kv) (snd kv) acc) entries into
  | None => into
  end.

(** The loop of [checkVpStatus] over the credentials of a presentation;
    [log] is the list of requests sent so far. *)
Fixpoint checkVpStatus_loop (publicKey : json) (vp : ClaimToken)
    (vcs : list (string * json)) (statuses : list (string * json))
    (log : list (value * string))
  : res IValidationResponse * list (value * string) :=
  match vcs with
  | [] => (Ok (status_success statuses), log)
  | (_, raw) :: rest =>
      match create raw with
      | Throw e => (Throw e, log)
      | Ok vcToValidate =>
          let statusUrl :=
            get_opt (get_opt (get_opt (Some (decodedToken vcToValidate)) "vc")
                             "credentialStatus") "id" in
          match get (Some (decodedToken vcToValidate)) "iss" with
          | Throw e => (Throw e, log)
          | Ok vcIssuerDid =>
              if truthy statusUrl then
                match sign_request publicKey vp with
                | Throw e => (Throw e, log)
                | Ok body =>
                    let log' := (log ++ [(statusUrl, body)])%list in
                    match fetch statusUrl body with
                    | Throw e => (Throw e, log')
                    | Ok response =>
                        if negb (ok response) then
                          (Ok (failure 403
                                 ("status check could not fetch response from "
                                    ++ template statusUrl)), log')
                        else
                          match response_json response with
                          | Throw e => (Throw e, log')
                          | Ok receipt =>
                              match receipt_validate receipt vcIssuerDid with
                              | Throw e => (Throw e, log')
                              | Ok receipts =>
                                  if negb (result receipts) then
                                    (Ok {| result := false; status := 403;
                                           detailedError := detailedError receipts;
                                           payloadObject := None; did := None;
                                           tokensToValidate := None;
                                           validationResult := None |}, log')
                                  else
                                    checkVpStatus_loop publicKey vp rest
                                      (merge_statuses (statuses_of receipts) statuses)
                                      log'
                              end
                          end
                    end
                end
              else checkVpStatus_loop publicKey vp rest statuses log
          end
      end
  end.

(** [checkVpStatus(verifiablePresentationToken)] *)
Definition checkVpStatus (verifiablePresentationToken : ClaimToken)
    (log : list (value * string))
  : res IValidationResponse * list (value * string) :=
  match keyStore_publicKey with
  | Throw e => (Throw e, log)
  | Ok publicKey =>
      match get (Some (decodedToken verifiablePresentationToken)) "vp" with
      | Throw e => (Throw e, log)
      | Ok vpClaim =>
          let vcs := get_opt vpClaim "verifiableCredential" in
          if truthy vcs then
            checkVpStatus_loop publicKey verifiablePresentationToken
                               (entries vcs) [] log
          else (Ok (status_success []), log)
      end
  end.

(** The loop of [checkVcsStatus] over the presentations. *)
Fixpoint checkVcsStatus_loop (vps : list (string * ClaimToken))
    (receipts : list (string * json)) (log : list (value * string))
  : res IValidationResponse * list (value * string) :=
  match vps with
  | [] => (Ok (status_success receipts), log)
  | (_, vp) :: rest =>
      match checkVpStatus vp log with
      | (Throw e, log') => (Throw e, log')
      | (Ok response, log') =>
          if negb (result response) then (Ok response, log')
          else checkVcsStatus_loop rest
                 (merge_statuses (statuses_of response) receipts) log'
      end
  end.

(** [checkVcsStatus(validationResult)].  The list [vcsToValidate] that
    the source computes is read nowhere and computing it cannot throw; it
    has no counterpart here. *)
Definition checkVcsStatus (validationResult : IValidationResult)
    (log : list (value * string))
  : res IValidationResponse * list (value * string) :=
  if negb (featureVerifiedCredentialsStatusCheckEnabled builder) then
    (Ok success, log)
  else
    match vr_verifiablePresentations validationResult with
    | None => (Ok (failure 403 "No presentations to tests"), log)
    | Some vps =>
        match vr_verifiableCredentials validationResult with
        | None => (Ok (failure 403 "No verifiable credentials to tests"), log)
        | Some _ => checkVcsStatus_loop vps [] log
        end
    end.

(** What one turn of the loop of [validate] ends in: a [return] (or an
    exception) or the next turn. *)
Inductive Step : Type :=
| Return (response : res IValidationResponse) (run : Run)
| Continue (run : Run).

(** [await validator.validate(queue, queueItem, siopDid, siopContractId)] *)
Definition call (validator : ITokenValidator) (run : Run)
    (queueItem : ValidationQueueItem) (subject contractId : option string)
  : res IValidationResponse * Run :=
  let (response, q) :=
    validator_validate validator (queue run) queueItem subject contractId in
  (response, with_queue (with_dispatched run (id queueItem)) q).

(** [queueItem.setResult(response, claimToken)] and on to the next turn. *)
Definition save (pos : nat) (claimToken : ClaimToken)
    (called : res IValidationResponse * Run) : Step :=
  match called with
  | (Throw e, run) => Return (Throw e) run
  | (Ok response, run) =>
      Continue (with_queue run (setResult_at pos response claimToken (queue run)))
  end.

(** The body of the [do ... while] loop of [validate], for the item at
    position [pos] of the queue. *)
Definition validate_step (run : Run) (pos : nat) (queueItem : ValidationQueueItem)
  : Step :=
  match getClaimToken queueItem with
  | Throw error => Return (Ok (failure 400 (message error))) run
  | Ok claimToken =>
      let run1 := with_token run claimToken in
      match lookup (TokenType_name (type claimToken)) (tokenValidators builder) with
      | None =>
          Return (Ok (failure 500 (TokenType_name (type claimToken)
                                     ++ " does not has a TokenValidator"))) run1
      | Some validator =>
          match type claimToken with
          | idToken =>
              save pos claimToken
                   (call validator run1 queueItem (Some "") (siopContractId run1))
          | verifiableCredential =>
              save pos claimToken (call validator run1 queueItem (siopDid run1) None)
          | verifiablePresentation =>
              save pos claimToken (call validator run1 queueItem (siopDid run1) None)
          | siopIssuance =>
              match call validator run1 queueItem None None with
              | (Throw e, run2) => Return (Throw e) run2
              | (Ok response, run2) =>
                  let run3 := with_siopDid run2 (did response) in
                  if result response then
                    match (contract <- get (payloadObject response) "contract" ;;
                           readContractId contract) with
                    | Throw e => Return (Throw e) run3
                    | Ok contractId =>
                        save pos claimToken
                             (Ok response, with_siopContractId run3 (Some contractId))
                    end
                  else save pos claimToken (Ok response, run3)
              end
          | siopPresentationAttestation =>
              match call validator run1 queueItem None None with
              | (Throw e, run2) => Return (Throw e) run2
              | (Ok response, run2) =>
                  save pos claimToken (Ok response, with_siopDid run2 (did response))
              end
          | siopPresentationExchange =>
              match call validator run1 queueItem None None with
              | (Throw e, run2) => Return (Throw e) run2
              | (Ok response, run2) =>
                  save pos claimToken (Ok response, with_siopDid run2 (did response))
              end
          | selfIssued =>
              save pos claimToken (call validator run1 queueItem None None)
          | verifiablePresentationStatus =>
              Return (Ok (failure 400 (TokenType_name (type claimToken)
                                         ++ " is not supported"))) run1
          end
      end
  end.

Definition with_status (r : IValidationResult)
    (statuses : option (list (string * json))) : IValidationResult :=
  {| vr_did := vr_did r; vr_contract := vr_contract r; vr_siopJti := vr_siopJti r;
     vr_idTokens := vr_idTokens r;
     vr_verifiableCredentials := vr_verifiableCredentials r;
     vr_verifiablePresentations := vr_verifiablePresentations r;
     vr_selfIssued := vr_selfIssued r; vr_siop := vr_siop r;
     vr_verifiablePresentationStatus := statuses |}.

Definition with_requests (run : Run) (log : list (value * string)) : Run :=
  {| queue := queue run; tokens := tokens run; siopDid := siopDid run;
     siopContractId := siopContractId run; dispatched := dispatched run;
     requests := log |}.

(** What [validate] does once the queue holds no unvalidated item. *)
Definition set_output (run : Run) : res IValidationResponse * Run :=
  let response := getResult (queue run) in
  if result response then
    match setValidationResult (queue run) with
    | Throw e => (Throw e, run)
    | Ok validationResult0 =>
        match checkVcsStatus validationResult0 (requests run) with
        | (Throw e, log) => (Throw e, with_requests run log)
        | (Ok statusResponse, log) =>
            if result statusResponse then
              (Ok {| result := true; status := 200; detailedError := None;
                     payloadObject := None; did := None; tokensToValidate := None;
                     validationResult :=
                       Some (with_status validationResult0 (statuses_of statusResponse)) |},
               with_requests run log)
            else (Ok statusResponse, with_requests run log)
        end
    end
  else (Ok response, run).

(** The loop of [validate]; [fuel] bounds the number of turns, since a
    token validator may enqueue without end. *)
Fixpoint validate_loop (fuel : nat) (run : Run) (pos : nat)
    (queueItem : ValidationQueueItem) : option (res IValidationResponse * Run) :=
  match fuel with
  | O => None
  | S fuel' =>
      match validate_step run pos queueItem with
      | Return response run' => Some (response, run')
      | Continue run' =>
          match getNextToken (queue run') with
          | Some (pos', next) => validate_loop fuel' run' pos' next
          | None => Some (set_output run')
          end
      end
  end.

(** [validate(token)], for a validator that has seen the claim tokens
    [seen] in earlier calls. *)
Definition validate (fuel : nat) (seen : list ClaimToken) (token : json)
  : option (res IValidationResponse * Run) :=
  let run := {| queue := enqueueToken [] "siop" token; tokens := seen;
                siopDid := None; siopContractId := None;
                dispatched := []; requests := [] |} in
  match getNextToken (queue run) with
  | Some (pos, queueItem) => validate_loop fuel run pos queueItem
  | None => Some (Throw (TypeError "Cannot read property 'claimToken' of undefined"), run)
  end.

End Class.
End Validator.

(** ** Sample services *)

(** The definitions below give the services at the inputs that the examples
    of Part II use.  Each agrees with the service it stands for on the
    inputs named in its comment and makes no statement about others. *)
Module Sample.

(** [{"alg":"ES256K","typ":"JWT"}] *)
Definition header_segment : string := "eyJhbGciOiJFUzI1NksiLCJ0eXAiOiJKV1QifQ".
Definition header : json := JObj [("alg", JStr "ES256K"); ("typ", JStr "JWT")].

(** [{"iss":"https://self-issued.me","contract":E,"presentation_submission":{"descriptor_map":[]}}]
    where [E] is the empty string literal. *)
Definition blank_contract_segment : string :=
  "eyJpc3MiOiJodHRwczovL3NlbGYtaXNzdWVkLm1lIiwiY29udHJhY3QiOiIiLCJwcmVzZW50YXRpb25fc3VibWlzc2lvbiI6eyJkZXNjcmlwdG9yX21hcCI6W119fQ".
Definition blank_contract : json :=
  JObj [("iss", JStr "https://self-issued.me"); ("contract", JStr "");
        ("presentation_submission", JObj [("descriptor_map", JArr [])])].

(** [{"iss":"https://self-issued.me","contract":"https://issuer.example/v1.0/contracts/DrivingLicense","jti":"jti-1"}] *)
Definition issuance_segment : string :=
  "eyJpc3MiOiJodHRwczovL3NlbGYtaXNzdWVkLm1lIiwiY29udHJhY3QiOiJodHRwczovL2lzc3Vlci5leGFtcGxlL3YxLjAvY29udHJhY3RzL0RyaXZpbmdMaWNlbnNlIiwianRpIjoianRpLTEifQ".
Definition issuance : json :=
  JObj [("iss", JStr "https://self-issued.me");
        ("contract", JStr "https://issuer.example/v1.0/contracts/DrivingLicense");
        ("jti", JStr "jti-1")].

(** [{"iss":"did:test:issuer","aud":"did:test:user","vc":{"credentialSubject":{"givenName":"Jules"}}}] *)
Definition credential_segment : string :=
  "eyJpc3MiOiJkaWQ6dGVzdDppc3N1ZXIiLCJhdWQiOiJkaWQ6dGVzdDp1c2VyIiwidmMiOnsiY3JlZGVudGlhbFN1YmplY3QiOnsiZ2l2ZW5OYW1lIjoiSnVsZXMifX19".
Definition credential : json :=
  JObj [("iss", JStr "did:test:issuer"); ("aud", JStr "did:test:user");
        ("vc", JObj [("credentialSubject", JObj [("givenName", JStr "Jules")])])].

(** [{"iss":"did:test:user","aud":"did:test:verifier","vp":{"verifiableCredential":[t]}}]
    where [t] is the compact token over the header and the credential
    above, signed [c2ln]. *)
Definition presentation_segment : string :=
  "eyJpc3MiOiJkaWQ6dGVzdDp1c2VyIiwiYXVkIjoiZGlkOnRlc3Q6dmVyaWZpZXIiLCJ2cCI6eyJ2ZXJpZmlhYmxlQ3JlZGVudGlhbCI6WyJleUpoYkdjaU9pSkZVekkxTmtzaUxDSjBlWEFpT2lKS1YxUWlmUS5leUpwYzNNaU9pSmthV1E2ZEdWemREcHBjM04xWlhJaUxDSmhkV1FpT2lKa2FXUTZkR1Z6ZERwMWMyVnlJaXdpZG1NaU9uc2lZM0psWkdWdWRHbGhiRk4xWW1wbFkzUWlPbnNpWjJsMlpXNU9ZVzFsSWpvaVNuVnNaWE1pZlgxOS5jMmxuIl19fQ".
Definition presentation : json :=
  JObj [("iss", JStr "did:test:user"); ("aud", JStr "did:test:verifier");
        ("vp", JObj [("verifiableCredential",
                      JArr [JStr (header_segment ++ "." ++ credential_segment ++ ".c2ln")])])].

(** [{"firstName":"Vincent","lastName":"Vega"}] *)
Definition claims_segment : string :=
  "eyJmaXJzdE5hbWUiOiJWaW5jZW50IiwibGFzdE5hbWUiOiJWZWdhIn0".
Definition claims : json :=
  JObj [("firstName", JStr "Vincent"); ("lastName", JStr "Vega")].

(** Compact tokens over these segments; [c2ln] encodes the bytes [sig]. *)
Definition blank_contract_token : string :=
  header_segment ++ "." ++ blank_contract_segment ++ ".c2ln".
Definition issuance_token : string :=
  header_segment ++ "." ++ issuance_segment ++ ".c2ln".
Definition credential_token : string :=
  header_segment ++ "." ++ credential_segment ++ ".c2ln".
Definition claims_token : string :=
  header_segment ++ "." ++ claims_segment ++ ".".
Definition presentation_token : string :=
  header_segment ++ "." ++ presentation_segment ++ ".c2ln".

(** [JSON.parse(base64url.decode(segment))] on the six segments above. *)
Definition parse (segment : string) : res json :=
  if segment =? header_segment then Ok header
  else if segment =? blank_contract_segment then Ok blank_contract
  else if segment =? issuance_segment then Ok issuance
  else if segment =? credential_segment then Ok credential
  else if segment =? claims_segment then Ok claims
  else if segment =? presentation_segment then Ok presentation
  else Throw (LibError "segment outside the sample").

(** One step of a JSON path: [*] selects every child, a name the member of
    that name. *)
Definition path_step (nodes : list json) (name : string) : list json :=
  flat_map
    (fun node =>
       match node with
       | JObj fields =>
           if name =? "*" then map snd fields
           else match lookup name fields with
                | Some child => [child]
                | None => []
                end
       | JArr items => if name =? "*" then items else []
       | _ => []
       end)
    nodes.

(** [jp.query] on paths made of [$] and steps [.name] and [.*]. *)
Definition query (obj path : value) : res (list json) :=
  match path with
  | Some (JStr text) =>
      match obj with
      | Some (JObj _ as root) | Some (JArr _ as root) =>
          match split "." text with
          | "$" :: steps => Ok (fold_left path_step steps [root])
          | _ => Throw (LibError "path outside the sample")
          end
      | _ => Throw (LibError "obj needs to be an object")
      end
  | _ => Throw (LibError "we need a path")
  end.

(** The text before the first [?] or [#]. *)
Fixpoint before_query (s : string) : string :=
  match s with
  | EmptyString => EmptyString
  | String c rest =>
      if (Ascii.eqb c "?" || Ascii.eqb c "#")%char then EmptyString
      else String c (before_query rest)
  end.

(** [new URL(text).pathname] on texts [scheme://host/segments] whose path
    needs no normalisation. *)
Definition pathname (url : value) : res string :=
  match url with
  | Some (JStr text) =>
      match split "/" (before_query text) with
      | _ :: "" :: _ :: segments => Ok ("/" ++ join "/" segments)
      | _ => Throw (TypeError "Invalid URL")
      end
  | _ => Throw (TypeError "Invalid URL")
  end.

Definition hex_digit (c : ascii) : option nat :=
  let n := nat_of_ascii c in
  if ((48 <=? n) && (n <=? 57))%nat then Some (n - 48)
  else if ((65 <=? n) && (n <=? 70))%nat then Some (n - 55)
  else if ((97 <=? n) && (n <=? 102))%nat then Some (n - 87)
  else None.

(** [decodeURIComponent] on texts whose escapes are below [%80]. *)
Fixpoint percent_decode (s : string) : res string :=
  match s with
  | EmptyString => Ok EmptyString
  | String c rest =>
      if Ascii.eqb c "%" then
        match rest with
        | String h (String l rest') =>
            match hex_digit h, hex_digit l with
            | Some hi, Some lo =>
                if (hi <? 8)%nat then
                  tail <- percent_decode rest' ;;
                  Ok (String (ascii_of_nat (16 * hi + lo)) tail)
                else Throw (LibError "escape outside the sample")
            | _, _ => Throw (LibError "URI malformed")
            end
        | _ => Throw (LibError "URI malformed")
        end
      else
        tail <- percent_decode rest ;;
        Ok (String c tail)
  end.

Definition runtime : Runtime :=
  {| parse_segment := parse;
     jp_query := query;
     URL_pathname := pathname;
     decodeURIComponent := percent_decode |}.

(** Status services that answer every request with a failure. *)
Definition services : StatusServices :=
  {| keyStore_publicKey := Ok (JObj []);
     sign_request := fun _ _ => Ok "signed";
     fetch := fun _ _ => Ok {| ok := false; response_json := Ok JNull |};
     receipt_validate := fun _ _ => Ok success |}.

(** A validated SIOP response of the attestation flavour that echoes the
    nonce [n2] and the state [s2] and carries one self-issued attestation. *)
Definition attested_payload : json :=
  JObj [("iss", JStr "https://self-issued.me");
        ("aud", JStr "https://verifier.example");
        ("nonce", JStr "n2"); ("state", JStr "s2");
        ("attestations", JObj [("selfIssued", JObj [("name", JStr "jules")])])].

Definition attested_response : IValidationResponse :=
  {| result := true; status := 200; detailedError := None;
     payloadObject := Some attested_payload; did := Some "did:test:user";
     tokensToValidate := None; validationResult := None |}.

(** A SIOP validation that accepts the token with that response. *)
Definition siopValidation (raw : json) : res IValidationResponse :=
  Ok attested_response.

(** The caller expects the nonce [n1] and the state [s1]. *)
Definition expected_replay : IExpectedSiop :=
  {| expected_type := siopPresentationAttestation;
     audience := Some "https://verifier.example";
     nonce := Some "n1"; state := Some "s1" |}.

Definition siop_item : ValidationQueueItem :=
  {| id := "siop"; tokenToValidate := JStr "siop-response";
     claimToken := None; validatedToken := None; validationResponse := None;
     isValidated := false |}.

Definition selfIssued_token : ClaimToken :=
  {| _configuration := ""; _rawToken := ""; _type := selfIssued;
     _decodedToken := JObj [("name", JStr "jules")]; _tokenHeader := JObj [] |}.

(** Presentation-exchange payloads: one whose descriptor has no path, and
    one whose descriptor's path selects an object. *)
Definition pathless_payload : json :=
  JObj [("iss", JStr "https://self-issued.me");
        ("presentation_submission",
         JObj [("descriptor_map", JArr [JObj [("id", JStr "IdentityCard")]])])].

Definition object_path_payload : json :=
  JObj [("iss", JStr "https://self-issued.me");
        ("presentation_submission",
         JObj [("descriptor_map",
                JArr [JObj [("id", JStr "IdentityCard");
                            ("path", JStr "$.tokens.presentations")]])]);
        ("tokens",
         JObj [("presentations", JObj [("DrivingLicense", JStr claims_token)])])].

(** A queue after the run of a presentation-exchange SIOP without
    children: its one item is validated, and the response carries the DID
    of the holder and the payload with its [jti]. *)
Definition exchange_payload : json :=
  JObj [("iss", JStr "https://self-issued.me");
        ("aud", JStr "https://verifier.example");
        ("jti", JStr "jti-1");
        ("presentation_submission", JObj [("descriptor_map", JArr [])])].

Definition exchange_token : ClaimToken :=
  {| _configuration := ""; _rawToken := "siop-response";
     _type := siopPresentationExchange; _decodedToken := exchange_payload;
     _tokenHeader := header |}.

Definition exchange_response : IValidationResponse :=
  {| result := true; status := 200; detailedError := None;
     payloadObject := Some exchange_payload; did := Some "did:test:user";
     tokensToValidate := Some []; validationResult := None |}.

Definition exchange_queue : ValidationQueue :=
  [{| id := "siop"; tokenToValidate := JStr "siop-response"; claimToken := None;
      validatedToken := Some exchange_token;
      validationResponse := Some exchange_response; isValidated := true |}].

(** The same queue for the issuance flavour. *)
Definition issuance_response : IValidationResponse :=
  {| result := true; status := 200; detailedError := None;
     payloadObject := Some issuance; did := Some "did:test:user";
     tokensToValidate := None; validationResult := None |}.

Definition issuance_claim_token : ClaimToken :=
  {| _configuration := ""; _rawToken := issuance_token; _type := siopIssuance;
     _decodedToken := issuance; _tokenHeader := header |}.

Definition issuance_queue : ValidationQueue :=
  [{| id := "siop"; tokenToValidate := JStr issuance_token; claimToken := None;
      validatedToken := Some issuance_claim_token;
      validationResponse := Some issuance_response; isValidated := true |}].

(** A validator of presentations that accepts and enqueues the credential
    of the presentation, and a builder that registers no other validator. *)
Definition presentation_validator : ITokenValidator :=
  {| isType := verifiablePresentation;
     validator_validate :=
       fun queue _ _ _ => (Ok success, enqueueToken queue "vc" (JStr credential_token)) |}.

Definition builder (statusCheck : bool) : ValidatorBuilder :=
  {| tokenValidators := [("verifiablePresentation", presentation_validator)];
     featureVerifiedCredentialsStatusCheckEnabled := statusCheck |}.

Definition credential_item : ValidationQueueItem :=
  {| id := "vc"; tokenToValidate := JStr credential_token; claimToken := None;
     validatedToken := None; validationResponse := None; isValidated := false |}.

Definition credential_claim_token : ClaimToken :=
  {| _configuration := ""; _rawToken := credential_token;
     _type := verifiableCredential; _decodedToken := credential;
     _tokenHeader := header |}.

Definition empty_run : Run :=
  {| queue := [credential_item]; tokens := []; siopDid := None;
     siopContractId := None; dispatched := []; requests := [] |}.

Definition empty_result : IValidationResult :=
  {| vr_did := Some (JStr ""); vr_contract := Some (JStr "");
     vr_siopJti := Some (JStr ""); vr_idTokens := None;
     vr_verifiableCredentials := None; vr_verifiablePresentations := None;
     vr_selfIssued := None; vr_siop := None;
     vr_verifiablePresentationStatus := None |}.

(** A store with one object made before any token, and code that reads
    the payload of a token, changes the earlier object, replaces the raw
    token and reads it. *)
Definition earlier : Store.store := [Store.record [("nonce", JStr "n-1")]].

(** The store and the instance that the constructor leaves of the issuance
    token in the store [made]: after the objects of [made] come the two
    empty objects of the field initialisers, the header and the payload. *)
Definition constructed (made : Store.store) : Store.store * Store.instance :=
  ((made ++ [Store.record [];
             Store.record [];
             Store.record [("alg", JStr "ES256K"); ("typ", JStr "JWT")];
             Store.record
               [("iss", JStr "https://self-issued.me");
                ("contract",
                 JStr "https://issuer.example/v1.0/contracts/DrivingLicense");
                ("jti", JStr "jti-1")]])%list,
   {| Store.this_configuration := "";
      Store.this_rawToken := issuance_token;
      Store.this_type := siopIssuance;
      Store.this_decodedToken := Store.object (List.length made + 3);
      Store.this_tokenHeader := Store.object (List.length made + 2) |}).

Definition client : list Store.action :=
  [Store.call Store.get_decodedToken;
   Store.change 0 (Store.record []);
   Store.call (Store.set_rawToken_to credential_token);
   Store.call Store.get_rawToken].

End Sample.

(** ** Statements of the specification *)

(** The definitions of this section follow the words of the specification;
    Part II compares them with the code. *)

(** A string all of whose characters are white space. *)
Fixpoint blank (s : string) : bool :=
  match s with
  | EmptyString => true
  | String c rest => is_white c && blank rest
  end.

(** "A signature segment present and non-blank", given the segments after
    the payload. *)
Definition signed (after_payload : list string) : bool :=
  match after_payload with
  | signature :: _ => negb (blank signature)
  | [] => false
  end.

(** "payload has [k]": the property is present, whatever its value. *)
Definition present (payload : json) (k : string) : bool :=
  match property payload k with
  | Some _ => true
  | None => false
  end.

(** The property is present with a truthy value. *)
Definition truthy_property (payload : json) (k : string) : bool :=
  truthy (property payload k).

(** The ordered shape rules of classification, for a test [holds] of a
    payload marker: a token type, or the message of the failure. *)
Definition classification (holds : json -> string -> bool) (payload : json)
    (has_signature : bool) : string + TokenType :=
  if strict_eq_string "https://self-issued.me" (property payload "iss") then
    if holds payload "contract" then inr siopIssuance
    else if holds payload "presentation_submission" then inr siopPresentationExchange
    else if holds payload "attestations" then inr siopPresentationAttestation
    else inl "SIOP was not recognized."
  else if holds payload "vc" then inr verifiableCredential
  else if holds payload "vp" then inr verifiablePresentation
  else if has_signature then inr idToken
  else inr selfIssued.

(** What [create] answers for a classification: the claim token of that
    type over the raw token, or the failure. *)
Definition classified (raw : string) (header payload : json)
    (c : string + TokenType) : res ClaimToken :=
  match c with
  | inl text => Throw (Error text)
  | inr t => Ok {| _configuration := ""; _rawToken := raw; _type := t;
                   _decodedToken := payload; _tokenHeader := header |}
  end.

(** [create] classifies the compact token [raw] by the rules under the
    test [holds]. *)
Definition create_classifies_by {R : Runtime} (holds : json -> string -> bool)
    (raw : string) : Prop :=
  forall header_segment payload_segment after_payload header payload,
    split "." raw = header_segment :: payload_segment :: after_payload ->
    parse_segment header_segment = Ok header ->
    parse_segment payload_segment = Ok payload ->
    payload <> JNull ->
    create (JStr raw)
    = classified raw header payload
        (classification holds payload (signed after_payload)).

(** The validator answers with a rejection (result false, status 403)
    whose detailed error contains the expected value and the actual one. *)
Definition rejects_naming (answer : res IValidationResponse)
    (expectedValue : string) (actual : value) : Prop :=
  exists response text,
    answer = Ok response
    /\ result response = false
    /\ status response = 403%Z
    /\ detailedError response = Some text
    /\ Contains text expectedValue
    /\ Contains text (template actual).

(** "If expected nonce set, payload nonce must match; same for state.
    Mismatch: 403 with expected/actual in the error." *)
Definition replay_reports_mismatch (expected : IExpectedSiop)
    (response : IValidationResponse) (payload : json) : Prop :=
  (forall e, nonce expected = Some e ->
             property payload "nonce" <> Some (JStr e) ->
             rejects_naming
               (SiopTokenValidator.validateReplayProtection expected response)
               e (property payload "nonce"))
  /\ (forall e, state expected = Some e ->
                property payload "state" <> Some (JStr e) ->
                rejects_naming
                  (SiopTokenValidator.validateReplayProtection expected response)
                  e (property payload "state")).

(** The nonce check lets the response through: no nonce is expected, or
    the payload echoes the expected one. *)
Definition nonce_passes (expected : IExpectedSiop) (payload : json) : Prop :=
  set_string (nonce expected) = false
  \/ property payload "nonce" = Some (JStr (string_or_empty (nonce expected))).

(** The queue item [getTokens] makes of an extracted token. *)
Definition child_item (entry : string * ClaimToken) : ValidationQueueItem :=
  {| id := fst entry; tokenToValidate := JStr (rawToken (snd entry));
     claimToken := Some (snd entry); validatedToken := None;
     validationResponse := None; isValidated := false |}.

Definition tokens_of (response : IValidationResponse)
  : list (string * ClaimToken) :=
  match tokensToValidate response with
  | Some tokens => tokens
  | None => []
  end.

(** "Any state failing terminates": a failed validation of a SIOP leaves
    the queue as it was. *)
Definition failure_leaves_queue {R : Runtime}
    (siopValidation : json -> res IValidationResponse) (expected : IExpectedSiop)
    (queue : ValidationQueue) (queueItem : ValidationQueueItem) : Prop :=
  forall response queue',
    SiopTokenValidator.validate siopValidation expected queue queueItem
    = (Ok response, queue') ->
    result response = false ->
    queue' = queue.

(** The path of a descriptor selected exactly one string. *)
Definition one_string (found : list json) : bool :=
  match found with
  | [JStr _] => true
  | _ => false
  end.

Definition descriptor_map_path : value :=
  Some (JStr "$.presentation_submission.descriptor_map.*").

(** "Exactly one string result required, else fail": extraction fails as
    soon as the path of some descriptor selects anything else. *)
Definition requires_one_string {R : Runtime} (payload : value) : Prop :=
  forall descriptors item found,
    jp_query payload descriptor_map_path = Ok descriptors ->
    In item descriptors ->
    jp_query payload (property item "path") = Ok found ->
    one_string found = false ->
    exists e, getClaimTokensFromPresentationExchange payload = Throw e.

(** Extraction fails with an error that names the descriptor id [named]
    and contains [reason]. *)
Definition fails_naming {R : Runtime} (payload : value) (named : value)
    (reason : string) : Prop :=
  exists text,
    getClaimTokensFromPresentationExchange payload = Throw (Error text)
    /\ Contains text (template named)
    /\ Contains text reason.

(** "Take last non-empty path segment." *)
Definition last_nonempty_segment (path : string) : string :=
  last (filter (fun segment => negb (segment =? "")) (split "/" path)) "".

(** "[readContractId(url)]: URL-parse, take last non-empty path segment,
    URL-decode it." *)
Definition reads_last_nonempty_segment {R : Runtime} (url : value) : Prop :=
  forall path,
    URL_pathname url = Ok path ->
    Validator.readContractId url = decodeURIComponent (last_nonempty_segment path).

(** What the specification lists of a claim token: its type, its raw
    token, its header and its decoded payload as the store has them, and
    its configuration. *)
Definition observed (st : Store.store * Store.instance)
  : TokenType * string * value * value * string :=
  (Store.this_type (snd st),
   Store.this_rawToken (snd st),
   Store.read (fst st) (Store.this_tokenHeader (snd st)),
   Store.read (fst st) (Store.this_decodedToken (snd st)),
   Store.this_configuration (snd st)).

(** "Immutable after construction": no public operation changes what is
    listed. *)
Definition immutable (st : Store.store * Store.instance) : Prop :=
  forall op, observed (fst (Store.perform op st)) = observed st.

(** The [did], [contract] and [siopJti] that the specification asks of the
    assembled result for a queue whose SIOP item answered [response]: the
    DID of the response and the two fields of its payload. *)
Definition assembled_from_siop (response : IValidationResponse)
    (r : IValidationResult) : Prop :=
  vr_did r = option_map JStr (did response)
  /\ vr_contract r = get_opt (payloadObject response) "contract"
  /\ vr_siopJti r = get_opt (payloadObject response) "jti".

(** ** Statements about the rest of the code *)

(** The ids under which [getClaimTokensFromAttestations] files the tokens
    of an attestations object, given its entries: the reserved key for the
    self-issued entry, and for every other entry the keys of its value. *)
Definition attestation_ids (groups : list (string * json)) : list string :=
  flat_map
    (fun group =>
       if fst group =? CLAIMS_SELFISSUED then [CLAIMS_SELFISSUED]
       else map fst (entries (Some (snd group))))
    groups.

(** Two maps have the same ids. *)
Definition same_ids {A : Type} (m : list (string * A)) (ids : list string)
  : Prop :=
  forall k, In k (map fst m) <-> In k ids.

(** Ids at which the assignment [map[id] = token] adds the property [id] to
    a map: none of them is [__proto__], at which the engine sets the
    prototype of the map instead. *)
Definition ordinary_ids (ids : list string) : Prop :=
  ~ In "__proto__" ids.

(** The token that a map has at [k] after the assignments
    [map[item.id] = item.validatedToken] for the items of type [T], in the
    order of the queue: the validated token of the last of these items whose
    id is [k]. *)
Definition filed_under (T : TokenType) (items : ValidationQueue) (k : string)
  : option ClaimToken :=
  match find (fun item => id item =? k)
             (rev (filter (Validator.has_type T) items)) with
  | Some item => validatedToken item
  | None => None
  end.

(** The state check lets the response through: no state is expected, or
    the payload echoes the expected one. *)
Definition state_passes (expected : IExpectedSiop) (payload : json) : Prop :=
  set_string (state expected) = false
  \/ property payload "state" = Some (JStr (string_or_empty (state expected))).

(** A field of the assembled result groups the validated tokens of type
    [T] by the id of their queue item: absent when the queue has no such
    item, and otherwise a map whose ids are the ids of these items, each
    once, which has at every id the validated token of the last of these
    items with that id, and whose tokens are of type [T]. *)
Definition groups_by_id (T : TokenType) (items : ValidationQueue)
    (field : option (list (string * ClaimToken))) : Prop :=
  match field with
  | None => filter (Validator.has_type T) items = []
  | Some grouped =>
      filter (Validator.has_type T) items <> []
      /\ same_ids grouped (map id (filter (Validator.has_type T) items))
      /\ NoDup (map fst grouped)
      /\ (forall k, lookup k grouped = filed_under T items k)
      /\ (forall k t, In (k, t) grouped -> type t = T)
  end.

(** The [did] that the assembled result falls back to: the audience of the
    first validated credential, and the empty string when that is falsy or
    there is none. *)
Definition fallback_did (items : ValidationQueue) : value :=
  match filter (Validator.has_type verifiableCredential) items with
  | [] => Some (JStr "")
  | item :: _ =>
      match validatedToken item with
      | Some token =>
          if truthy (property (decodedToken token) "aud")
          then property (decodedToken token) "aud"
          else Some (JStr "")
      | None => Some (JStr "")
      end
  end.

(** [vcToValidate.decodedToken?.vc?.credentialStatus?.id] *)
Definition credential_status_url (credential : ClaimToken) : value :=
  get_opt (get_opt (get_opt (Some (decodedToken credential)) "vc")
                   "credentialStatus") "id".

(** [verifiablePresentationToken.decodedToken.vp?.verifiableCredential] *)
Definition presented_credentials (presentation : ClaimToken) : value :=
  get_opt (property (decodedToken presentation) "vp") "verifiableCredential".

(** An entry of the credentials of a presentation that classifies and
    exposes no status URL. *)
Definition without_status_url {R : Runtime} (entry : string * json) : Prop :=
  exists credential,
    create (snd entry) = Ok credential
    /\ truthy (credential_status_url credential) = false.

(** A request of the status check is well-formed for a presentation: it
    goes to the truthy status URL of one of the credentials of the
    presentation, with the signed status request of the presentation as
    its body. *)
Definition status_request_of {R : Runtime} {Net : StatusServices}
    (presentation : ClaimToken) (request : value * string) : Prop :=
  truthy (fst request) = true
  /\ (exists publicKey,
        keyStore_publicKey = Ok publicKey
        /\ sign_request publicKey presentation = Ok (snd request))
  /\ (exists k raw credential,
        In (k, raw) (entries (presented_credentials presentation))
        /\ create raw = Ok credential
        /\ credential_status_url credential = fst request).

(** The requests [sent] are requests for credentials among [vcs], at most
    one for each. *)
Definition sent_for {R : Runtime} {Net : StatusServices} (publicKey : json)
    (presentation : ClaimToken) (vcs : list (string * json))
    (sent : list (value * string)) : Prop :=
  List.length sent <= List.length vcs
  /\ forall request,
       In request sent ->
       truthy (fst request) = true
       /\ sign_request publicKey presentation = Ok (snd request)
       /\ exists k raw credential,
            In (k, raw) vcs
            /\ create raw = Ok credential
            /\ credential_status_url credential = fst request.

(** The SIOP token validator as the [ITokenValidator] that the class
    implements: [isType] is the expected type, and [validate] takes no
    account of a DID or a contract id. *)
Definition siop_token_validator {R : Runtime}
    (siopValidation : json -> res IValidationResponse) (expected : IExpectedSiop)
  : ITokenValidator :=
  {| isType := expected_type expected;
     validator_validate :=
       fun queue queueItem _ _ =>
         SiopTokenValidator.validate siopValidation expected queue queueItem |}.

(** The response with which [validate] ends a successful run. *)
Definition validated (assembled : IValidationResult) : IValidationResponse :=
  {| result := true; status := 200; detailedError := None;
     payloadObject := None; did := None; tokensToValidate := None;
     validationResult := Some assembled |}.

(** ** Further sample inputs *)

(** The inputs at which Part III applies its properties; the services are
    those of [Sample], the decoding being extended by two segments. *)
Module Cases.

(** [{"iss":"https://self-issued.me","presentation_submission":{"descriptor_map":[]},"attestations":{"selfIssued":{"name":"jules"}}}] *)
Definition both_segment : string :=
  "eyJpc3MiOiJodHRwczovL3NlbGYtaXNzdWVkLm1lIiwicHJlc2VudGF0aW9uX3N1Ym1pc3Npb24iOnsiZGVzY3JpcHRvcl9tYXAiOltdfSwiYXR0ZXN0YXRpb25zIjp7InNlbGZJc3N1ZWQiOnsibmFtZSI6Imp1bGVzIn19fQ".
Definition both : json :=
  JObj [("iss", JStr "https://self-issued.me");
        ("presentation_submission", JObj [("descriptor_map", JArr [])]);
        ("attestations", JObj [("selfIssued", JObj [("name", JStr "jules")])])].
Definition both_token : string :=
  Sample.header_segment ++ "." ++ both_segment ++ ".c2ln".

(** [{"iss":"did:test:issuer","aud":"did:test:user","vc":{"credentialSubject":{"givenName":"Jules"},"credentialStatus":{"id":"https://status.example/check"}}}] *)
Definition status_credential_segment : string :=
  "eyJpc3MiOiJkaWQ6dGVzdDppc3N1ZXIiLCJhdWQiOiJkaWQ6dGVzdDp1c2VyIiwidmMiOnsiY3JlZGVudGlhbFN1YmplY3QiOnsiZ2l2ZW5OYW1lIjoiSnVsZXMifSwiY3JlZGVudGlhbFN0YXR1cyI6eyJpZCI6Imh0dHBzOi8vc3RhdHVzLmV4YW1wbGUvY2hlY2sifX19".
Definition status_credential : json :=
  JObj [("iss", JStr "did:test:issuer"); ("aud", JStr "did:test:user");
        ("vc", JObj [("credentialSubject", JObj [("givenName", JStr "Jules")]);
                     ("credentialStatus",
                      JObj [("id", JStr "https://status.example/check")])])].
Definition status_credential_token : string :=
  Sample.header_segment ++ "." ++ status_credential_segment ++ ".c2ln".

Definition parse (segment : string) : res json :=
  if segment =? both_segment then Ok both
  else if segment =? status_credential_segment then Ok status_credential
  else Sample.parse segment.

Definition runtime : Runtime :=
  {| parse_segment := parse;
     jp_query := Sample.query;
     URL_pathname := Sample.pathname;
     decodeURIComponent := Sample.percent_decode |}.

(** Attestations with a self-issued entry and two groups that use the same
    inner key. *)
Definition attestations : json :=
  JObj [("selfIssued", JObj [("name", JStr "jules")]);
        ("idTokens", JObj [("a", JStr Sample.claims_token)]);
        ("presentations", JObj [("a", JStr Sample.presentation_token)])].

Definition presentation_claim_token : ClaimToken :=
  {| _configuration := ""; _rawToken := Sample.presentation_token;
     _type := verifiablePresentation; _decodedToken := Sample.presentation;
     _tokenHeader := Sample.header |}.

(** A presentation-exchange payload whose descriptor selects a token. *)
Definition exchange : json :=
  JObj [("iss", JStr "https://self-issued.me");
        ("presentation_submission",
         JObj [("descriptor_map",
                JArr [JObj [("id", JStr "IdentityCard");
                            ("path", JStr "$.tokens.presentations.DrivingLicense")]])]);
        ("tokens",
         JObj [("presentations",
                JObj [("DrivingLicense", JStr Sample.presentation_token)])])].

(** The payload of a status response with one receipt. *)
Definition receipt_payload : json :=
  JObj [("receipt", JObj [("vc1", JStr Sample.credential_token)])].

(** The caller expects what [Sample.attested_payload] echoes. *)
Definition expected_echo : IExpectedSiop :=
  {| expected_type := siopPresentationAttestation;
     audience := Some "https://verifier.example";
     nonce := Some "n2"; state := Some "s2" |}.

Definition no_expectations : IExpectedSiop :=
  {| expected_type := siopIssuance; audience := None;
     nonce := None; state := None |}.

(** A validated SIOP response one of whose attested tokens has no dot. *)
Definition broken_response : IValidationResponse :=
  {| result := true; status := 200; detailedError := None;
     payloadObject :=
       Some (JObj [("iss", JStr "https://self-issued.me");
                   ("nonce", JStr "n1");
                   ("attestations", JObj [("idTokens", JObj [("a", JStr "garbage")])])]);
     did := Some "did:test:user";
     tokensToValidate := None; validationResult := None |}.

Definition broken_validation (raw : json) : res IValidationResponse :=
  Ok broken_response.

(** A validator that accepts and leaves the queue as it is. *)
Definition accepting (t : TokenType) : ITokenValidator :=
  {| isType := t; validator_validate := fun queue _ _ _ => (Ok success, queue) |}.

Definition credential_builder : ValidatorBuilder :=
  {| tokenValidators := [("verifiableCredential", accepting verifiableCredential)];
     featureVerifiedCredentialsStatusCheckEnabled := false |}.

Definition status_builder : ValidatorBuilder :=
  {| tokenValidators :=
       [("verifiablePresentationStatus", accepting verifiablePresentationStatus)];
     featureVerifiedCredentialsStatusCheckEnabled := false |}.

Definition status_claim_token : ClaimToken :=
  {| _configuration := ""; _rawToken := ""; _type := verifiablePresentationStatus;
     _decodedToken := JObj []; _tokenHeader := JObj [] |}.

Definition status_item : ValidationQueueItem :=
  {| id := "status"; tokenToValidate := JStr ""; claimToken := Some status_claim_token;
     validatedToken := None; validationResponse := None; isValidated := false |}.

Definition status_run : Run :=
  {| queue := [status_item]; tokens := []; siopDid := None;
     siopContractId := None; dispatched := []; requests := [] |}.

Definition issuance_validation (raw : json) : res IValidationResponse :=
  Ok Sample.issuance_response.

Definition issuance_builder : ValidatorBuilder :=
  {| tokenValidators :=
       [("siopIssuance",
         siop_token_validator (R := runtime) issuance_validation no_expectations)];
     featureVerifiedCredentialsStatusCheckEnabled := false |}.

(** The first turn of a run on a presentation. *)
Definition presentation_item : ValidationQueueItem :=
  {| id := "siop"; tokenToValidate := JStr Sample.presentation_token;
     claimToken := None; validatedToken := None; validationResponse := None;
     isValidated := false |}.

Definition presentation_run : Run :=
  {| queue := [presentation_item]; tokens := []; siopDid := None;
     siopContractId := None; dispatched := []; requests := [] |}.

(** A queue after a run on a presentation and its credential. *)
Definition mixed_queue : ValidationQueue :=
  [{| id := "siop"; tokenToValidate := JStr Sample.presentation_token;
      claimToken := None; validatedToken := Some presentation_claim_token;
      validationResponse := Some success; isValidated := true |};
   {| id := "vc"; tokenToValidate := JStr Sample.credential_token;
      claimToken := None; validatedToken := Some Sample.credential_claim_token;
      validationResponse := Some success; isValidated := true |}].

(** A presentation of the credential that has a status URL. *)
Definition status_credential_claim_token : ClaimToken :=
  {| _configuration := ""; _rawToken := status_credential_token;
     _type := verifiableCredential; _decodedToken := status_credential;
     _tokenHeader := Sample.header |}.

Definition status_presentation : ClaimToken :=
  {| _configuration := ""; _rawToken := "presentation-with-status";
     _type := verifiablePresentation;
     _decodedToken :=
       JObj [("iss", JStr "did:test:user"); ("aud", JStr "did:test:verifier");
             ("vp", JObj [("verifiableCredential",
                           JArr [JStr status_credential_token])])];
     _tokenHeader := Sample.header |}.

Definition status_request : value * string :=
  (Some (JStr "https://status.example/check"), "signed").

Definition status_result : IValidationResult :=
  {| vr_did := Some (JStr "did:test:user"); vr_contract := Some (JStr "");
     vr_siopJti := Some (JStr ""); vr_idTokens := None;
     vr_verifiableCredentials := Some [("vc", status_credential_claim_token)];
     vr_verifiablePresentations := Some [("siop", status_presentation)];
     vr_selfIssued := None; vr_siop := None;
     vr_verifiablePresentationStatus := None |}.

End Cases.

(* ================================================================== *)
(** * Part II: properties                                              *)
(* ================================================================== *)

(** ** Strings *)

Lemma blank_trimStart (s : string) : blank (trimStart s) = blank s.
Proof.
  induction s as [|c rest IH]; simpl; [reflexivity|].
  destruct (is_white c) eqn:W; simpl; [exact IH | now rewrite W].
Qed.

Lemma trimStart_empty (s : string) : (trimStart s =? "") = blank s.
Proof.
  induction s as [|c rest IH]; simpl; [reflexivity|].
  destruct (is_white c); simpl; [exact IH | reflexivity].
Qed.

Lemma blank_rev_string (s acc : string) :
  blank (rev_string s acc) = blank s && blank acc.
Proof.
  revert acc; induction s as [|c rest IH]; intros acc; simpl; [reflexivity|].
  rewrite IH; simpl.
  destruct (is_white c), (blank rest), (blank acc); reflexivity.
Qed.

Lemma rev_string_empty (s acc : string) :
  (rev_string s acc =? "") = (s =? "") && (acc =? "").
Proof.
  revert acc; induction s as [|c rest IH]; intros acc; simpl.
  - reflexivity.
  - rewrite IH; simpl. now rewrite andb_false_r.
Qed.

(** [s.trim() === ''] exactly when [s] is blank. *)
Lemma trim_empty (s : string) : (trim s =? "") = blank s.
Proof.
  unfold trim, trimEnd.
  rewrite rev_string_empty, andb_true_r, trimStart_empty, blank_rev_string.
  simpl; rewrite andb_true_r. apply blank_trimStart.
Qed.

Lemma prefix_app (p s : string) : prefix p (p ++ s) = true.
Proof.
  induction p as [|c p IH]; simpl; [now destruct s|].
  destruct (ascii_dec c c) as [_|N]; [exact IH | now destruct N].
Qed.

Lemma prefix_split (p s : string) :
  prefix p s = true -> exists rest, s = p ++ rest.
Proof.
  revert s; induction p as [|c p IH]; intros s H; simpl in *.
  - now exists s.
  - destruct s as [|d s]; [discriminate|]. simpl in H.
    destruct (ascii_dec c d) as [->|_]; [|discriminate].
    destruct (IH _ H) as [rest ->]. now exists rest.
Qed.

Lemma append_assoc (a b c : string) : (a ++ b) ++ c = a ++ (b ++ c).
Proof. induction a as [|x a IH]; simpl; [reflexivity | now rewrite IH]. Qed.

(** [includes] decides [Contains]. *)
Lemma includes_Contains (sub s : string) :
  includes sub s = true <-> Contains s sub.
Proof.
  split.
  - induction s as [|c s IH]; cbn [includes]; intros H.
    + rewrite orb_false_r in H. destruct (prefix_split _ _ H) as [rest E].
      exists "", rest. exact E.
    + apply orb_true_iff in H as [H|H].
      * destruct (prefix_split _ _ H) as [rest E]. exists "", rest. exact E.
      * destruct (IH H) as (before & after & ->).
        exists (String c before), after. reflexivity.
  - intros (before & after & ->).
    induction before as [|c before IH].
    + change ("" ++ sub ++ after) with (sub ++ after).
      destruct (sub ++ after) eqn:E; cbn [includes]; rewrite <- E, prefix_app;
        reflexivity.
    + change (String c before ++ sub ++ after) with (String c (before ++ sub ++ after)).
      cbn [includes]. rewrite IH. apply orb_true_r.
Qed.

Lemma Contains_middle (a sub b : string) : Contains (a ++ sub ++ b) sub.
Proof. now exists a, b. Qed.

Lemma split_nonempty (sep : ascii) (s : string) : split sep s <> [].
Proof.
  destruct s as [|c s]; simpl; [discriminate|].
  destruct (Ascii.eqb c sep); [discriminate|].
  destruct (split sep s); discriminate.
Qed.

(** Splitting distributes over a separator. *)
Lemma split_app (sep : ascii) (a b : string) :
  split sep (a ++ String sep b) = (split sep a ++ split sep b)%list.
Proof.
  induction a as [|c a IH]; simpl.
  - now rewrite Ascii.eqb_refl.
  - rewrite IH. destruct (Ascii.eqb c sep); [reflexivity|].
    destruct (split sep a) eqn:E; [now apply split_nonempty in E|reflexivity].
Qed.

(** A string without the separator is its own only part. *)
Lemma split_free (sep : ascii) (s : string) :
  free_of sep s = true -> split sep s = [s].
Proof.
  induction s as [|c s IH]; simpl; [reflexivity|].
  intros H. apply andb_true_iff in H as [Hc Hs].
  apply negb_true_iff in Hc. rewrite Hc, (IH Hs). reflexivity.
Qed.

(** ** JavaScript values *)

Lemma strict_eq_string_true (s : string) (v : value) :
  strict_eq_string s v = true <-> v = Some (JStr s).
Proof.
  unfold strict_eq_string. destruct v as [[| | |s'| |]|]; try (split; congruence).
  rewrite String.eqb_eq. split; congruence.
Qed.

Lemma get_not_null (j : json) (k : string) :
  j <> JNull -> get (Some j) k = Ok (property j k).
Proof. destruct j; simpl; congruence. Qed.

Lemma truthy_not_null (j : json) : truthy (Some j) = true -> j <> JNull.
Proof. destruct j; simpl; congruence. Qed.

(** ** ClaimToken.create *)

Section Create.
Context {R : Runtime}.

Lemma find_TokenType (t : TokenType) :
  find (fun t' => TokenType_name t' =? TokenType_name t) TokenType_values = Some t.
Proof. destruct t; reflexivity. Qed.

(** The constructor on a raw token whose two first segments parse. *)
Lemma new_ClaimToken_raw (t : TokenType) (raw : string)
    (header_segment payload_segment : string) (after_payload : list string)
    (header payload : json) :
  split "." raw = header_segment :: payload_segment :: after_payload ->
  parse_segment header_segment = Ok header ->
  parse_segment payload_segment = Ok payload ->
  new_ClaimToken (TokenType_name t) (JStr raw) None
  = classified raw header payload (inr t).
Proof.
  intros Hsplit Hheader Hpayload.
  unfold new_ClaimToken, decode. rewrite find_TokenType, Hsplit.
  cbn [List.length Nat.ltb Nat.leb nth]. rewrite Hheader, Hpayload.
  reflexivity.
Qed.

Lemma tokenSignature_signed (raw : string)
    (header_segment payload_segment : string) (after_payload : list string) :
  split "." raw = header_segment :: payload_segment :: after_payload ->
  tokenSignature (JStr raw) = Ok (signed after_payload).
Proof.
  intros Hsplit. unfold tokenSignature, token_split, bind. rewrite Hsplit.
  destruct after_payload as [|signature rest]; cbn [nth_error signed];
    [reflexivity|].
  now rewrite trim_empty.
Qed.

(** C1, as amended: for every compact token whose header and payload
    parse (the payload not being [null]), [ClaimToken.create] classifies by
    the shape rules in their order, where a marker counts when its value is
    truthy: under the SIOP issuer, [contract] gives siopIssuance, else
    [presentation_submission] gives siopPresentationExchange, else
    [attestations] gives siopPresentationAttestation, else creation fails
    with "SIOP was not recognized."; otherwise [vc] gives
    verifiableCredential, [vp] gives verifiablePresentation, a present and
    non-blank third segment gives idToken, and anything else selfIssued. *)
Theorem create_classifies_by_truthy (raw : string)
    (header_segment payload_segment : string) (after_payload : list string)
    (header payload : json) :
  split "." raw = header_segment :: payload_segment :: after_payload ->
  parse_segment header_segment = Ok header ->
  parse_segment payload_segment = Ok payload ->
  payload <> JNull ->
  create (JStr raw)
  = classified raw header payload
      (classification truthy_property payload (signed after_payload)).
Proof.
  intros Hsplit Hheader Hpayload Hnull.
  pose proof (fun t => new_ClaimToken_raw t raw _ _ _ _ _ Hsplit Hheader Hpayload)
    as Hnew.
  unfold create, getTokenPayload, token_split.
  cbn [bind]. rewrite Hsplit. cbn [nth_error]. rewrite Hpayload. cbn [bind].
  rewrite !(get_not_null payload) by exact Hnull. cbn [bind].
  rewrite (tokenSignature_signed _ _ _ _ Hsplit). cbn [bind].
  unfold classification, truthy_property, TOKEN_SI_ISS.
  destruct (strict_eq_string _ (property payload "iss")).
  - destruct (truthy (property payload "contract")); [apply Hnew|].
    destruct (truthy (property payload "presentation_submission")); [apply Hnew|].
    destruct (truthy (property payload "attestations")); [apply Hnew|].
    reflexivity.
  - destruct (truthy (property payload "vc")); [apply Hnew|].
    destruct (truthy (property payload "vp")); [apply Hnew|].
    destruct (signed after_payload); apply Hnew.
Qed.

End Create.

(** An issuance response with a contract is classified siopIssuance. *)
Lemma create_classifies_by_truthy_witness :
  create (R := Sample.runtime) (JStr Sample.issuance_token)
  = Ok {| _configuration := ""; _rawToken := Sample.issuance_token;
          _type := siopIssuance; _decodedToken := Sample.issuance;
          _tokenHeader := Sample.header |}.
Proof.
  apply (create_classifies_by_truthy (R := Sample.runtime) Sample.issuance_token
           Sample.header_segment Sample.issuance_segment ["c2ln"]
           Sample.header Sample.issuance);
    [reflexivity | reflexivity | reflexivity | discriminate].
Defined.

(** C1, as stated, fails: a payload under the SIOP issuer whose [contract]
    is present but empty, next to a presentation submission, is classified
    siopPresentationExchange, where presence of [contract] asks for
    siopIssuance. *)
Lemma create_by_presence_counterexample :
  present Sample.blank_contract "contract" = true
  /\ classification present Sample.blank_contract (signed ["c2ln"])
     = inr siopIssuance
  /\ create (R := Sample.runtime) (JStr Sample.blank_contract_token)
     = Ok {| _configuration := ""; _rawToken := Sample.blank_contract_token;
             _type := siopPresentationExchange;
             _decodedToken := Sample.blank_contract;
             _tokenHeader := Sample.header |}
  /\ ~ create_classifies_by (R := Sample.runtime) present
         Sample.blank_contract_token.
Proof.
  assert (E : create (R := Sample.runtime) (JStr Sample.blank_contract_token)
              = Ok {| _configuration := ""; _rawToken := Sample.blank_contract_token;
                      _type := siopPresentationExchange;
                      _decodedToken := Sample.blank_contract;
                      _tokenHeader := Sample.header |})
    by reflexivity.
  repeat split; try reflexivity.
  intros H.
  specialize (H Sample.header_segment Sample.blank_contract_segment ["c2ln"]
                Sample.header Sample.blank_contract
                eq_refl eq_refl eq_refl ltac:(discriminate)).
  rewrite E in H. discriminate H.
Qed.

(** ** SiopTokenValidator: replay protection *)

Section Replay.
Import SiopTokenValidator.

Lemma failure_rejects_naming (a e b c : string) (v : value) :
  rejects_naming (Ok (failure 403 (a ++ e ++ b ++ template v ++ c))) e v.
Proof.
  exists (failure 403 (a ++ e ++ b ++ template v ++ c)), (a ++ e ++ b ++ template v ++ c).
  repeat split.
  - apply Contains_middle.
  - exists (a ++ e ++ b), c. now rewrite !append_assoc.
Qed.

Lemma strict_eq_string_false (s : string) (v : value) :
  v <> Some (JStr s) -> strict_eq_string s v = false.
Proof.
  intros H. destruct (strict_eq_string s v) eqn:E; [|reflexivity].
  apply strict_eq_string_true in E. contradiction.
Qed.

Lemma set_string_Some (e : string) : e <> "" -> set_string (Some e) = true.
Proof.
  intros H. simpl. apply negb_true_iff, String.eqb_neq. exact H.
Qed.

(** The nonce check of [validateReplayProtection]. *)
Lemma validateReplayProtection_nonce (expected : IExpectedSiop)
    (response : IValidationResponse) (payload : json) (e : string) :
  payloadObject response = Some payload -> payload <> JNull ->
  nonce expected = Some e -> e <> "" ->
  property payload "nonce" <> Some (JStr e) ->
  validateReplayProtection expected response
  = Ok (failure 403 ("Expect nonce '" ++ e ++ "' does not match '"
                       ++ template (property payload "nonce") ++ "'.")).
Proof.
  intros Hpayload Hnull Hnonce He Hdiff.
  unfold validateReplayProtection.
  rewrite Hnonce, (set_string_Some e He), Hpayload, (get_not_null _ _ Hnull).
  cbn [bind string_or_empty]. rewrite (strict_eq_string_false _ _ Hdiff).
  reflexivity.
Qed.

(** The state check, reached when the nonce check passes. *)
Lemma validateReplayProtection_state (expected : IExpectedSiop)
    (response : IValidationResponse) (payload : json) (e : string) :
  payloadObject response = Some payload -> payload <> JNull ->
  nonce_passes expected payload ->
  state expected = Some e -> e <> "" ->
  property payload "state" <> Some (JStr e) ->
  validateReplayProtection expected response
  = Ok (failure 403 ("Expect state '" ++ e ++ "' does not match '"
                       ++ template (property payload "state") ++ "'.")).
Proof.
  intros Hpayload Hnull Hpass Hstate He Hdiff.
  unfold validateReplayProtection.
  rewrite Hstate, (set_string_Some e He), Hpayload, !(get_not_null _ _ Hnull).
  cbn [string_or_empty].
  assert (Hnone :
            (if set_string (nonce expected)
             then bind (Ok (property payload "nonce"))
                    (fun actual =>
                       if negb (strict_eq_string (string_or_empty (nonce expected)) actual)
                       then Ok (Some (failure 403
                                        ("Expect nonce '" ++ string_or_empty (nonce expected)
                                           ++ "' does not match '" ++ template actual ++ "'.")))
                       else Ok None)
             else Ok None) = Ok None).
  { destruct Hpass as [Hunset|Hecho].
    - now rewrite Hunset.
    - destruct (set_string (nonce expected)); [|reflexivity].
      cbn [bind]. apply strict_eq_string_true in Hecho. now rewrite Hecho. }
  rewrite Hnone. cbn [bind]. rewrite (strict_eq_string_false _ _ Hdiff).
  reflexivity.
Qed.

(** On a response without a payload, as the [catch] branches of [getTokens]
    build it, the replay check throws as soon as a nonce is expected. *)
Lemma validateReplayProtection_without_payload (expected : IExpectedSiop)
    (response : IValidationResponse) :
  payloadObject response = None ->
  set_string (nonce expected) = true ->
  validateReplayProtection expected response
  = Throw (TypeError "Cannot read property 'nonce' of undefined").
Proof.
  intros Hnone Hset. unfold validateReplayProtection.
  now rewrite Hset, Hnone.
Qed.

(** Without expectations the replay check lets every response through. *)
Lemma validateReplayProtection_unset (expected : IExpectedSiop)
    (response : IValidationResponse) :
  set_string (nonce expected) = false ->
  set_string (state expected) = false ->
  validateReplayProtection expected response = Ok response.
Proof.
  intros Hnonce Hstate. unfold validateReplayProtection.
  now rewrite Hnonce, Hstate.
Qed.

(** C3, as amended: on a response that carries the payload, when the
    expected nonce is a non-empty string and the payload's nonce is not that
    string, the replay check answers result=false, status 403, with a
    detailed error that contains the expected and the actual nonce; when the
    expected state is a non-empty string, the payload's state is not that
    string and the nonce check passes (no nonce expected, or the nonce
    echoed), it answers result=false, status 403, with a detailed error that
    contains the expected and the actual state. *)
Theorem validateReplayProtection_rejects (expected : IExpectedSiop)
    (response : IValidationResponse) (payload : json) :
  payloadObject response = Some payload -> payload <> JNull ->
  (forall e, nonce expected = Some e -> e <> "" ->
             property payload "nonce" <> Some (JStr e) ->
             rejects_naming (validateReplayProtection expected response)
                            e (property payload "nonce"))
  /\ (forall e, state expected = Some e -> e <> "" ->
                nonce_passes expected payload ->
                property payload "state" <> Some (JStr e) ->
                rejects_naming (validateReplayProtection expected response)
                               e (property payload "state")).
Proof.
  intros Hpayload Hnull. split.
  - intros e Hnonce He Hdiff.
    rewrite (validateReplayProtection_nonce _ _ _ _ Hpayload Hnull Hnonce He Hdiff).
    apply failure_rejects_naming.
  - intros e Hstate He Hpass Hdiff.
    rewrite (validateReplayProtection_state _ _ _ _ Hpayload Hnull Hpass Hstate He Hdiff).
    apply failure_rejects_naming.
Qed.

End Replay.

(** The nonce [n1] is expected and the payload echoes [n2]: the answer is
    the 403 that names both. *)
Lemma validateReplayProtection_rejects_witness :
  rejects_naming
    (SiopTokenValidator.validateReplayProtection
       Sample.expected_replay Sample.attested_response)
    "n1" (Some (JStr "n2")).
Proof.
  apply (proj1 (validateReplayProtection_rejects Sample.expected_replay
                  Sample.attested_response Sample.attested_payload
                  eq_refl ltac:(discriminate))
           "n1" eq_refl);
    discriminate.
Defined.

(** C3, as stated, fails for the state: when the nonce and the state both
    differ from the expected ones, the answer reports the nonce only, and
    its detailed error does not contain the expected state. *)
Lemma replay_reports_mismatch_counterexample :
  SiopTokenValidator.validateReplayProtection
    Sample.expected_replay Sample.attested_response
  = Ok (failure 403 "Expect nonce 'n1' does not match 'n2'.")
  /\ ~ replay_reports_mismatch Sample.expected_replay Sample.attested_response
         Sample.attested_payload.
Proof.
  split; [reflexivity|].
  intros [_ Hstate].
  destruct (Hstate "s1" eq_refl ltac:(discriminate))
    as (response & text & Hanswer & _ & _ & Htext & Hexpected & _).
  change (SiopTokenValidator.validateReplayProtection
            Sample.expected_replay Sample.attested_response)
    with (Ok (failure 403 "Expect nonce 'n1' does not match 'n2'.")) in Hanswer.
  injection Hanswer as <-. injection Htext as <-.
  apply includes_Contains in Hexpected. discriminate Hexpected.
Qed.

(** ** SiopTokenValidator: fan-out *)

Section FanOut.
Import SiopTokenValidator.
Context {R : Runtime}.
Variable siopValidation : json -> res IValidationResponse.
Variable expected : IExpectedSiop.

Lemma enqueue_all_app (tokens : list (string * ClaimToken)) (queue : ValidationQueue) :
  enqueue_all tokens queue = (queue ++ map child_item tokens)%list.
Proof.
  unfold enqueue_all. revert queue.
  induction tokens as [|entry rest IH]; intros queue; simpl.
  - now rewrite app_nil_r.
  - rewrite IH. unfold enqueueItem. rewrite <- app_assoc. reflexivity.
Qed.

(** The [catch] branches are the only source of a caught response: child
    extraction threw, and the response carries the message. *)
Lemma extract_tokens_caught (response caught : IValidationResponse) :
  extract_tokens response = Ok (Caught caught) ->
  exists err,
    caught = failure 403 (message err)
    /\ ((exists attestations, getClaimTokensFromAttestations attestations = Throw err)
        \/ getClaimTokensFromPresentationExchange (payloadObject response) = Throw err).
Proof.
  unfold extract_tokens, siop_flavour.
  destruct (get (payloadObject response) ATTESTATIONS) as [attestations|e];
    cbn [bind]; [|discriminate].
  destruct (truthy attestations) eqn:Ha; cbn [bind].
  - destruct (getClaimTokensFromAttestations attestations) as [tokens|err] eqn:E;
      intros H; inversion H; subst.
    exists err. split; [reflexivity|]. left. now exists attestations.
  - destruct (get (payloadObject response) PRESENTATION_SUBMISSION) as [submission|e];
      cbn [bind]; [|discriminate].
    destruct (truthy submission); cbn [bind]; [|discriminate].
    destruct (getClaimTokensFromPresentationExchange (payloadObject response))
      as [tokens|err] eqn:E; intros H; inversion H; subst.
    exists err. split; [reflexivity|]. now right.
Qed.

(** C2, as amended: when the validation of the SIOP itself fails, or the
    extraction of its child tokens throws, the validator appends nothing to
    the queue; otherwise the children are appended to the queue first and
    the replay check is applied afterwards, so that the children are in the
    queue whatever the replay check answers. *)
Theorem validate_fans_out_before_replay (queue : ValidationQueue)
    (queueItem : ValidationQueueItem) (response : IValidationResponse) :
  siopValidation (tokenToValidate queueItem) = Ok response ->
  (result response = false ->
   snd (validate siopValidation expected queue queueItem) = queue)
  /\ (forall caught,
         result response = true ->
         extract_tokens response = Ok (Caught caught) ->
         validate siopValidation expected queue queueItem
         = (validateReplayProtection expected caught, queue))
  /\ (forall extracted,
         result response = true ->
         extract_tokens response = Ok (Extracted extracted) ->
         validate siopValidation expected queue queueItem
         = (validateReplayProtection expected extracted,
            (queue ++ map child_item (tokens_of extracted))%list)).
Proof.
  intros Hvalid. unfold validate. rewrite Hvalid. repeat split.
  - intros Hfailed. now rewrite Hfailed.
  - intros caught Hok Hcaught. rewrite Hok. unfold getTokens. now rewrite Hcaught.
  - intros extracted Hok Hextracted. rewrite Hok. unfold getTokens, tokens_of.
    rewrite Hextracted. cbn [bind].
    destruct (tokensToValidate extracted) as [tokens|].
    + now rewrite enqueue_all_app.
    + cbn [map]. now rewrite app_nil_r.
Qed.

Lemma extract_tokens_payload (response extracted : IValidationResponse) :
  extract_tokens response = Ok (Extracted extracted) ->
  payloadObject extracted = payloadObject response.
Proof.
  unfold extract_tokens, siop_flavour.
  destruct (get (payloadObject response) ATTESTATIONS) as [attestations|e];
    cbn [bind]; [|discriminate].
  destruct (truthy attestations); cbn [bind].
  - destruct (getClaimTokensFromAttestations attestations);
      intros H; inversion H; reflexivity.
  - destruct (get (payloadObject response) PRESENTATION_SUBMISSION) as [submission|e];
      cbn [bind]; [|discriminate].
    destruct (truthy submission); cbn [bind].
    + destruct (getClaimTokensFromPresentationExchange (payloadObject response));
        intros H; inversion H; reflexivity.
    + intros H; inversion H; reflexivity.
Qed.

(** A SIOP that passes its own validation and whose children are extracted
    is rejected by [validate] when it echoes a nonce that is not the
    expected one. *)
Lemma validate_rejects_nonce (queue : ValidationQueue)
    (queueItem : ValidationQueueItem) (response extracted : IValidationResponse)
    (payload : json) (e : string) :
  siopValidation (tokenToValidate queueItem) = Ok response ->
  result response = true ->
  extract_tokens response = Ok (Extracted extracted) ->
  payloadObject response = Some payload -> payload <> JNull ->
  nonce expected = Some e -> e <> "" ->
  property payload "nonce" <> Some (JStr e) ->
  fst (validate siopValidation expected queue queueItem)
  = Ok (failure 403 ("Expect nonce '" ++ e ++ "' does not match '"
                       ++ template (property payload "nonce") ++ "'.")).
Proof.
  intros Hvalid Hok Hextracted Hpayload Hnull Hnonce He Hdiff.
  unfold validate. rewrite Hvalid, Hok. unfold getTokens. rewrite Hextracted.
  cbn [fst bind].
  apply (validateReplayProtection_nonce expected extracted payload e); try assumption.
  now rewrite (extract_tokens_payload _ _ Hextracted).
Qed.

End FanOut.

(** The SIOP echoes the nonce [n2] where [n1] is expected: the answer is
    the 403 of the replay check, and the self-issued child is in the queue. *)
Lemma validate_fans_out_before_replay_witness :
  SiopTokenValidator.validate (R := Sample.runtime) Sample.siopValidation
    Sample.expected_replay [Sample.siop_item] Sample.siop_item
  = (Ok (failure 403 "Expect nonce 'n1' does not match 'n2'."),
     [Sample.siop_item; child_item ("selfIssued", Sample.selfIssued_token)]).
Proof.
  apply (proj2 (proj2 (validate_fans_out_before_replay (R := Sample.runtime)
                         Sample.siopValidation Sample.expected_replay
                         [Sample.siop_item] Sample.siop_item
                         Sample.attested_response eq_refl))
           (with_tokens Sample.attested_response
                        [("selfIssued", Sample.selfIssued_token)]));
    reflexivity.
Defined.

(** C2, as stated, fails: the SIOP that echoes a wrong nonce is rejected by
    the replay check after its child has been appended to the queue. *)
Lemma failure_leaves_queue_counterexample :
  ~ failure_leaves_queue (R := Sample.runtime) Sample.siopValidation
      Sample.expected_replay [Sample.siop_item] Sample.siop_item.
Proof.
  intros H.
  specialize (H (failure 403 "Expect nonce 'n1' does not match 'n2'.")
                [Sample.siop_item; child_item ("selfIssued", Sample.selfIssued_token)]
                eq_refl eq_refl).
  discriminate H.
Qed.

(** ** ClaimToken: extraction from a presentation-exchange payload *)

Section PresentationExchange.
Context {R : Runtime}.

Lemma for_each_app {A B : Type} (body : A -> B -> res B) (l1 l2 : list A) (acc : B) :
  for_each body (l1 ++ l2) acc
  = bind (for_each body l1 acc) (for_each body l2).
Proof.
  revert acc; induction l1 as [|x l1 IH]; intros acc; simpl; [reflexivity|].
  destruct (body x acc) as [acc'|e]; simpl; [apply IH | reflexivity].
Qed.

(** Extraction, once the descriptors before [item] have been processed. *)
Lemma extraction_reaches (payload : value) (before after : list json) (item : json)
    (acc : list (string * ClaimToken)) :
  jp_query payload descriptor_map_path = Ok (before ++ item :: after)%list ->
  for_each (descriptor_step payload) before [] = Ok acc ->
  getClaimTokensFromPresentationExchange payload
  = bind (descriptor_step payload item acc) (for_each (descriptor_step payload) after).
Proof.
  intros Hmap Hbefore. unfold getClaimTokensFromPresentationExchange.
  fold descriptor_map_path. rewrite Hmap. cbn [bind].
  rewrite for_each_app, Hbefore. reflexivity.
Qed.

Lemma descriptor_error_names (item : json) (tail : string) :
  Contains (message (descriptor_error item tail)) (template (property item "id")).
Proof. unfold descriptor_error, message. apply Contains_middle. Qed.

Lemma descriptor_error_ends (item : json) (tail : string) :
  EndsWith (message (descriptor_error item tail)) tail.
Proof.
  unfold descriptor_error, message.
  exists ("The SIOP presentation exchange response has descriptor_map with id '"
            ++ template (property item "id") ++ "'. ").
  now rewrite !append_assoc.
Qed.

Lemma Contains_app_r (a s sub : string) : Contains s sub -> Contains (a ++ s) sub.
Proof.
  intros (before & after & ->). exists (a ++ before), after.
  now rewrite append_assoc.
Qed.

Lemma Contains_String (c : ascii) (s sub : string) :
  Contains s sub -> Contains (String c s) sub.
Proof. apply (Contains_app_r (String c "")). Qed.

(** Finds a literal inside a text built by appending. *)
Ltac find_literal :=
  repeat first
    [ solve [apply includes_Contains; reflexivity]
    | apply Contains_app_r
    | apply Contains_String ].

(** A falsy entry of the descriptor map is passed over. *)
Lemma descriptor_step_falsy (payload : value) (item : json)
    (acc : list (string * ClaimToken)) :
  truthy (Some item) = false -> descriptor_step payload item acc = Ok acc.
Proof. intros H. unfold descriptor_step. now rewrite H. Qed.

(** C4, as amended: extraction reads the descriptor map by a JSON-path
    query against the payload and treats its entries in order; for a truthy
    entry that is reached, a missing id fails; with an id, a missing path
    fails with a message that names the id and ends with "No path property
    found."; a path, resolved as a JSON-path query against the payload,
    that selects nothing fails with a message that names the id and says
    that the path did not return a token; a path that selects more than one
    value fails with a message that names the id and says that it points to
    multiple credentials; a path that selects one value that is not a
    string adds no token and does not fail; and a path that selects one
    string adds the token created from it under the id. *)
Theorem descriptor_outcomes (payload : value) (before after : list json)
    (item : json) (acc : list (string * ClaimToken)) :
  jp_query payload descriptor_map_path = Ok (before ++ item :: after)%list ->
  for_each (descriptor_step payload) before [] = Ok acc ->
  truthy (Some item) = true ->
  (truthy (property item "id") = false ->
   getClaimTokensFromPresentationExchange payload
   = Throw (Error "The SIOP presentation exchange response has descriptor_map without id property"))
  /\ (truthy (property item "id") = true ->
      truthy (property item "path") = false ->
      exists text,
        getClaimTokensFromPresentationExchange payload = Throw (Error text)
        /\ Contains text (template (property item "id"))
        /\ EndsWith text "No path property found.")
  /\ (truthy (property item "id") = true ->
      truthy (property item "path") = true ->
      jp_query payload (property item "path") = Ok [] ->
      fails_naming payload (property item "id") "did not return a token")
  /\ (forall one two more,
         truthy (property item "id") = true ->
         truthy (property item "path") = true ->
         jp_query payload (property item "path") = Ok (one :: two :: more) ->
         fails_naming payload (property item "id") "points to multiple credentails")
  /\ (forall found,
         truthy (property item "id") = true ->
         truthy (property item "path") = true ->
         jp_query payload (property item "path") = Ok [found] ->
         one_string [found] = false ->
         getClaimTokensFromPresentationExchange payload
         = for_each (descriptor_step payload) after acc)
  /\ (forall foundToken,
         truthy (property item "id") = true ->
         truthy (property item "path") = true ->
         jp_query payload (property item "path") = Ok [JStr foundToken] ->
         getClaimTokensFromPresentationExchange payload
         = bind (create (JStr foundToken))
             (fun claimToken =>
                for_each (descriptor_step payload) after
                  (assign (template (property item "id")) claimToken acc))).
Proof.
  intros Hmap Hbefore Hitem. unfold fails_naming.
  rewrite (extraction_reaches _ _ _ _ _ Hmap Hbefore).
  unfold descriptor_step. rewrite Hitem.
  repeat split.
  - intros Hid. now rewrite Hid.
  - intros Hid Hpath. rewrite Hid, Hpath. cbn [negb bind].
    eexists. split; [reflexivity|]. split.
    + apply descriptor_error_names.
    + apply descriptor_error_ends.
  - intros Hid Hpath Hnone. rewrite Hid, Hpath, Hnone. cbn [negb bind].
    eexists. split; [reflexivity|]. split.
    + apply descriptor_error_names.
    + find_literal.
  - intros one two more Hid Hpath Hmany. rewrite Hid, Hpath, Hmany. cbn [negb bind].
    destruct one; (eexists; split; [reflexivity|]; split;
      [ apply descriptor_error_names | find_literal ]).
  - intros found Hid Hpath Hone Hother. rewrite Hid, Hpath, Hone. cbn [negb bind].
    destruct found; try reflexivity. discriminate Hother.
  - intros foundToken Hid Hpath Hone. rewrite Hid, Hpath, Hone. cbn [negb bind].
    destruct (create (JStr foundToken)); reflexivity.
Qed.

End PresentationExchange.

(** The first descriptor has lost its path: extraction fails with the
    message that names the descriptor and ends as stated. *)
Lemma descriptor_outcomes_witness :
  exists text,
    getClaimTokensFromPresentationExchange (R := Sample.runtime)
      (Some Sample.pathless_payload) = Throw (Error text)
    /\ Contains text "IdentityCard"
    /\ EndsWith text "No path property found.".
Proof.
  apply (proj1 (proj2 (descriptor_outcomes (R := Sample.runtime)
                         (Some Sample.pathless_payload) [] []
                         (JObj [("id", JStr "IdentityCard")]) []
                         eq_refl eq_refl eq_refl)));
    reflexivity.
Defined.

(** C4, as stated, fails: a path that selects one value that is not a
    string is passed over, and extraction succeeds with no token. *)
Lemma requires_one_string_counterexample :
  getClaimTokensFromPresentationExchange (R := Sample.runtime)
    (Some Sample.object_path_payload) = Ok []
  /\ ~ requires_one_string (R := Sample.runtime) (Some Sample.object_path_payload).
Proof.
  split; [reflexivity|].
  intros H.
  destruct (H [JObj [("id", JStr "IdentityCard");
                     ("path", JStr "$.tokens.presentations")]]
              (JObj [("id", JStr "IdentityCard");
                     ("path", JStr "$.tokens.presentations")])
              [JObj [("DrivingLicense", JStr Sample.claims_token)]]
              eq_refl (or_introl eq_refl) eq_refl eq_refl) as [e He].
  discriminate He.
Qed.

(** ** Validator: the assembled result *)

(** For the two flavours that [isSiop] knows, the result takes the DID from
    the response of the SIOP item at the head of the queue and the contract
    and jti from its payload. *)
Lemma setValidationResult_reads_siop (siop : ValidationQueueItem)
    (rest : ValidationQueue) (response : IValidationResponse)
    (payload : json) (d : string) :
  Validator.isSiop (Validator.validated_type siop) = true ->
  filter (fun item => Validator.isSiop (Validator.validated_type item)) rest = [] ->
  validationResponse siop = Some response ->
  did response = Some d -> d <> "" ->
  payloadObject response = Some payload -> payload <> JNull ->
  exists r,
    Validator.setValidationResult (siop :: rest) = Ok r
    /\ vr_did r = Some (JStr d)
    /\ vr_contract r = (if truthy (property payload "contract")
                        then property payload "contract" else Some (JStr ""))
    /\ vr_siopJti r = (match property payload "jti" with
                       | None | Some JNull => Some (JStr "")
                       | Some jti => Some jti
                       end).
Proof.
  intros Hsiop Hrest Hresponse Hdid Hd Hpayload Hnull.
  unfold Validator.setValidationResult.
  cbn [filter]. rewrite Hsiop, Hrest.
  cbn [Validator.map_res bind]. unfold Validator.response_did, Validator.response_payload.
  rewrite Hresponse, Hdid, Hpayload, !(get_not_null _ _ Hnull).
  cbn [bind option_map Validator.first truthy].
  assert (Ht : negb (d =? "") = true) by now apply negb_true_iff, String.eqb_neq.
  rewrite Ht. cbn [negb bind].
  eexists. split; [reflexivity|]. cbn. rewrite Ht. repeat split.
Qed.

(** C5: at the queue of a presentation-exchange SIOP whose response
    carries the DID [did:test:user] and whose payload carries the jti
    [jti-1], the assembled result has the empty string for [did],
    [contract] and [siopJti] and no [siop]: [isSiop] does not know the
    presentation-exchange flavour, so the result is not assembled from the
    SIOP item. *)
Theorem setValidationResult_ignores_presentation_exchange :
  Validator.setValidationResult Sample.exchange_queue = Ok Sample.empty_result
  /\ did Sample.exchange_response = Some "did:test:user"
  /\ get_opt (payloadObject Sample.exchange_response) "jti" = Some (JStr "jti-1")
  /\ ~ assembled_from_siop Sample.exchange_response Sample.empty_result.
Proof.
  repeat split; try reflexivity.
  intros [Hdid _]. discriminate Hdid.
Qed.

(** The issuance flavour at the same queue is assembled from the SIOP item. *)
Lemma setValidationResult_issuance :
  exists r,
    Validator.setValidationResult Sample.issuance_queue = Ok r
    /\ assembled_from_siop Sample.issuance_response r.
Proof.
  eexists. split; [reflexivity|]. repeat split.
Qed.

(** ** Validator.readContractId *)

Section ReadContractId.
Context {R : Runtime}.

Lemma last_split (before segment : string) :
  free_of "/" segment = true ->
  last (split "/" (before ++ "/" ++ segment)) "" = segment.
Proof.
  intros Hfree.
  change (before ++ "/" ++ segment) with (before ++ String "/" segment).
  rewrite split_app, (split_free _ _ Hfree). apply last_last.
Qed.

(** C6, as amended: [readContractId] URL-parses its argument and returns,
    URL-decoded, the text after the last slash of the path; when the path
    ends in a slash that text is empty. *)
Theorem readContractId_last_segment (url : value) (before segment : string) :
  URL_pathname url = Ok (before ++ "/" ++ segment) ->
  free_of "/" segment = true ->
  Validator.readContractId url = decodeURIComponent segment.
Proof.
  intros Hpath Hfree. unfold Validator.readContractId.
  rewrite Hpath. cbn [bind]. unfold Validator.path_separator.
  now rewrite (last_split _ _ Hfree).
Qed.

End ReadContractId.

(** The contract id is the decoded last segment. *)
Lemma readContractId_last_segment_witness :
  Validator.readContractId (R := Sample.runtime)
    (Some (JStr "https://issuer.example/v1.0/contracts/Driving%20License"))
  = Ok "Driving License".
Proof.
  apply (readContractId_last_segment (R := Sample.runtime)
           (Some (JStr "https://issuer.example/v1.0/contracts/Driving%20License"))
           "/v1.0/contracts" "Driving%20License");
    reflexivity.
Defined.

(** C6, as stated, fails: with a trailing slash the contract id is the
    empty string, not the last non-empty segment, whereas without it the
    segment is returned. *)
Lemma reads_last_nonempty_segment_counterexample :
  Validator.readContractId (R := Sample.runtime)
    (Some (JStr "https://issuer.example/v1.0/contracts/DrivingLicense/")) = Ok ""
  /\ Validator.readContractId (R := Sample.runtime)
       (Some (JStr "https://issuer.example/v1.0/contracts/DrivingLicense"))
     = Ok "DrivingLicense"
  /\ last_nonempty_segment "/v1.0/contracts/DrivingLicense/" = "DrivingLicense"
  /\ ~ reads_last_nonempty_segment (R := Sample.runtime)
         (Some (JStr "https://issuer.example/v1.0/contracts/DrivingLicense/")).
Proof.
  repeat split; try reflexivity.
  intros H. specialize (H "/v1.0/contracts/DrivingLicense/" eq_refl).
  discriminate H.
Qed.

(** ** Validator.validate: a token type without a validator *)

Section MissingValidator.
Context {R : Runtime} {Net : StatusServices}.
Variable builder : ValidatorBuilder.

(** The turn of the loop for such a token returns at once. *)
Lemma validate_step_without_validator (run : Run) (pos : nat)
    (queueItem : ValidationQueueItem) (claimToken : ClaimToken) :
  Validator.getClaimToken queueItem = Ok claimToken ->
  lookup (TokenType_name (type claimToken)) (tokenValidators builder) = None ->
  Validator.validate_step builder run pos queueItem
  = Validator.Return
      (Ok (failure 500 (TokenType_name (type claimToken)
                          ++ " does not has a TokenValidator")))
      (with_token run claimToken).
Proof.
  intros Htoken Hnone. unfold Validator.validate_step.
  now rewrite Htoken, Hnone.
Qed.

(** C7: when the item taken from the queue is classified with a type for
    which no validator is registered, the loop of [validate] returns, in
    that turn, result=false with status 500 and the detailed error
    "<type> does not has a TokenValidator"; the claim token has been
    recorded, but no item has been handed to a validator, the queue is as
    it was (so neither this item nor a later one is validated) and no
    request has been sent. *)
Theorem validate_without_validator (fuel : nat) (run : Run) (pos : nat)
    (queueItem : ValidationQueueItem) (claimToken : ClaimToken) :
  Validator.getClaimToken queueItem = Ok claimToken ->
  lookup (TokenType_name (type claimToken)) (tokenValidators builder) = None ->
  exists run',
    Validator.validate_loop builder (S fuel) run pos queueItem
    = Some (Ok {| result := false; status := 500;
                  detailedError :=
                    Some (TokenType_name (type claimToken)
                            ++ " does not has a TokenValidator");
                  payloadObject := None; did := None; tokensToValidate := None;
                  validationResult := None |}, run')
    /\ dispatched run' = dispatched run
    /\ queue run' = queue run
    /\ requests run' = requests run.
Proof.
  intros Htoken Hnone. exists (with_token run claimToken).
  cbn [Validator.validate_loop].
  rewrite (validate_step_without_validator _ _ _ _ Htoken Hnone).
  repeat split.
Qed.

End MissingValidator.

(** A credential is taken from the queue and only presentations have a
    validator. *)
Lemma validate_without_validator_witness :
  exists run',
    Validator.validate_loop (R := Sample.runtime) (Net := Sample.services)
      (Sample.builder false) 1 Sample.empty_run 0 Sample.credential_item
    = Some (Ok (failure 500 "verifiableCredential does not has a TokenValidator"),
            run')
    /\ dispatched run' = []
    /\ queue run' = [Sample.credential_item]
    /\ requests run' = [].
Proof.
  apply (validate_without_validator (R := Sample.runtime) (Net := Sample.services)
           (Sample.builder false) 0 Sample.empty_run 0 Sample.credential_item
           Sample.credential_claim_token);
    reflexivity.
Defined.

(** A whole run: the presentation is validated and enqueues its credential,
    which has no validator; the run ends with the 500 response, and the
    presentation is the only item that was handed to a validator. *)
Lemma validate_presentation_without_credential_validator :
  exists run,
    Validator.validate (R := Sample.runtime) (Net := Sample.services)
      (Sample.builder false) 2 [] (JStr Sample.presentation_token)
    = Some (Ok (failure 500 "verifiableCredential does not has a TokenValidator"),
            run)
    /\ dispatched run = ["siop"]
    /\ map isValidated (queue run) = [true; false].
Proof.
  eexists. split; [vm_compute; reflexivity|]. split; reflexivity.
Qed.

(** ** ClaimToken: what an operation may change *)

Section Instances.
Local Open Scope list_scope.

Lemma nth_error_end {A : Type} (l : list A) (x : A) :
  nth_error (l ++ [x]) (List.length l) = Some x.
Proof. induction l as [|y l IH]; [reflexivity|exact IH]. Qed.

(** Parsing adds to the store and leaves the objects in it alone; the
    value it gives reads as the parsed tree, and is new when an object. *)
Lemma parsed_extends (s s' : Store.store) (j : json) (x : Store.held) :
  Store.parsed s j = (s', x) ->
  (exists extra, s' = s ++ extra)
  /\ Store.read s' x = Some j
  /\ (forall r, x = Store.object r -> List.length s <= r).
Proof.
  destruct j; cbn [Store.parsed]; intros H; injection H as <- <-;
    try (split; [exists []; now rewrite app_nil_r|];
         split; [reflexivity|]; intros r; discriminate).
  - split; [now eexists|]. split.
    + cbn [Store.read]. now rewrite nth_error_end.
    + intros r E. injection E as <-. lia.
  - split; [now eexists|]. split.
    + cbn [Store.read]. now rewrite nth_error_end.
    + intros r E. injection E as <-. lia.
Qed.

Lemma read_extends (s extra : Store.store) (x : Store.held) (j : json) :
  Store.read s x = Some j -> Store.read (s ++ extra) x = Some j.
Proof.
  destruct x; cbn [Store.read]; try exact (fun H => H).
  destruct (nth_error s r) as [c|] eqn:E; [|discriminate].
  intros H. rewrite nth_error_app1; [now rewrite E|].
  apply nth_error_Some. now rewrite E.
Qed.

Lemma nth_error_replace (r r' : Store.ref) (c : Store.content)
    (s : Store.store) :
  r <> r' -> nth_error (Store.replace r c s) r' = nth_error s r'.
Proof.
  revert r r'. induction s as [|old s IH]; intros [|r] [|r'] H; simpl;
    try reflexivity; try contradiction.
  apply IH. congruence.
Qed.

(** A change of an object made before [n] leaves a value alone that is
    not an object made before [n]. *)
Lemma read_replace (n r : nat) (c : Store.content) (s : Store.store)
    (x : Store.held) :
  r < n ->
  (forall r', x = Store.object r' -> n <= r') ->
  Store.read (Store.replace r c s) x = Store.read s x.
Proof.
  intros Hr Hx. destruct x as [| | | | |r']; try reflexivity.
  cbn [Store.read]. rewrite nth_error_replace; [reflexivity|].
  specialize (Hx r' eq_refl). lia.
Qed.

Section Constructed.
Context {R : Runtime}.

Lemma decode_extends (s s' : Store.store) (raw : string)
    (header payload : Store.held) :
  Store.decode s raw = Ok (s', (header, payload)) ->
  (exists extra, s' = s ++ extra)
  /\ (forall r, header = Store.object r -> List.length s <= r)
  /\ (forall r, payload = Store.object r -> List.length s <= r)
  /\ exists h p,
       decode raw = Ok (h, p)
       /\ Store.read s' header = Some h /\ Store.read s' payload = Some p.
Proof.
  unfold Store.decode, decode.
  destruct (List.length (split "." raw) <? 2)%nat; [discriminate|].
  destruct (parse_segment (nth 0 (split "." raw) "")) as [h|e]; cbn [bind];
    [|discriminate].
  destruct (Store.parsed s h) as [s1 x1] eqn:E1.
  destruct (parse_segment (nth 1 (split "." raw) "")) as [p|e]; cbn [bind];
    [|discriminate].
  destruct (Store.parsed s1 p) as [s2 x2] eqn:E2.
  intros H. injection H as <- <- <-.
  destruct (parsed_extends _ _ _ _ E1) as ([extra1 ->] & Hread1 & Hnew1).
  destruct (parsed_extends _ _ _ _ E2) as ([extra2 ->] & Hread2 & Hnew2).
  split; [exists (extra1 ++ extra2); now rewrite app_assoc|].
  split; [exact Hnew1|]. split.
  - intros r E. specialize (Hnew2 r E). rewrite length_app in Hnew2. lia.
  - exists h, p. split; [reflexivity|]. split; [|exact Hread2].
    now apply read_extends.
Qed.

(** What the constructor leaves: the store it found, extended; a header
    that is a new object; a payload that is a new object when the token is
    a string, and the token itself when it is not. *)
Lemma new_ClaimToken_holds (made s : Store.store) (typeName : string)
    (token : Store.held) (config : option string) (t : Store.instance) :
  Store.new_ClaimToken made typeName token config = Ok (s, t) ->
  (exists extra, s = made ++ extra)
  /\ (forall r, Store.this_tokenHeader t = Store.object r -> List.length made <= r)
  /\ (forall r, Store.this_decodedToken t = Store.object r ->
                token = Store.object r \/ List.length made <= r)
  /\ ((forall raw, token <> Store.text raw) -> Store.this_decodedToken t = token).
Proof.
  unfold Store.new_ClaimToken. cbn [Store.parsed].
  destruct (find _ TokenType_values) as [T|]; [|discriminate].
  assert (Hother :
    Ok (A := Store.store * Store.instance)
       ((made ++ [Store.record []]) ++ [Store.record []],
        {| Store.this_configuration :=
             match config with Some c => c | None => "" end;
           Store.this_rawToken := "";
           Store.this_type := T;
           Store.this_decodedToken := token;
           Store.this_tokenHeader :=
             Store.object (List.length (made ++ [Store.record []])) |})
    = Ok (s, t) ->
    (exists extra, s = made ++ extra)
    /\ (forall r, Store.this_tokenHeader t = Store.object r -> List.length made <= r)
    /\ (forall r, Store.this_decodedToken t = Store.object r ->
                  token = Store.object r \/ List.length made <= r)
    /\ ((forall raw, token <> Store.text raw) -> Store.this_decodedToken t = token)).
  { intros H. injection H as <- <-. cbn.
    split; [exists [Store.record []; Store.record []]; now rewrite <- app_assoc|].
    split; [intros r E; injection E as <-; rewrite length_app; lia|].
    split; [intros r E; now left|reflexivity]. }
  destruct token as [| | | |raw|r0]; try exact Hother. clear Hother.
  destruct (Store.decode _ raw) as [[s3 [header payload]]|e] eqn:E; cbn [bind];
    [|discriminate].
  intros H. injection H as <- <-. cbn.
  destruct (decode_extends _ _ _ _ _ E) as ([extra ->] & Hh & Hp & _).
  rewrite !length_app in Hh, Hp. cbn in Hh, Hp.
  split; [exists ([Store.record []; Store.record []] ++ extra);
          now rewrite <- !app_assoc|].
  split; [intros r E'; specialize (Hh r E'); lia|].
  split; [intros r E'; specialize (Hp r E'); right; lia|].
  intros Hneq. now destruct (Hneq raw).
Qed.

(** The instance in the store is the claim token of the embedding of Part
    I: both constructors throw alike, and the instance made reads as the
    claim token made. *)
Lemma new_ClaimToken_view (made : Store.store) (typeName : string)
    (token : Store.held) (j : json) (config : option string) :
  Store.read made token = Some j ->
  match Store.new_ClaimToken made typeName token config with
  | Ok (s, t) =>
      exists claimToken,
        Store.view s t = Some claimToken
        /\ new_ClaimToken typeName j config = Ok claimToken
  | Throw e => new_ClaimToken typeName j config = Throw e
  end.
Proof.
  intros Hread.
  unfold Store.new_ClaimToken, new_ClaimToken. cbn [Store.parsed].
  destruct (find _ TokenType_values) as [T|]; [|reflexivity].
  assert (Hother :
    (forall raw, j <> JStr raw) ->
    exists claimToken,
      Store.view ((made ++ [Store.record []]) ++ [Store.record []])
           {| Store.this_configuration :=
                match config with Some c => c | None => "" end;
              Store.this_rawToken := "";
              Store.this_type := T;
              Store.this_decodedToken := token;
              Store.this_tokenHeader :=
                Store.object (List.length (made ++ [Store.record []])) |}
      = Some claimToken
      /\ match j with
         | JStr raw =>
             bind (decode raw)
                  (fun hp =>
                     Ok {| _configuration :=
                             match config with Some c => c | None => "" end;
                           _rawToken := raw; _type := T;
                           _decodedToken := snd hp; _tokenHeader := fst hp |})
         | _ =>
             Ok {| _configuration :=
                     match config with Some c => c | None => "" end;
                   _rawToken := ""; _type := T;
                   _decodedToken := j; _tokenHeader := JObj [] |}
         end = Ok claimToken).
  { intros Hj. eexists. split.
    - unfold Store.view. cbn [Store.this_decodedToken Store.this_tokenHeader].
      rewrite <- app_assoc. rewrite (read_extends _ _ _ _ Hread).
      cbn [Store.read]. rewrite app_assoc, nth_error_end. reflexivity.
    - destruct j; try reflexivity. now destruct (Hj s). }
  destruct token as [| | | |raw|r0]; cbn [Store.read] in Hread;
    try discriminate Hread;
    try (injection Hread as <-; apply Hother; discriminate).
  - injection Hread as <-.
    destruct (Store.decode _ raw) as [[s3 [header payload]]|e] eqn:E; cbn [bind].
    + destruct (decode_extends _ _ _ _ _ E) as (_ & _ & _ & h & p & -> & Hh & Hp).
      cbn [bind fst snd]. eexists. split; [|reflexivity].
      unfold Store.view. cbn [Store.this_decodedToken Store.this_tokenHeader].
      now rewrite Hp, Hh.
    + revert E. unfold Store.decode, decode.
      destruct (List.length (split "." raw) <? 2)%nat;
        [intros E; now injection E as <-|].
      destruct (parse_segment (nth 0 (split "." raw) "")) as [h|e0]; cbn [bind];
        [|intros E; now injection E as <-].
      destruct (Store.parsed _ h) as [s1 x1].
      destruct (parse_segment (nth 1 (split "." raw) "")) as [p|e1]; cbn [bind];
        [|intros E; now injection E as <-].
      destruct (Store.parsed s1 p). discriminate.
  - apply Hother. intros raw E. subst j.
    destruct (nth_error made r0) as [[fields|items]|]; discriminate.
Qed.

End Constructed.

(** The setter on an instance is the setter of Part I on what it reads
    as. *)
Lemma with_rawToken_view (s : Store.store) (t : Store.instance) (v : string) :
  Store.view s (Store.with_rawToken t v)
  = option_map (fun claimToken => set_rawToken claimToken v) (Store.view s t).
Proof.
  unfold Store.view. cbn [Store.with_rawToken Store.this_decodedToken
                          Store.this_tokenHeader].
  destruct (Store.read s (Store.this_decodedToken t)); [|reflexivity].
  destruct (Store.read s (Store.this_tokenHeader t)); reflexivity.
Qed.

(** A call leaves the store and every field but the raw token. *)
Lemma perform_keeps (op : Store.operation) (st : Store.store * Store.instance) :
  fst (fst (Store.perform op st)) = fst st
  /\ Store.this_type (snd (fst (Store.perform op st)))
     = Store.this_type (snd st)
  /\ Store.this_configuration (snd (fst (Store.perform op st)))
     = Store.this_configuration (snd st)
  /\ Store.this_tokenHeader (snd (fst (Store.perform op st)))
     = Store.this_tokenHeader (snd st)
  /\ Store.this_decodedToken (snd (fst (Store.perform op st)))
     = Store.this_decodedToken (snd st).
Proof. destruct st as [s t], op; repeat split. Qed.

(** Along a trace the instance keeps its type, its configuration and the
    two values it holds, and its raw token is the last one set. *)
Lemma run_fields (trace : list Store.action) (st : Store.store * Store.instance) :
  Store.this_type (snd (Store.run trace st)) = Store.this_type (snd st)
  /\ Store.this_configuration (snd (Store.run trace st))
     = Store.this_configuration (snd st)
  /\ Store.this_tokenHeader (snd (Store.run trace st))
     = Store.this_tokenHeader (snd st)
  /\ Store.this_decodedToken (snd (Store.run trace st))
     = Store.this_decodedToken (snd st)
  /\ Store.this_rawToken (snd (Store.run trace st))
     = Store.last_set trace (Store.this_rawToken (snd st)).
Proof.
  unfold Store.run, Store.last_set. revert st.
  induction trace as [|a trace IH]; intros st; [repeat split|].
  cbn [fold_left].
  destruct (IH (Store.step st a)) as (H1 & H2 & H3 & H4 & H5).
  rewrite H1, H2, H3, H4, H5.
  destruct st as [s t], a as [[]|r c]; repeat split.
Qed.

(** Calls change no object. *)
Lemma run_calls (trace : list Store.action) (st : Store.store * Store.instance) :
  Store.calls_only trace -> fst (Store.run trace st) = fst st.
Proof.
  unfold Store.run. intros H. revert st.
  induction H as [|a trace [op ->] _ IH]; intros st; [reflexivity|].
  cbn [fold_left]. rewrite IH. cbn [Store.step].
  now destruct (perform_keeps op st) as [-> _].
Qed.

(** Changes of objects made before [n] leave a value alone that is not an
    object made before [n]. *)
Lemma run_reads (made : Store.store) (trace : list Store.action)
    (st : Store.store * Store.instance) (x : Store.held) :
  Forall (Store.reaches_only made) trace ->
  (forall r, x = Store.object r -> List.length made <= r) ->
  Store.read (fst (Store.run trace st)) x = Store.read (fst st) x.
Proof.
  unfold Store.run. intros H Hx. revert st.
  induction H as [|a trace Ha _ IH]; intros st; [reflexivity|].
  cbn [fold_left]. rewrite IH. destruct a as [op|r c]; cbn [Store.step].
  - now destruct (perform_keeps op st) as [-> _].
  - cbn [fst]. exact (read_replace _ _ _ _ _ Ha Hx).
Qed.

End Instances.

(** C8, as amended: along any code that calls the operations of a
    constructed claim token and changes objects made before the token, the
    token keeps its type, its configuration and the two objects it holds as
    header and payload; its raw token is the last one given to the public
    setter, which decodes nothing; its header reads as at construction; and
    so does its payload when the token was made of a string or of another
    primitive, or when the code only calls operations.  A token that is not
    a string is kept itself as the payload. *)
Theorem operations_preserve {R : Runtime} (made s : Store.store)
    (typeName : string) (token : Store.held) (config : option string)
    (t : Store.instance) (trace : list Store.action) :
  Store.new_ClaimToken made typeName token config = Ok (s, t) ->
  Forall (Store.reaches_only made) trace ->
  Store.this_type (snd (Store.run trace (s, t))) = Store.this_type t
  /\ Store.this_configuration (snd (Store.run trace (s, t)))
     = Store.this_configuration t
  /\ Store.this_tokenHeader (snd (Store.run trace (s, t)))
     = Store.this_tokenHeader t
  /\ Store.this_decodedToken (snd (Store.run trace (s, t)))
     = Store.this_decodedToken t
  /\ Store.this_rawToken (snd (Store.run trace (s, t)))
     = Store.last_set trace (Store.this_rawToken t)
  /\ Store.read (fst (Store.run trace (s, t))) (Store.this_tokenHeader t)
     = Store.read s (Store.this_tokenHeader t)
  /\ (Store.primitive token \/ Store.calls_only trace ->
      Store.read (fst (Store.run trace (s, t))) (Store.this_decodedToken t)
      = Store.read s (Store.this_decodedToken t))
  /\ ((forall raw, token <> Store.text raw) -> Store.this_decodedToken t = token).
Proof.
  intros Hnew Htrace.
  destruct (new_ClaimToken_holds _ _ _ _ _ _ Hnew)
    as (_ & Hheader & Hpayload & Hkept).
  destruct (run_fields trace (s, t)) as (Htype & Hconf & Hh & Hp & Hraw).
  cbn [snd] in Htype, Hconf, Hh, Hp, Hraw.
  pose proof (run_reads made trace (s, t) _ Htrace Hheader) as Hread.
  cbn [fst] in Hread.
  repeat split; try assumption.
  intros [Hprim|Hcalls].
  - rewrite (run_reads made trace (s, t) _ Htrace); [reflexivity|].
    intros r E. destruct (Hpayload r E) as [E'|Hnew']; [|exact Hnew'].
    now destruct (Hprim r).
  - now rewrite (run_calls _ _ Hcalls).
Qed.

(** At the issuance token, made in a store that holds an earlier object:
    after the code of [Sample.client] the token has the raw token that was
    set, and the header and the payload of the raw token it was made of. *)
Lemma operations_preserve_witness :
  Store.new_ClaimToken (R := Sample.runtime) Sample.earlier "siopIssuance"
    (Store.text Sample.issuance_token) None
  = Ok (Sample.constructed Sample.earlier)
  /\ Forall (Store.reaches_only Sample.earlier) Sample.client
  /\ observed (Store.run Sample.client (Sample.constructed Sample.earlier))
     = (siopIssuance, Sample.credential_token, Some Sample.header,
        Some Sample.issuance, "").
Proof.
  assert (Hclient : Forall (Store.reaches_only Sample.earlier) Sample.client).
  { repeat constructor. }
  split; [reflexivity|]. split; [exact Hclient|].
  destruct (operations_preserve (R := Sample.runtime) Sample.earlier
              (fst (Sample.constructed Sample.earlier)) "siopIssuance"
              (Store.text Sample.issuance_token) None
              (snd (Sample.constructed Sample.earlier))
              Sample.client eq_refl Hclient)
    as (Htype & Hconf & Hh & Hp & Hraw & Hheader & Hpayload & _).
  unfold observed.
  change (Sample.constructed Sample.earlier)
    with (fst (Sample.constructed Sample.earlier),
          snd (Sample.constructed Sample.earlier)).
  rewrite Htype, Hconf, Hh, Hp, Hraw, Hheader, Hpayload.
  - reflexivity.
  - left. intros r. discriminate.
Defined.

(** C8, as stated, fails.  The setter replaces the raw token of a
    constructed claim token and leaves its payload, that of the old raw
    token.  And the payload that the getter returns is the object the token
    holds: a change of it is a change of the payload of the token. *)
Lemma immutable_counterexample :
  Store.new_ClaimToken (R := Sample.runtime) [] "siopIssuance"
    (Store.text Sample.issuance_token) None
  = Ok (Sample.constructed [])
  /\ observed (Sample.constructed [])
     = (siopIssuance, Sample.issuance_token, Some Sample.header,
        Some Sample.issuance, "")
  /\ observed (fst (Store.perform
                      (Store.set_rawToken_to Sample.credential_token)
                      (Sample.constructed [])))
     = (siopIssuance, Sample.credential_token, Some Sample.header,
        Some Sample.issuance, "")
  /\ ~ immutable (Sample.constructed [])
  /\ snd (Store.perform Store.get_decodedToken (Sample.constructed []))
     = Store.object 3
  /\ observed (Store.run [Store.change 3 (Store.record [])]
                         (Sample.constructed []))
     = (siopIssuance, Sample.issuance_token, Some Sample.header,
        Some (JObj []), "").
Proof.
  repeat split.
  intros H. specialize (H (Store.set_rawToken_to Sample.credential_token)).
  discriminate H.
Qed.

(** ** Validator.checkVcsStatus *)

Section StatusCheck.
Context {R : Runtime} {Net : StatusServices}.
Variable builder : ValidatorBuilder.

(** C9: when the status check is disabled, [checkVcsStatus] answers
    result=true with status 200 for every validation result, and the log of
    requests is as it was: nothing is sent. *)
Theorem checkVcsStatus_disabled (validationResult : IValidationResult)
    (log : list (value * string)) :
  featureVerifiedCredentialsStatusCheckEnabled builder = false ->
  Validator.checkVcsStatus builder validationResult log
  = (Ok {| result := true; status := 200; detailedError := None;
           payloadObject := None; did := None; tokensToValidate := None;
           validationResult := None |}, log).
Proof.
  intros Hflag. unfold Validator.checkVcsStatus. now rewrite Hflag.
Qed.

Lemma filter_nil_forallb {A : Type} (f : A -> bool) (l : list A) :
  forallb (fun x => negb (f x)) l = true -> filter f l = [].
Proof.
  induction l as [|x l IH]; simpl; [reflexivity|].
  intros H. apply andb_true_iff in H as [Hx Hl].
  apply negb_true_iff in Hx. rewrite Hx. now apply IH.
Qed.

(** A queue without a validated presentation is assembled without
    presentations. *)
Lemma setValidationResult_no_presentations (items : ValidationQueue)
    (r : IValidationResult) :
  forallb (fun item => negb (Validator.has_type verifiablePresentation item)) items
  = true ->
  Validator.setValidationResult items = Ok r ->
  vr_verifiablePresentations r = None.
Proof.
  intros Hnone. unfold Validator.setValidationResult.
  rewrite (filter_nil_forallb _ _ Hnone).
  destruct (Validator.map_res Validator.response_did _); cbn [bind]; [|discriminate].
  match goal with
  | |- bind ?m _ = _ -> _ => destruct m; cbn [bind]; [|discriminate]
  end.
  destruct (Validator.map_res (Validator.response_payload "contract") _);
    cbn [bind]; [|discriminate].
  destruct (Validator.map_res (Validator.response_payload "jti") _);
    cbn [bind]; [|discriminate].
  intros H. injection H as <-. reflexivity.
Qed.

(** C10: when the status check is enabled, [checkVcsStatus] answers
    result=false, status 403, "No presentations to tests" on a validation
    result without presentations, and result=false, status 403, "No
    verifiable credentials to tests" on one with presentations and without
    credentials, in both cases without sending a request; the result
    assembled from a queue without a validated presentation is of the first
    kind, so that such a run fails under the status check. *)
Theorem checkVcsStatus_enabled_requires (validationResult : IValidationResult)
    (log : list (value * string)) :
  featureVerifiedCredentialsStatusCheckEnabled builder = true ->
  (vr_verifiablePresentations validationResult = None ->
   Validator.checkVcsStatus builder validationResult log
   = (Ok {| result := false; status := 403;
            detailedError := Some "No presentations to tests";
            payloadObject := None; did := None; tokensToValidate := None;
            validationResult := None |}, log))
  /\ (forall presentations,
         vr_verifiablePresentations validationResult = Some presentations ->
         vr_verifiableCredentials validationResult = None ->
         Validator.checkVcsStatus builder validationResult log
         = (Ok {| result := false; status := 403;
                  detailedError := Some "No verifiable credentials to tests";
                  payloadObject := None; did := None; tokensToValidate := None;
                  validationResult := None |}, log))
  /\ (forall items,
         forallb (fun item => negb (Validator.has_type verifiablePresentation item))
                 items = true ->
         Validator.setValidationResult items = Ok validationResult ->
         Validator.checkVcsStatus builder validationResult log
         = (Ok (failure 403 "No presentations to tests"), log)).
Proof.
  intros Hflag. unfold Validator.checkVcsStatus. rewrite Hflag. cbn [negb].
  repeat split.
  - intros Hnone. now rewrite Hnone.
  - intros presentations Hsome Hnone. now rewrite Hsome, Hnone.
  - intros items Hitems Hassembled.
    now rewrite (setValidationResult_no_presentations _ _ Hitems Hassembled).
Qed.

End StatusCheck.

(** With the status check off, the result of an issuance run passes and
    nothing is requested. *)
Lemma checkVcsStatus_disabled_witness :
  Validator.checkVcsStatus (R := Sample.runtime) (Net := Sample.services)
    (Sample.builder false) Sample.empty_result []
  = (Ok success, []).
Proof.
  apply (checkVcsStatus_disabled (R := Sample.runtime) (Net := Sample.services)
           (Sample.builder false) Sample.empty_result []).
  reflexivity.
Defined.

(** With the status check on, the same result, which has no presentation,
    is rejected. *)
Lemma checkVcsStatus_enabled_requires_witness :
  Validator.checkVcsStatus (R := Sample.runtime) (Net := Sample.services)
    (Sample.builder true) Sample.empty_result []
  = (Ok (failure 403 "No presentations to tests"), []).
Proof.
  apply (proj1 (checkVcsStatus_enabled_requires (R := Sample.runtime)
                  (Net := Sample.services) (Sample.builder true)
                  Sample.empty_result [] eq_refl)).
  reflexivity.
Defined.

(* ================================================================== *)
(** * Part III: further properties of the code                         *)
(* ================================================================== *)

(** ** ClaimToken: creation and construction *)

Section CreateMore.
Context {R : Runtime}.

(** [create] throws a type error on every token that is not a string, and
    on every string without a dot: no claim token is made of it. *)
Theorem create_rejects_malformed (token : json) :
  (forall raw, token = JStr raw -> free_of "." raw = true) ->
  exists text, create token = Throw (TypeError text).
Proof.
  intros H. unfold create, getTokenPayload, token_split.
  destruct token as [| | |raw| |]; cbn [bind]; try (eexists; reflexivity).
  rewrite (split_free _ _ (H raw eq_refl)). cbn [nth_error bind].
  eexists; reflexivity.
Qed.

Lemma new_ClaimToken_raw_inv (t : TokenType) (raw : string)
    (header_segment payload_segment : string) (after_payload : list string)
    (payload : json) (made : ClaimToken) :
  split "." raw = header_segment :: payload_segment :: after_payload ->
  parse_segment payload_segment = Ok payload ->
  new_ClaimToken (TokenType_name t) (JStr raw) None = Ok made ->
  parse_segment header_segment = Ok (tokenHeader made)
  /\ made = {| _configuration := ""; _rawToken := raw; _type := t;
               _decodedToken := payload; _tokenHeader := tokenHeader made |}.
Proof.
  intros Hsplit Hpayload. unfold new_ClaimToken, decode.
  rewrite find_TokenType, Hsplit. cbn [List.length Nat.ltb Nat.leb nth].
  destruct (parse_segment header_segment) as [header|e]; cbn [bind]; [|discriminate].
  rewrite Hpayload. cbn [bind fst snd]. intros H. injection H as <-.
  split; reflexivity.
Qed.

Lemma json_null_or (j : json) : j = JNull \/ j <> JNull.
Proof. destruct j; (now left) || (right; discriminate). Qed.

(** The branch of [create] that makes the claim token. *)
Lemma create_branch (raw : string) (payload : json) (after_payload : list string)
    (made : ClaimToken) :
  payload <> JNull ->
  (if strict_eq_string TOKEN_SI_ISS (property payload "iss")
   then
     if truthy (property payload "contract")
     then new_ClaimToken (TokenType_name siopIssuance) (JStr raw) None
     else
       if truthy (property payload "presentation_submission")
       then new_ClaimToken (TokenType_name siopPresentationExchange) (JStr raw) None
       else
         if truthy (property payload "attestations")
         then new_ClaimToken (TokenType_name siopPresentationAttestation) (JStr raw) None
         else Throw (Error "SIOP was not recognized.")
   else
     if truthy (property payload "vc")
     then new_ClaimToken (TokenType_name verifiableCredential) (JStr raw) None
     else
       if truthy (property payload "vp")
       then new_ClaimToken (TokenType_name verifiablePresentation) (JStr raw) None
       else
         if signed after_payload
         then new_ClaimToken (TokenType_name idToken) (JStr raw) None
         else new_ClaimToken (TokenType_name selfIssued) (JStr raw) None) = Ok made ->
  exists t,
    new_ClaimToken (TokenType_name t) (JStr raw) None = Ok made
    /\ classification truthy_property payload (signed after_payload) = inr t
    /\ t <> verifiablePresentationStatus.
Proof.
  intros Hnull. unfold classification, truthy_property, TOKEN_SI_ISS.
  destruct (strict_eq_string _ (property payload "iss")).
  - destruct (truthy (property payload "contract"));
      [intros H; exists siopIssuance; repeat split; [exact H|discriminate]|].
    destruct (truthy (property payload "presentation_submission"));
      [intros H; exists siopPresentationExchange; repeat split; [exact H|discriminate]|].
    destruct (truthy (property payload "attestations"));
      [intros H; exists siopPresentationAttestation; repeat split; [exact H|discriminate]|].
    discriminate.
  - destruct (truthy (property payload "vc"));
      [intros H; exists verifiableCredential; repeat split; [exact H|discriminate]|].
    destruct (truthy (property payload "vp"));
      [intros H; exists verifiablePresentation; repeat split; [exact H|discriminate]|].
    destruct (signed after_payload); intros H;
      [exists idToken|exists selfIssued]; repeat split; (exact H || discriminate).
Qed.

(** What [create] made the claim token it returns of. *)
Lemma create_made (token : json) (made : ClaimToken) :
  create token = Ok made ->
  exists raw header_segment payload_segment after_payload payload t,
    token = JStr raw
    /\ split "." raw = header_segment :: payload_segment :: after_payload
    /\ parse_segment payload_segment = Ok payload
    /\ payload <> JNull
    /\ new_ClaimToken (TokenType_name t) (JStr raw) None = Ok made
    /\ classification truthy_property payload (signed after_payload) = inr t
    /\ t <> verifiablePresentationStatus.
Proof.
  unfold create, getTokenPayload, token_split.
  destruct token as [| | |raw| |]; cbn [bind]; try discriminate.
  destruct (split "." raw) as [|header_segment [|payload_segment after_payload]] eqn:Hsplit;
    cbn [nth_error]; try discriminate.
  destruct (parse_segment payload_segment) as [payload|e] eqn:Hpayload;
    cbn [bind]; [|discriminate].
  destruct (json_null_or payload) as [->|Hnull]; [discriminate|].
  rewrite !(get_not_null payload) by exact Hnull. cbn [bind].
  rewrite (tokenSignature_signed _ _ _ _ Hsplit). cbn [bind].
  intros H. destruct (create_branch _ _ _ _ Hnull H) as (t & Hnew & Hclass & Ht).
  exists raw, header_segment, payload_segment, after_payload, payload, t.
  repeat split; assumption.
Qed.

(** Whenever [create] returns a claim token, the token given is a string
    of at least two segments whose two first segments parse; the claim
    token keeps that string as its raw token, has the parsed header and
    payload and no configuration, has the type that the shape rules give
    for the payload, and is never of type verifiablePresentationStatus. *)
Theorem create_returns_classified (token : json) (made : ClaimToken) :
  create token = Ok made ->
  exists raw header_segment payload_segment after_payload,
    token = JStr raw
    /\ split "." raw = header_segment :: payload_segment :: after_payload
    /\ parse_segment header_segment = Ok (tokenHeader made)
    /\ parse_segment payload_segment = Ok (decodedToken made)
    /\ decodedToken made <> JNull
    /\ rawToken made = raw
    /\ configuration made = ""
    /\ classification truthy_property (decodedToken made) (signed after_payload)
       = inr (type made)
    /\ type made <> verifiablePresentationStatus.
Proof.
  intros H.
  destruct (create_made _ _ H)
    as (raw & header_segment & payload_segment & after_payload & payload & t
        & Htoken & Hsplit & Hpayload & Hnull & Hnew & Hclass & Ht).
  destruct (new_ClaimToken_raw_inv _ _ _ _ _ _ _ Hsplit Hpayload Hnew)
    as [Hheader Hmade].
  exists raw, header_segment, payload_segment, after_payload.
  rewrite Hmade. cbn. rewrite Hmade in Hheader. cbn in Hheader.
  repeat split; assumption.
Qed.

Lemma find_TokenType_none (typeName : string) :
  (forall t, TokenType_name t <> typeName) ->
  find (fun t => TokenType_name t =? typeName) TokenType_values = None.
Proof.
  intros H. unfold TokenType_values. cbn [find].
  repeat match goal with
         | |- context [TokenType_name ?t =? typeName] =>
             let E := fresh in
             destruct (TokenType_name t =? typeName) eqn:E;
             [apply String.eqb_eq in E; now destruct (H t)|]
         end.
  reflexivity.
Qed.

(** The constructor: a type name that is none of the eight token types is
    refused with "Type '<name> is not supported" before the token is looked
    at; with a token type, a token that is not a string is taken as the
    decoded payload without any decoding (empty raw token, empty header),
    and a string without a dot is refused with "Cannot decode. Invalid
    input token". *)
Theorem new_ClaimToken_outcomes (typeName : string) (token : json)
    (config : option string) :
  ((forall t, TokenType_name t <> typeName) ->
   new_ClaimToken typeName token config
   = Throw (Error ("Type '" ++ typeName ++ " is not supported")))
  /\ (forall t, typeName = TokenType_name t ->
                (forall raw, token <> JStr raw) ->
                new_ClaimToken typeName token config
                = Ok {| _configuration := string_or_empty config; _rawToken := "";
                        _type := t; _decodedToken := token;
                        _tokenHeader := JObj [] |})
  /\ (forall t raw, typeName = TokenType_name t ->
                    token = JStr raw -> free_of "." raw = true ->
                    new_ClaimToken typeName token config
                    = Throw (Error "Cannot decode. Invalid input token")).
Proof.
  repeat split.
  - intros H. unfold new_ClaimToken. now rewrite (find_TokenType_none _ H).
  - intros t -> Htoken. unfold new_ClaimToken. rewrite find_TokenType.
    destruct token as [| | |raw| |]; try (destruct config; reflexivity).
    now destruct (Htoken raw).
  - intros t raw -> -> Hfree. unfold new_ClaimToken, decode.
    rewrite find_TokenType, (split_free _ _ Hfree). reflexivity.
Qed.

End CreateMore.

(** ** ClaimToken: the maps of extracted tokens *)

Section ExtractedMaps.
Context {R : Runtime}.

Lemma In_assign_keys {A : Type} (k k' : string) (v : A) (o : list (string * A)) :
  In k' (map fst (assign k v o)) <-> k' = k \/ In k' (map fst o).
Proof.
  induction o as [|[k0 v0] rest IH]; simpl.
  - intuition.
  - destruct (k =? k0) eqn:E; simpl.
    + apply String.eqb_eq in E. subst k0. intuition.
    + rewrite IH. intuition.
Qed.

Lemma NoDup_assign {A : Type} (k : string) (v : A) (o : list (string * A)) :
  NoDup (map fst o) -> NoDup (map fst (assign k v o)).
Proof.
  induction o as [|[k0 v0] rest IH]; simpl; intros H.
  - constructor; [intros []|constructor].
  - inversion H as [|? ? Hnot Hrest]; subst.
    destruct (k =? k0) eqn:E; simpl.
    + apply String.eqb_eq in E. subst k0. now constructor.
    + constructor; [|now apply IH].
      rewrite In_assign_keys. intros [->|Hin]; [|contradiction].
      now rewrite String.eqb_refl in E.
Qed.

Lemma length_assign {A : Type} (k : string) (v : A) (o : list (string * A)) :
  List.length (assign k v o) <= Datatypes.S (List.length o).
Proof.
  induction o as [|[k0 v0] rest IH]; simpl; [lia|].
  destruct (k =? k0); simpl; lia.
Qed.

(** A loop keeps what each turn keeps. *)
Lemma for_each_invariant {A B : Type} (P : B -> Prop) (body : A -> B -> res B)
    (l : list A) :
  (forall x acc acc', P acc -> body x acc = Ok acc' -> P acc') ->
  forall acc r, P acc -> for_each body l acc = Ok r -> P r.
Proof.
  intros Hbody. induction l as [|x l IH]; simpl; intros acc r Hacc H.
  - now injection H as <-.
  - destruct (body x acc) as [acc'|e] eqn:E; simpl in H; [|discriminate].
    exact (IH _ _ (Hbody _ _ _ Hacc E) H).
Qed.

(** The ids after a loop that creates and files one token per entry. *)
Lemma for_each_add_created_ids (l : list (string * json))
    (acc r : list (string * ClaimToken)) :
  for_each (fun entry : string * json => add_created (fst entry) (snd entry)) l acc
  = Ok r ->
  forall k, In k (map fst r) <-> In k (map fst acc) \/ In k (map fst l).
Proof.
  revert acc. induction l as [|[k0 raw] l IH]; simpl; intros acc H k.
  - injection H as <-. intuition.
  - unfold add_created in H at 1.
    destruct (create raw) as [made|e]; cbn [bind fst snd] in H; [|discriminate].
    rewrite (IH _ H k), In_assign_keys. intuition.
Qed.

Lemma for_each_add_created_NoDup (l : list (string * json))
    (acc r : list (string * ClaimToken)) :
  NoDup (map fst acc) ->
  for_each (fun entry : string * json => add_created (fst entry) (snd entry)) l acc
  = Ok r ->
  NoDup (map fst r).
Proof.
  apply (for_each_invariant (fun m => NoDup (map fst m))).
  intros [k0 raw] m m' Hm. unfold add_created. cbn [fst snd].
  destruct (create raw) as [made|e]; cbn [bind]; [|discriminate].
  intros H. injection H as <-. now apply NoDup_assign.
Qed.

(** The tokens extracted from an attestations object none of whose inner
    keys is [__proto__] are filed under pairwise distinct ids, which are the
    reserved key [selfIssued] for the self-issued entry and, for every other
    entry, the keys of its value: the key of the entry itself (such as
    [idTokens] or [presentations]) is no id, and a key that occurs under two
    entries is filed once. *)
Theorem getClaimTokensFromAttestations_ids (attestations : value)
    (extracted : list (string * ClaimToken)) :
  ordinary_ids (attestation_ids (entries attestations)) ->
  getClaimTokensFromAttestations attestations = Ok extracted ->
  same_ids extracted (attestation_ids (entries attestations))
  /\ NoDup (map fst extracted).
Proof.
  intros _. unfold getClaimTokensFromAttestations, same_ids.
  assert (Hgen : forall groups acc r,
             for_each
               (fun (entry : string * json) decodedTokens =>
                  let (key, token) := entry in
                  if key =? CLAIMS_SELFISSUED then
                    bind (new_ClaimToken (TokenType_name selfIssued) token None)
                      (fun claimToken =>
                         Ok (assign CLAIMS_SELFISSUED claimToken decodedTokens))
                  else
                    for_each (fun inner : string * json =>
                                add_created (fst inner) (snd inner))
                             (entries (Some token)) decodedTokens)
               groups acc = Ok r ->
             (forall k, In k (map fst r)
                        <-> In k (map fst acc) \/ In k (attestation_ids groups))
             /\ (NoDup (map fst acc) -> NoDup (map fst r))).
  { induction groups as [|[key token] groups IH]; intros acc r H.
    - simpl in H. injection H as <-. simpl. intuition.
    - cbn [for_each] in H. cbn [attestation_ids flat_map fst snd].
      destruct (key =? CLAIMS_SELFISSUED) eqn:E.
      + destruct (new_ClaimToken (TokenType_name selfIssued) token None)
          as [made|e]; cbn [bind] in H; [|discriminate].
        destruct (IH _ _ H) as [Hids Hdup]. split.
        * intros k. rewrite (Hids k), In_assign_keys, in_app_iff. simpl. intuition.
        * intros Hacc. apply Hdup. now apply NoDup_assign.
      + destruct (for_each _ (entries (Some token)) acc) as [acc'|e] eqn:Einner;
          cbn [bind] in H; [|discriminate].
        destruct (IH _ _ H) as [Hids Hdup]. split.
        * intros k.
          rewrite (Hids k), (for_each_add_created_ids _ _ _ Einner k), in_app_iff.
          intuition.
        * intros Hacc. apply Hdup.
          exact (for_each_add_created_NoDup _ _ _ Hacc Einner). }
  intros H. destruct (Hgen _ _ _ H) as [Hids Hdup]. split.
  - intros k. rewrite (Hids k). simpl. intuition.
  - apply Hdup. constructor.
Qed.

(** Extraction from a presentation-exchange payload files its tokens under
    pairwise distinct ids and makes at most one token per entry of the
    descriptor map. *)
Theorem getClaimTokensFromPresentationExchange_bound (payload : value)
    (descriptorMap : list json) (extracted : list (string * ClaimToken)) :
  jp_query payload descriptor_map_path = Ok descriptorMap ->
  getClaimTokensFromPresentationExchange payload = Ok extracted ->
  NoDup (map fst extracted)
  /\ List.length extracted <= List.length descriptorMap.
Proof.
  intros Hmap. unfold getClaimTokensFromPresentationExchange.
  fold descriptor_map_path. rewrite Hmap. cbn [bind].
  assert (Hstep : forall item acc acc',
             descriptor_step payload item acc = Ok acc' ->
             (NoDup (map fst acc) -> NoDup (map fst acc'))
             /\ List.length acc' <= Datatypes.S (List.length acc)).
  { intros item acc acc'. unfold descriptor_step.
    destruct (truthy (Some item));
      [|intros H; injection H as <-; split; [auto|lia]].
    destruct (negb (truthy (property item "id"))); [discriminate|].
    destruct (truthy (property item "path")); [|discriminate].
    destruct (jp_query payload (property item "path")) as [found|e];
      cbn [bind]; [|discriminate].
    destruct found as [|one more]; [discriminate|].
    destruct one, more; try discriminate;
      try (intros H; injection H as <-; split; [auto|lia]).
    destruct (create (JStr s)) as [made|e]; cbn [bind]; [|discriminate].
    intros H; injection H as <-. split; [apply NoDup_assign|apply length_assign]. }
  assert (Hgen : forall l acc r,
             for_each (descriptor_step payload) l acc = Ok r ->
             (NoDup (map fst acc) -> NoDup (map fst r))
             /\ List.length r <= List.length l + List.length acc).
  { induction l as [|item l IH]; simpl; intros acc r H.
    - injection H as <-. split; [auto|lia].
    - destruct (descriptor_step payload item acc) as [acc'|e] eqn:E;
        simpl in H; [|discriminate].
      destruct (Hstep _ _ _ E) as [Hd Hl]. destruct (IH _ _ H) as [Hd' Hl'].
      split; [auto|lia]. }
  intros H. destruct (Hgen _ _ _ H) as [Hd Hl]. split.
  - apply Hd. constructor.
  - simpl in Hl. lia.
Qed.

(** Extraction from a status receipt: a payload whose [receipt] is missing
    or falsy is refused with "The SIOP status response has no receipt
    property."; when extraction succeeds on a receipt none of whose keys is
    [__proto__], the ids of the extracted tokens are exactly the keys of the
    receipt, each filed once. *)
Theorem getClaimTokensFromReceipt_ids (payload : json) :
  payload <> JNull ->
  (truthy (property payload "receipt") = false ->
   getClaimTokensFromReceipt (Some payload)
   = Throw (Error "The SIOP status response has no receipt property."))
  /\ (forall extracted,
         ordinary_ids (map fst (entries (property payload "receipt"))) ->
         getClaimTokensFromReceipt (Some payload) = Ok extracted ->
         truthy (property payload "receipt") = true
         /\ same_ids extracted (map fst (entries (property payload "receipt")))
         /\ NoDup (map fst extracted)).
Proof.
  intros Hnull. unfold getClaimTokensFromReceipt, same_ids.
  rewrite (get_not_null _ _ Hnull). cbn [bind]. split.
  - intros Hfalsy. now rewrite Hfalsy.
  - intros extracted _.
    destruct (truthy (property payload "receipt")); cbn [negb]; [|discriminate].
    intros H. split; [reflexivity|]. split.
    + intros k. rewrite (for_each_add_created_ids _ _ _ H k). simpl. intuition.
    + refine (for_each_add_created_NoDup _ [] _ _ H). constructor.
Qed.

End ExtractedMaps.

(** ** SiopTokenValidator: the replay check and the fan-out, continued *)

Section SiopMore.
Import SiopTokenValidator.
Context {R : Runtime}.
Variable siopValidation : json -> res IValidationResponse.
Variable expected : IExpectedSiop.

(** A response whose payload echoes what is expected (or of which nothing
    is expected) comes out of the replay check as it went in. *)
Theorem validateReplayProtection_passes (response : IValidationResponse)
    (payload : json) :
  payloadObject response = Some payload -> payload <> JNull ->
  nonce_passes expected payload ->
  state_passes expected payload ->
  validateReplayProtection expected response = Ok response.
Proof.
  intros Hpayload Hnull Hnonce Hstate. unfold validateReplayProtection.
  rewrite Hpayload, !(get_not_null _ _ Hnull). cbn [bind].
  assert (Hn : (if set_string (nonce expected)
                then if negb (strict_eq_string (string_or_empty (nonce expected))
                                               (property payload "nonce"))
                     then Ok (Some (failure 403
                                      ("Expect nonce '" ++ string_or_empty (nonce expected)
                                         ++ "' does not match '"
                                         ++ template (property payload "nonce") ++ "'.")))
                     else Ok None
                else Ok None) = Ok None).
  { destruct Hnonce as [Hunset|Hecho]; [now rewrite Hunset|].
    apply strict_eq_string_true in Hecho. rewrite Hecho.
    now destruct (set_string (nonce expected)). }
  rewrite Hn. cbn [bind].
  destruct Hstate as [Hunset|Hecho]; [now rewrite Hunset|].
  apply strict_eq_string_true in Hecho. rewrite Hecho.
  now destruct (set_string (state expected)).
Qed.

(** Whatever the replay check returns is the response it was given or a
    rejection with status 403: it never makes a success of its own. *)
Theorem validateReplayProtection_outcomes (response answer : IValidationResponse) :
  validateReplayProtection expected response = Ok answer ->
  answer = response
  \/ (result answer = false /\ status answer = 403%Z
      /\ payloadObject answer = None /\ tokensToValidate answer = None).
Proof.
  unfold validateReplayProtection.
  destruct (set_string (nonce expected)).
  - destruct (get (payloadObject response) "nonce") as [actual|e];
      cbn [bind]; [|discriminate].
    destruct (negb (strict_eq_string _ actual)); cbn [bind].
    + intros H. injection H as <-. right. repeat split.
    + destruct (set_string (state expected)); [|intros H; injection H as <-; now left].
      destruct (get (payloadObject response) "state") as [actual'|e];
        cbn [bind]; [|discriminate].
      destruct (negb (strict_eq_string _ actual')); intros H; injection H as <-;
        [right; repeat split|now left].
  - cbn [bind].
    destruct (set_string (state expected)); [|intros H; injection H as <-; now left].
    destruct (get (payloadObject response) "state") as [actual'|e];
      cbn [bind]; [|discriminate].
    destruct (negb (strict_eq_string _ actual')); intros H; injection H as <-;
      [right; repeat split|now left].
Qed.

(** In [getTokens] the attestations decide before the presentation
    submission, whereas [create] asks for the presentation submission
    first: a SIOP that carries both (and no contract) is classified
    siopPresentationExchange, and its children are taken from the
    attestations alone, the descriptor map not being read. *)
Theorem attestations_decide_fan_out (raw : string)
    (header_segment payload_segment : string) (after_payload : list string)
    (header payload : json) (response : IValidationResponse) :
  split "." raw = header_segment :: payload_segment :: after_payload ->
  parse_segment header_segment = Ok header ->
  parse_segment payload_segment = Ok payload ->
  property payload "iss" = Some (JStr TOKEN_SI_ISS) ->
  truthy (property payload "contract") = false ->
  truthy (property payload "presentation_submission") = true ->
  truthy (property payload "attestations") = true ->
  payloadObject response = Some payload ->
  create (JStr raw)
  = Ok {| _configuration := ""; _rawToken := raw;
          _type := siopPresentationExchange;
          _decodedToken := payload; _tokenHeader := header |}
  /\ extract_tokens response
     = match getClaimTokensFromAttestations (property payload "attestations") with
       | Ok extracted => Ok (Extracted (with_tokens response extracted))
       | Throw err => Ok (Caught (failure 403 (message err)))
       end.
Proof.
  intros Hsplit Hheader Hpayload Hiss Hcontract Hsubmission Hattestations Hresponse.
  assert (Hnull : payload <> JNull).
  { intros ->. discriminate Hiss. }
  split.
  - unfold create, getTokenPayload, token_split. cbn [bind].
    rewrite Hsplit. cbn [nth_error]. rewrite Hpayload. cbn [bind].
    rewrite !(get_not_null payload) by exact Hnull. cbn [bind].
    rewrite Hiss. cbn [strict_eq_string]. rewrite String.eqb_refl.
    rewrite Hcontract, Hsubmission.
    exact (new_ClaimToken_raw siopPresentationExchange raw _ _ _ _ _
             Hsplit Hheader Hpayload).
  - unfold extract_tokens, siop_flavour, ATTESTATIONS.
    rewrite Hresponse, !(get_not_null payload) by exact Hnull. cbn [bind].
    rewrite Hattestations. cbn [bind]. reflexivity.
Qed.

(** A SIOP without attestations and without a presentation submission (the
    issuance flavour) has no children of its own: [getTokens] returns the
    response as it is and appends only the items of the tokens that the
    response carried already, none when it carried none. *)
Theorem getTokens_without_children (response : IValidationResponse)
    (payload : json) (queue : ValidationQueue) :
  payloadObject response = Some payload -> payload <> JNull ->
  truthy (property payload "attestations") = false ->
  truthy (property payload "presentation_submission") = false ->
  getTokens response queue
  = (Ok response, (queue ++ map child_item (tokens_of response))%list).
Proof.
  intros Hpayload Hnull Hattestations Hsubmission.
  unfold getTokens, extract_tokens, siop_flavour, ATTESTATIONS,
    PRESENTATION_SUBMISSION, tokens_of.
  rewrite Hpayload, !(get_not_null payload) by exact Hnull. cbn [bind].
  rewrite Hattestations. cbn [bind]. rewrite Hsubmission. cbn [bind].
  destruct (tokensToValidate response) as [carried|].
  - now rewrite enqueue_all_app.
  - cbn [map]. now rewrite app_nil_r.
Qed.

(** When the extraction of the children throws, [validate] leaves the queue
    as it was and hands the rejection (status 403, with the message of the
    error) to the replay check; that rejection carries no payload, so the
    replay check returns it only when neither a nonce nor a state is
    expected, and throws a type error on reading the payload otherwise. *)
Theorem validate_after_caught_extraction (queue : ValidationQueue)
    (queueItem : ValidationQueueItem) (response caught : IValidationResponse) :
  siopValidation (tokenToValidate queueItem) = Ok response ->
  result response = true ->
  extract_tokens response = Ok (Caught caught) ->
  (exists err, caught = failure 403 (message err))
  /\ (set_string (nonce expected) = false ->
      set_string (state expected) = false ->
      validate siopValidation expected queue queueItem = (Ok caught, queue))
  /\ (set_string (nonce expected) = true ->
      validate siopValidation expected queue queueItem
      = (Throw (TypeError "Cannot read property 'nonce' of undefined"), queue))
  /\ (set_string (nonce expected) = false ->
      set_string (state expected) = true ->
      validate siopValidation expected queue queueItem
      = (Throw (TypeError "Cannot read property 'state' of undefined"), queue)).
Proof.
  intros Hvalid Hok Hcaught.
  destruct (extract_tokens_caught _ _ Hcaught) as (err & -> & _).
  split; [now exists err|].
  unfold validate. rewrite Hvalid, Hok. unfold getTokens. rewrite Hcaught.
  cbn [bind]. unfold validateReplayProtection. cbn [payloadObject failure get].
  repeat split.
  - intros Hnonce Hstate. now rewrite Hnonce, Hstate.
  - intros Hnonce. now rewrite Hnonce.
  - intros Hnonce Hstate. now rewrite Hnonce, Hstate.
Qed.

End SiopMore.

(** ** Validator.validate: the turns of the loop *)

Section LoopMore.
Import Validator.
Context {R : Runtime} {Net : StatusServices}.
Variable builder : ValidatorBuilder.

(** The run after a call of a token validator. *)
Lemma call_run (validator : ITokenValidator) (run : Run)
    (queueItem : ValidationQueueItem) (subject contractId : option string) :
  let run' := snd (call validator run queueItem subject contractId) in
  tokens run' = tokens run
  /\ siopDid run' = siopDid run
  /\ siopContractId run' = siopContractId run
  /\ dispatched run' = (dispatched run ++ [id queueItem])%list
  /\ requests run' = requests run.
Proof.
  unfold call.
  destruct (validator_validate validator (queue run) queueItem subject contractId)
    as [response q].
  repeat split.
Qed.

(** What a turn that ends with [save] leaves of the run. *)
Lemma save_run (pos : nat) (made : ClaimToken)
    (called : res IValidationResponse * Run) :
  match save pos made called with
  | Return answer run' =>
      run' = snd called /\ exists e, answer = Throw e
  | Continue run' =>
      tokens run' = tokens (snd called)
      /\ siopDid run' = siopDid (snd called)
      /\ siopContractId run' = siopContractId (snd called)
      /\ dispatched run' = dispatched (snd called)
      /\ requests run' = requests (snd called)
  end.
Proof.
  destruct called as [[response|e] run']; cbn [save snd].
  - repeat split.
  - split; [reflexivity|now exists e].
Qed.

(** A turn that goes on to the next has sent no request. *)
Lemma validate_step_continue_requests (run run' : Run) (pos : nat)
    (queueItem : ValidationQueueItem) :
  validate_step builder run pos queueItem = Continue run' ->
  requests run' = requests run.
Proof.
  unfold validate_step.
  destruct (getClaimToken queueItem) as [made|e]; [|discriminate].
  destruct (lookup (TokenType_name (type made)) (tokenValidators builder))
    as [validator|]; [|discriminate].
  assert (Hcalled : forall subject contractId,
             requests (snd (call validator (with_token run made) queueItem
                                 subject contractId)) = requests run).
  { intros subject contractId.
    pose proof (call_run validator (with_token run made) queueItem subject contractId)
      as Hc. cbn zeta in Hc. now destruct Hc as (_ & _ & _ & _ & ->). }
  assert (Hsaved : forall called,
             requests (snd called) = requests run ->
             save pos made called = Continue run' ->
             requests run' = requests run).
  { intros called Hreq Hsave. pose proof (save_run pos made called) as Hs.
    rewrite Hsave in Hs. destruct Hs as (_ & _ & _ & _ & ->). exact Hreq. }
  destruct (type made); try discriminate;
    try (intros H; eapply Hsaved; [|exact H]; apply Hcalled);
    pose proof (Hcalled None None) as Hc;
    destruct (call validator (with_token run made) queueItem None None)
      as [[response|e] run2]; try discriminate; cbn [snd] in Hc.
  - destruct (result response).
    + match goal with
      | |- match ?m with Ok _ => _ | Throw _ => _ end = _ -> _ =>
          destruct m as [contractId|e]; [|discriminate]
      end.
      intros H. eapply Hsaved; [|exact H]. exact Hc.
    + intros H. eapply Hsaved; [|exact H]. exact Hc.
  - intros H. eapply Hsaved; [|exact H]. exact Hc.
  - intros H. eapply Hsaved; [|exact H]. exact Hc.
Qed.

(** A turn of the loop that does not return has handed the item to a
    validator, once, and recorded its claim token; it has sent no request;
    it has changed the DID of the SIOP only on an item of one of the three
    SIOP types and the contract id only on an item of type siopIssuance. *)
Theorem validate_step_continues (run run' : Run) (pos : nat)
    (queueItem : ValidationQueueItem) :
  validate_step builder run pos queueItem = Continue run' ->
  exists made,
    getClaimToken queueItem = Ok made
    /\ tokens run' = (tokens run ++ [made])%list
    /\ dispatched run' = (dispatched run ++ [id queueItem])%list
    /\ requests run' = requests run
    /\ (type made <> siopIssuance -> siopContractId run' = siopContractId run)
    /\ (type made <> siopIssuance ->
        type made <> siopPresentationAttestation ->
        type made <> siopPresentationExchange ->
        siopDid run' = siopDid run).
Proof.
  unfold validate_step.
  destruct (getClaimToken queueItem) as [made|e]; [|discriminate].
  destruct (lookup (TokenType_name (type made)) (tokenValidators builder))
    as [validator|]; [|discriminate].
  intros H. exists made. split; [reflexivity|].
  destruct (type made) eqn:Htype;
    try discriminate H;
    try (match type of H with
         | save _ _ (call ?v ?r ?i ?s ?c) = _ =>
             pose proof (save_run pos made (call v r i s c)) as Hsave;
             pose proof (call_run v r i s c) as Hcall;
             rewrite H in Hsave; cbn zeta in Hcall;
             destruct Hsave as (S1 & S2 & S3 & S4 & S5);
             destruct Hcall as (C1 & C2 & C3 & C4 & C5);
             rewrite S1, S2, S3, S4, S5, C1, C2, C3, C4, C5;
             repeat split; try reflexivity; try congruence
         end).
  - (* siopIssuance *)
    pose proof (call_run validator (with_token run made) queueItem None None) as Hcall.
    cbn zeta in Hcall.
    destruct (call validator (with_token run made) queueItem None None)
      as [[response|e] run2]; [|discriminate].
    cbn [snd] in Hcall. destruct Hcall as (C1 & C2 & C3 & C4 & C5).
    destruct (result response).
    + match type of H with
      | match ?m with Ok _ => _ | Throw _ => _ end = _ =>
          destruct m as [contractId|e]; [|discriminate]
      end.
      cbn [save] in H. injection H as <-. cbn.
      rewrite C1, C4, C5. repeat split; congruence.
    + cbn [save] in H. injection H as <-. cbn.
      rewrite C1, C3, C4, C5. repeat split; congruence.
  - (* siopPresentationAttestation *)
    pose proof (call_run validator (with_token run made) queueItem None None) as Hcall.
    cbn zeta in Hcall.
    destruct (call validator (with_token run made) queueItem None None)
      as [[response|e] run2]; [|discriminate].
    cbn [snd] in Hcall. destruct Hcall as (C1 & C2 & C3 & C4 & C5).
    cbn [save] in H. injection H as <-. cbn.
    rewrite C1, C3, C4, C5. repeat split; congruence.
  - (* siopPresentationExchange *)
    pose proof (call_run validator (with_token run made) queueItem None None) as Hcall.
    cbn zeta in Hcall.
    destruct (call validator (with_token run made) queueItem None None)
      as [[response|e] run2]; [|discriminate].
    cbn [snd] in Hcall. destruct Hcall as (C1 & C2 & C3 & C4 & C5).
    cbn [save] in H. injection H as <-. cbn.
    rewrite C1, C3, C4, C5. repeat split; congruence.
Qed.

End LoopMore.

(** ** Validator.validate: how a run ends *)

Section RunEnds.
Import Validator.
Context {R : Runtime} {Net : StatusServices}.
Variable builder : ValidatorBuilder.

(** A turn that returns a response returns a failure, and sends nothing. *)
Lemma validate_step_returns (run run' : Run) (pos : nat)
    (queueItem : ValidationQueueItem) (answer : res IValidationResponse) :
  validate_step builder run pos queueItem = Return answer run' ->
  requests run' = requests run
  /\ forall response, answer = Ok response -> result response = false.
Proof.
  unfold validate_step.
  destruct (getClaimToken queueItem) as [made|e].
  2:{ intros H. injection H as <- <-. split; [reflexivity|].
      intros response E. now injection E as <-. }
  destruct (lookup (TokenType_name (type made)) (tokenValidators builder))
    as [validator|].
  2:{ intros H. injection H as <- <-. split; [reflexivity|].
      intros response E. now injection E as <-. }
  assert (Hsaved : forall called,
             requests (snd called) = requests run ->
             save pos made called = Return answer run' ->
             requests run' = requests run
             /\ forall response, answer = Ok response -> result response = false).
  { intros called Hreq Hsave. pose proof (save_run pos made called) as Hs.
    rewrite Hsave in Hs. destruct Hs as [-> [e ->]]. split; [exact Hreq|discriminate]. }
  assert (Hcalled : forall subject contractId,
             requests (snd (call validator (with_token run made) queueItem
                                 subject contractId)) = requests run).
  { intros subject contractId.
    pose proof (call_run validator (with_token run made) queueItem subject contractId)
      as Hc. cbn zeta in Hc. now destruct Hc as (_ & _ & _ & _ & ->). }
  destruct (type made);
    try (intros H; eapply Hsaved; [|exact H]; apply Hcalled).
  - (* siopIssuance *)
    pose proof (Hcalled None None) as Hc.
    destruct (call validator (with_token run made) queueItem None None)
      as [[response|e] run2]; cbn [snd] in Hc.
    + destruct (result response).
      * match goal with
        | |- match ?m with Ok _ => _ | Throw _ => _ end = _ -> _ =>
            destruct m as [contractId|e]
        end.
        -- intros H. discriminate H.
        -- intros H. injection H as <- <-. split; [exact Hc|discriminate].
      * intros H. discriminate H.
    + intros H. injection H as <- <-. split; [exact Hc|discriminate].
  - (* siopPresentationAttestation *)
    pose proof (Hcalled None None) as Hc.
    destruct (call validator (with_token run made) queueItem None None)
      as [[response|e] run2]; cbn [snd] in Hc; intros H;
      [discriminate H|].
    injection H as <- <-. split; [exact Hc|discriminate].
  - (* siopPresentationExchange *)
    pose proof (Hcalled None None) as Hc.
    destruct (call validator (with_token run made) queueItem None None)
      as [[response|e] run2]; cbn [snd] in Hc; intros H;
      [discriminate H|].
    injection H as <- <-. split; [exact Hc|discriminate].
  - (* verifiablePresentationStatus *)
    intros H. injection H as <- <-. split; [reflexivity|].
    intros response E. now injection E as <-.
Qed.

(** When the first token cannot be classified, [validate] returns
    result=false with status 400 and the message of the error; no token
    validator has been called, no claim token recorded and no request sent. *)
Theorem validate_rejects_unclassified (fuel : nat) (seen : list ClaimToken)
    (token : json) (e : exn) :
  create token = Throw e ->
  exists run,
    validate builder (Datatypes.S fuel) seen token
    = Some (Ok {| result := false; status := 400;
                  detailedError := Some (message e);
                  payloadObject := None; did := None; tokensToValidate := None;
                  validationResult := None |}, run)
    /\ dispatched run = []
    /\ tokens run = seen
    /\ requests run = [].
Proof.
  intros Hcreate. eexists. split.
  - unfold validate. cbn [enqueueToken app queue getNextToken getNextToken_from
                            isValidated validate_loop].
    unfold validate_step, getClaimToken. cbn [claimToken tokenToValidate].
    rewrite Hcreate. reflexivity.
  - repeat split.
Qed.

(** An item whose claim token is of type verifiablePresentationStatus is
    refused even when a validator is registered for that type: the loop
    returns result=false with status 400 and "verifiablePresentationStatus
    is not supported", and the validator is not called. *)
Theorem validate_refuses_status_tokens (fuel : nat) (run : Run) (pos : nat)
    (queueItem : ValidationQueueItem) (made : ClaimToken)
    (validator : ITokenValidator) :
  getClaimToken queueItem = Ok made ->
  type made = verifiablePresentationStatus ->
  lookup "verifiablePresentationStatus" (tokenValidators builder) = Some validator ->
  exists run',
    validate_loop builder (Datatypes.S fuel) run pos queueItem
    = Some (Ok (failure 400 "verifiablePresentationStatus is not supported"), run')
    /\ dispatched run' = dispatched run
    /\ queue run' = queue run.
Proof.
  intros Hmade Htype Hvalidator. exists (with_token run made).
  cbn [validate_loop]. unfold validate_step.
  rewrite Hmade, Htype. cbn [TokenType_name]. rewrite Hvalidator.
  repeat split.
Qed.

(** The whole loop keeps the log of requests until the queue is drained. *)
Lemma validate_loop_ends (fuel : nat) (run run' : Run) (pos : nat)
    (queueItem : ValidationQueueItem) (answer : res IValidationResponse) :
  validate_loop builder fuel run pos queueItem = Some (answer, run') ->
  (requests run' = requests run
   /\ forall response, answer = Ok response -> result response = false)
  \/ exists drained,
       requests drained = requests run
       /\ getNextToken (queue drained) = None
       /\ set_output builder drained = (answer, run').
Proof.
  revert run pos queueItem.
  induction fuel as [|fuel IH]; intros run pos queueItem; [discriminate|].
  cbn [validate_loop].
  destruct (validate_step builder run pos queueItem) as [returned run1|run1] eqn:Hstep.
  - intros H. injection H as <- <-. left.
    exact (validate_step_returns _ _ _ _ _ Hstep).
  - pose proof (validate_step_continue_requests builder _ _ _ _ Hstep) as Hreq.
    destruct (getNextToken (queue run1)) as [[pos' next]|] eqn:Hnext.
    + intros H. destruct (IH _ _ _ H) as [[Hr Hfail]|(drained & Hr & Hd & Hout)].
      * left. split; [congruence|exact Hfail].
      * right. exists drained. repeat split; [congruence|exact Hd|exact Hout].
    + intros H. injection H as H. right. exists run1. repeat split; assumption.
Qed.

Lemma validate_ends (fuel : nat) (seen : list ClaimToken) (token : json)
    (answer : res IValidationResponse) (run : Run) :
  validate builder fuel seen token = Some (answer, run) ->
  (requests run = []
   /\ forall response, answer = Ok response -> result response = false)
  \/ exists drained,
       requests drained = []
       /\ getNextToken (queue drained) = None
       /\ set_output builder drained = (answer, run).
Proof.
  unfold validate.
  cbn [enqueueToken app queue getNextToken getNextToken_from isValidated].
  intros H. exact (validate_loop_ends _ _ _ _ _ _ H).
Qed.

(** With the status check disabled, a run of [validate] sends no request,
    however it ends. *)
Theorem validate_sends_nothing_when_disabled (fuel : nat) (seen : list ClaimToken)
    (token : json) (answer : res IValidationResponse) (run : Run) :
  featureVerifiedCredentialsStatusCheckEnabled builder = false ->
  validate builder fuel seen token = Some (answer, run) ->
  requests run = [].
Proof.
  intros Hflag H.
  destruct (validate_ends _ _ _ _ _ H) as [[Hr _]|(drained & Hr & _ & Hout)];
    [exact Hr|].
  unfold set_output, checkVcsStatus in Hout. rewrite Hflag in Hout. cbn [negb] in Hout.
  destruct (result (getResult (queue drained))).
  - destruct (setValidationResult (queue drained)); injection Hout as _ <-;
      [cbn|]; exact Hr.
  - injection Hout as _ <-. exact Hr.
Qed.

(** [validate] answers result=true only at the end of a run in which the
    queue was drained and every item succeeded; the answer then has status
    200, no detailed error, and carries the assembled validation result. *)
Theorem validate_success_shape (fuel : nat) (seen : list ClaimToken)
    (token : json) (response : IValidationResponse) (run : Run) :
  validate builder fuel seen token = Some (Ok response, run) ->
  result response = true ->
  status response = 200%Z
  /\ detailedError response = None
  /\ getNextToken (queue run) = None
  /\ result (getResult (queue run)) = true
  /\ exists assembled statuses,
       setValidationResult (queue run) = Ok assembled
       /\ validationResult response = Some (with_status assembled statuses).
Proof.
  intros H Hok.
  destruct (validate_ends _ _ _ _ _ H) as [[_ Hfail]|(drained & _ & Hd & Hout)].
  { rewrite (Hfail response eq_refl) in Hok. discriminate. }
  unfold set_output in Hout.
  destruct (result (getResult (queue drained))) eqn:Hall.
  - destruct (setValidationResult (queue drained)) as [assembled|e] eqn:Hassembled;
      [|discriminate].
    destruct (checkVcsStatus builder assembled (requests drained))
      as [[statusResponse|e] log]; [|discriminate].
    destruct (result statusResponse) eqn:Hstatus.
    + injection Hout as <- <-. cbn. repeat split; try assumption.
      exists assembled, (statuses_of statusResponse). now split.
    + injection Hout as <- <-. rewrite Hstatus in Hok. discriminate.
  - injection Hout as <- <-. rewrite Hall in Hok. discriminate.
Qed.

End RunEnds.

(** ** Validator.setValidationResult: the groups of the result *)

Section ResultGroups.
Import Validator.

Lemma TokenType_eqb_eq (a b : TokenType) : TokenType_eqb a b = true -> a = b.
Proof. destruct a, b; (reflexivity || discriminate). Qed.

Lemma has_type_validated (T : TokenType) (item : ValidationQueueItem) :
  has_type T item = true ->
  exists token, validatedToken item = Some token /\ type token = T.
Proof.
  unfold has_type, validated_type.
  destruct (validatedToken item) as [token|]; cbn [option_map]; [|discriminate].
  intros H. exists token. split; [reflexivity|now apply TokenType_eqb_eq].
Qed.

Lemma In_assign {A : Type} (k k' : string) (v v' : A) (o : list (string * A)) :
  In (k', v') (assign k v o) -> (k', v') = (k, v) \/ In (k', v') o.
Proof.
  induction o as [|[k0 v0] rest IH]; simpl.
  - intuition.
  - destruct (k =? k0); simpl; intuition.
Qed.

Lemma lookup_assign {A : Type} (k k' : string) (v : A) (o : list (string * A)) :
  lookup k (assign k' v o) = if k =? k' then Some v else lookup k o.
Proof.
  induction o as [|[k0 v0] rest IH]; simpl; [reflexivity|].
  destruct (k' =? k0) eqn:E; simpl.
  - apply String.eqb_eq in E. subst k0. now destruct (k =? k').
  - rewrite IH. destruct (k =? k0) eqn:E0; [|reflexivity].
    apply String.eqb_eq in E0. subst k0. rewrite String.eqb_sym in E.
    now rewrite E.
Qed.

Lemma tokens_by_id_last (l : list ValidationQueueItem) (item : ValidationQueueItem) :
  tokens_by_id (l ++ [item])
  = match validatedToken item with
    | Some token => assign (id item) token (tokens_by_id l)
    | None => tokens_by_id l
    end.
Proof. unfold tokens_by_id. now rewrite fold_left_app. Qed.

(** What the map that [tokens_by_id] builds has at an id: the validated
    token of the last item with that id. *)
Lemma tokens_by_id_lookup (T : TokenType) (l : list ValidationQueueItem)
    (k : string) :
  Forall (fun item => has_type T item = true) l ->
  lookup k (tokens_by_id l)
  = match find (fun item => id item =? k) (rev l) with
    | Some item => validatedToken item
    | None => None
    end.
Proof.
  induction l as [|item l IH] using rev_ind; intros Hall; [reflexivity|].
  apply Forall_app in Hall. destruct Hall as [Hl Hitem].
  inversion Hitem as [|? ? Htyped _]; subst.
  destruct (has_type_validated _ _ Htyped) as (token & Htoken & _).
  rewrite tokens_by_id_last, Htoken, lookup_assign, rev_app_distr.
  cbn [rev app find]. rewrite (String.eqb_sym (id item) k).
  destruct (k =? id item); [now rewrite Htoken|exact (IH Hl)].
Qed.

(** The map that [tokens_by_id] builds of the items of one type. *)
Lemma tokens_by_id_groups (T : TokenType) (l : list ValidationQueueItem) :
  Forall (fun item => has_type T item = true) l ->
  same_ids (tokens_by_id l) (map id l)
  /\ NoDup (map fst (tokens_by_id l))
  /\ (forall k t, In (k, t) (tokens_by_id l) -> type t = T).
Proof.
  unfold tokens_by_id, same_ids.
  assert (Hgen : forall acc,
             Forall (fun item => has_type T item = true) l ->
             let m := fold_left
                        (fun acc item =>
                           match validatedToken item with
                           | Some token => assign (id item) token acc
                           | None => acc
                           end) l acc in
             (forall k, In k (map fst m) <-> In k (map fst acc) \/ In k (map id l))
             /\ (NoDup (map fst acc) -> NoDup (map fst m))
             /\ ((forall k t, In (k, t) acc -> type t = T) ->
                 forall k t, In (k, t) m -> type t = T)).
  { induction l as [|item l IH]; intros acc Hall; cbn zeta.
    - simpl. intuition.
    - inversion Hall as [|? ? Hitem Hrest]; subst.
      destruct (has_type_validated _ _ Hitem) as (token & Htoken & Htype).
      cbn [fold_left map]. rewrite Htoken.
      destruct (IH (assign (id item) token acc) Hrest) as (Hids & Hdup & Htypes).
      cbn zeta in Hids, Hdup, Htypes. repeat split.
      + rewrite Hids, In_assign_keys. simpl. intuition.
      + rewrite Hids, In_assign_keys. simpl. intuition.
      + intros Hacc. apply Hdup. now apply NoDup_assign.
      + intros Hacc. apply Htypes. intros k t Hin.
        destruct (In_assign _ _ _ _ _ Hin) as [E|Hin']; [|now apply (Hacc k)].
        now injection E as -> ->. }
  intros Hall. destruct (Hgen [] Hall) as (Hids & Hdup & Htypes).
  cbn zeta in Hids, Hdup, Htypes. repeat split.
  - rewrite Hids. simpl. intuition.
  - rewrite Hids. simpl. intuition.
  - apply Hdup. constructor.
  - apply Htypes. intros k t [].
Qed.

Lemma filter_Forall {A : Type} (f : A -> bool) (l : list A) :
  Forall (fun x => f x = true) (filter f l).
Proof.
  induction l as [|x l IH]; simpl; [constructor|].
  destruct (f x) eqn:E; [constructor; assumption|assumption].
Qed.

(** The list that [validated_tokens] makes of the items of one type: the
    validated token of each item, in order. *)
Lemma validated_tokens_typed (T : TokenType) (l : list ValidationQueueItem) :
  Forall (fun item => has_type T item = true) l ->
  map Some (validated_tokens l) = map validatedToken l
  /\ Forall (fun t => type t = T) (validated_tokens l).
Proof.
  unfold validated_tokens.
  induction 1 as [|x l Hx Hl IH]; [split; constructor|].
  destruct (has_type_validated _ _ Hx) as (token & Htoken & Htype).
  cbn [flat_map map]. rewrite Htoken. cbn [app map]. destruct IH as [IHl IHf].
  split; [now rewrite IHl|now constructor].
Qed.

(** The fields of a result that [setValidationResult] returns. *)
Lemma setValidationResult_inv (items : ValidationQueue) (assembled : IValidationResult) :
  setValidationResult items = Ok assembled ->
  exists siopDids contracts jtis,
    map_res response_did (filter (fun item => isSiop (validated_type item)) items)
    = Ok siopDids
    /\ map_res (response_payload "contract")
               (filter (fun item => isSiop (validated_type item)) items) = Ok contracts
    /\ map_res (response_payload "jti")
               (filter (fun item => isSiop (validated_type item)) items) = Ok jtis
    /\ (truthy (first siopDids) = true ->
        vr_did assembled = first siopDids)
    /\ (truthy (first siopDids) = false ->
        exists auds,
          map_res validated_aud (filter (has_type verifiableCredential) items) = Ok auds
          /\ vr_did assembled = if truthy (first auds) then first auds else Some (JStr ""))
    /\ vr_contract assembled
       = (if truthy (first contracts) then first contracts else Some (JStr ""))
    /\ vr_siopJti assembled
       = match first jtis with
         | None | Some JNull => Some (JStr "")
         | Some jti => Some jti
         end
    /\ vr_idTokens assembled
       = match filter (has_type idToken) items with
         | [] => None
         | _ => Some (validated_tokens (filter (has_type idToken) items))
         end
    /\ vr_verifiableCredentials assembled
       = match filter (has_type verifiableCredential) items with
         | [] => None
         | _ => Some (tokens_by_id (filter (has_type verifiableCredential) items))
         end
    /\ vr_verifiablePresentations assembled
       = match filter (has_type verifiablePresentation) items with
         | [] => None
         | _ => Some (tokens_by_id (filter (has_type verifiablePresentation) items))
         end
    /\ vr_siop assembled
       = match filter (fun item => isSiop (validated_type item)) items with
         | [] => None
         | item :: _ => validatedToken item
         end
    /\ vr_verifiablePresentationStatus assembled = None.
Proof.
  unfold setValidationResult.
  destruct (map_res response_did _) as [siopDids|e]; cbn [bind]; [|discriminate].
  destruct (truthy (first siopDids)) eqn:Hdid; cbn [negb bind].
  - destruct (map_res (response_payload "contract") _) as [contracts|e];
      cbn [bind]; [|discriminate].
    destruct (map_res (response_payload "jti") _) as [jtis|e];
      cbn [bind]; [|discriminate].
    intros H. injection H as <-. exists siopDids, contracts, jtis. cbn.
    rewrite Hdid. repeat split; try reflexivity. discriminate.
  - destruct (map_res validated_aud _) as [auds|e]; cbn [bind]; [|discriminate].
    destruct (map_res (response_payload "contract") _) as [contracts|e];
      cbn [bind]; [|discriminate].
    destruct (map_res (response_payload "jti") _) as [jtis|e];
      cbn [bind]; [|discriminate].
    intros H. injection H as <-. exists siopDids, contracts, jtis. cbn.
    repeat split; try reflexivity;
      [intros E; congruence | intros _; exists auds; now split].
Qed.

(** For a queue in which no item has the id [__proto__], the assembled
    result groups the validated credentials and the validated presentations
    by the id of their queue item: a field is absent when the queue has no
    item of its type, and is otherwise a map that has, at the id of every
    item of the type and nowhere else, the validated token of the last item
    with that id.  The id tokens are the validated tokens of the id-token
    items, in the order of the queue; and the result carries no status of
    its own. *)
Theorem setValidationResult_groups (items : ValidationQueue)
    (assembled : IValidationResult) :
  ordinary_ids (map id items) ->
  setValidationResult items = Ok assembled ->
  groups_by_id verifiableCredential items (vr_verifiableCredentials assembled)
  /\ groups_by_id verifiablePresentation items (vr_verifiablePresentations assembled)
  /\ match vr_idTokens assembled with
     | None => filter (has_type idToken) items = []
     | Some found =>
         filter (has_type idToken) items <> []
         /\ map Some found = map validatedToken (filter (has_type idToken) items)
         /\ Forall (fun t => type t = idToken) found
     end
  /\ vr_verifiablePresentationStatus assembled = None.
Proof.
  intros _ H.
  destruct (setValidationResult_inv _ _ H)
    as (siopDids & contracts & jtis & _ & _ & _ & _ & _ & _ & _
        & Hid & Hvc & Hvp & _ & Hstatus).
  assert (Hgroup : forall T field,
             field = match filter (has_type T) items with
                     | [] => None
                     | _ => Some (tokens_by_id (filter (has_type T) items))
                     end ->
             groups_by_id T items field).
  { intros T field ->. unfold groups_by_id, filed_under.
    pose proof (filter_Forall (has_type T) items) as Hall.
    destruct (tokens_by_id_groups T _ Hall) as (Hids & Hdup & Htyped).
    pose proof (fun k => tokens_by_id_lookup T _ k Hall) as Hlookup.
    destruct (filter (has_type T) items) as [|item rest] eqn:E; [reflexivity|].
    split; [discriminate|]. repeat split; try assumption; apply Hids. }
  repeat split; try (apply Hgroup; assumption); try assumption.
  rewrite Hid.
  pose proof (filter_Forall (has_type idToken) items) as Hall.
  destruct (filter (has_type idToken) items) as [|item rest] eqn:E; [reflexivity|].
  split; [discriminate|]. exact (validated_tokens_typed idToken _ Hall).
Qed.

(** When the queue has no validated item of type siopIssuance or
    siopPresentationAttestation, the assembled result has the empty string
    for its contract and its jti and no siop token, and its did is the
    audience of the first validated credential, or the empty string when
    that audience is falsy or the queue has no validated credential. *)
Theorem setValidationResult_without_siop (items : ValidationQueue)
    (assembled : IValidationResult) :
  filter (fun item => isSiop (validated_type item)) items = [] ->
  setValidationResult items = Ok assembled ->
  vr_did assembled = fallback_did items
  /\ vr_contract assembled = Some (JStr "")
  /\ vr_siopJti assembled = Some (JStr "")
  /\ vr_siop assembled = None.
Proof.
  intros Hnone H.
  destruct (setValidationResult_inv _ _ H)
    as (siopDids & contracts & jtis & Hdids & Hcontracts & Hjtis & _ & Hdid
        & Hcontract & Hjti & _ & _ & _ & Hsiop & _).
  rewrite Hnone in Hdids, Hcontracts, Hjtis, Hsiop.
  cbn [map_res] in Hdids, Hcontracts, Hjtis.
  injection Hdids as <-. injection Hcontracts as <-. injection Hjtis as <-.
  repeat split; try assumption.
  destruct (Hdid eq_refl) as (auds & Hauds & ->).
  unfold fallback_did.
  pose proof (filter_Forall (has_type verifiableCredential) items) as Hall.
  destruct (filter (has_type verifiableCredential) items) as [|item rest].
  - cbn [map_res] in Hauds. injection Hauds as <-. reflexivity.
  - inversion Hall as [|? ? Hitem _]; subst.
    destruct (has_type_validated _ _ Hitem) as (token & Htoken & _).
    cbn [map_res] in Hauds. unfold validated_aud in Hauds at 1.
    rewrite Htoken in *.
    destruct (get (Some (decodedToken token)) "aud") as [aud|e] eqn:Haud;
      cbn [bind] in Hauds; [|discriminate].
    destruct (map_res validated_aud rest) as [others|e]; cbn [bind] in Hauds;
      [|discriminate].
    injection Hauds as <-. cbn [first].
    destruct (decodedToken token) eqn:Hd; try discriminate Haud;
      cbn [get] in Haud; injection Haud as <-; reflexivity.
Qed.

End ResultGroups.

(** ** Validator.checkVpStatus *)

Section VpStatus.
Import Validator.
Context {R : Runtime} {Net : StatusServices}.

Lemma created_payload_not_null (token : json) (made : ClaimToken) :
  create token = Ok made -> decodedToken made <> JNull.
Proof.
  intros H.
  destruct (create_made _ _ H)
    as (raw & header_segment & payload_segment & after_payload & payload & t
        & _ & Hsplit & Hpayload & Hnull & Hnew & _).
  destruct (new_ClaimToken_raw_inv _ _ _ _ _ _ _ Hsplit Hpayload Hnew) as [_ ->].
  exact Hnull.
Qed.

(** The loop passes over credentials without a status URL. *)
Lemma checkVpStatus_loop_skips (publicKey : json) (vp : ClaimToken)
    (before rest : list (string * json)) (statuses : list (string * json))
    (log : list (value * string)) :
  Forall without_status_url before ->
  checkVpStatus_loop publicKey vp (before ++ rest) statuses log
  = checkVpStatus_loop publicKey vp rest statuses log.
Proof.
  induction 1 as [|entry before Hentry _ IH]; [reflexivity|].
  destruct entry as [k raw]. destruct Hentry as (made & Hmade & Hurl).
  cbn [app checkVpStatus_loop]. cbn [snd] in Hmade. rewrite Hmade.
  rewrite (get_not_null _ _ (created_payload_not_null _ _ Hmade)).
  unfold credential_status_url in Hurl. rewrite Hurl. exact IH.
Qed.

Lemma entries_truthy (v : value) : entries v <> [] -> truthy v = true.
Proof.
  destruct v as [[| | |s| |]|]; simpl; try congruence.
  destruct s; simpl; congruence.
Qed.

(** A presentation whose credentials expose no status URL (in particular
    one that presents no credential) passes the status check with an empty
    map of statuses, and nothing is requested. *)
Theorem checkVpStatus_without_status_urls (vp : ClaimToken) (publicKey : json)
    (log : list (value * string)) :
  keyStore_publicKey = Ok publicKey ->
  decodedToken vp <> JNull ->
  Forall without_status_url (entries (presented_credentials vp)) ->
  checkVpStatus vp log = (Ok (status_success []), log).
Proof.
  intros Hkey Hnull Hall. unfold checkVpStatus.
  rewrite Hkey, (get_not_null _ _ Hnull). fold (presented_credentials vp).
  destruct (truthy (presented_credentials vp)); [|reflexivity].
  rewrite <- (app_nil_r (entries (presented_credentials vp))).
  now rewrite (checkVpStatus_loop_skips _ _ _ [] _ _ Hall).
Qed.

(** The check of a presentation stops at the first credential with a
    status URL whose status cannot be established: when the endpoint does
    not answer ok, with status 403 and "status check could not fetch
    response from <url>"; when the receipt is not valid, with status 403
    and the detailed error of the receipt validation.  In both cases that
    one request is all that has been sent. *)
Theorem checkVpStatus_stops_at_failure (vp : ClaimToken) (publicKey : json)
    (log : list (value * string)) (before after : list (string * json))
    (k : string) (raw : json) (credential : ClaimToken) (body : string)
    (response : FetchResponse) :
  keyStore_publicKey = Ok publicKey ->
  decodedToken vp <> JNull ->
  entries (presented_credentials vp) = (before ++ (k, raw) :: after)%list ->
  Forall without_status_url before ->
  create raw = Ok credential ->
  truthy (credential_status_url credential) = true ->
  sign_request publicKey vp = Ok body ->
  fetch (credential_status_url credential) body = Ok response ->
  (ok response = false ->
   checkVpStatus vp log
   = (Ok (failure 403 ("status check could not fetch response from "
                         ++ template (credential_status_url credential))),
      (log ++ [(credential_status_url credential, body)])%list))
  /\ (forall receipt receipts,
         ok response = true ->
         response_json response = Ok receipt ->
         receipt_validate receipt (property (decodedToken credential) "iss")
         = Ok receipts ->
         result receipts = false ->
         checkVpStatus vp log
         = (Ok {| result := false; status := 403;
                  detailedError := detailedError receipts;
                  payloadObject := None; did := None; tokensToValidate := None;
                  validationResult := None |},
            (log ++ [(credential_status_url credential, body)])%list)).
Proof.
  intros Hkey Hnull Hentries Hbefore Hmade Hurl Hsign Hfetch.
  assert (Hloop : checkVpStatus vp log
                  = checkVpStatus_loop publicKey vp ((k, raw) :: after) [] log).
  { unfold checkVpStatus.
    rewrite Hkey, (get_not_null _ _ Hnull). fold (presented_credentials vp).
    rewrite (entries_truthy (presented_credentials vp)), Hentries.
    - apply checkVpStatus_loop_skips. exact Hbefore.
    - rewrite Hentries. now destruct before. }
  rewrite Hloop. cbn [checkVpStatus_loop]. rewrite Hmade.
  rewrite (get_not_null _ _ (created_payload_not_null _ _ Hmade)).
  unfold credential_status_url in *. rewrite Hurl, Hsign, Hfetch.
  split.
  - intros Hok. now rewrite Hok.
  - intros receipt receipts Hok Hjson Hvalid Hfailed.
    now rewrite Hok, Hjson, Hvalid, Hfailed.
Qed.

Lemma sent_for_nil (publicKey : json) (vp : ClaimToken) (vcs : list (string * json)) :
  sent_for publicKey vp vcs [].
Proof. split; [simpl; lia|intros ? []]. Qed.

Lemma sent_for_skip (publicKey : json) (vp : ClaimToken) (entry : string * json)
    (vcs : list (string * json)) (sent : list (value * string)) :
  sent_for publicKey vp vcs sent -> sent_for publicKey vp (entry :: vcs) sent.
Proof.
  intros [Hlen Hreq]. split; [simpl; lia|].
  intros request Hin. destruct (Hreq _ Hin) as (Ht & Hs & k & raw & c & Hin' & Hc).
  repeat split; try assumption. exists k, raw, c. split; [now right|exact Hc].
Qed.

Lemma sent_for_cons (publicKey : json) (vp : ClaimToken) (k : string) (raw : json)
    (credential : ClaimToken) (body : string) (vcs : list (string * json))
    (sent : list (value * string)) :
  create raw = Ok credential ->
  truthy (credential_status_url credential) = true ->
  sign_request publicKey vp = Ok body ->
  sent_for publicKey vp vcs sent ->
  sent_for publicKey vp ((k, raw) :: vcs)
           ((credential_status_url credential, body) :: sent).
Proof.
  intros Hmade Hurl Hsign Hsent.
  destruct (sent_for_skip _ _ (k, raw) _ _ Hsent) as [Hlen Hreq].
  destruct Hsent as [Hlen' _].
  split; [simpl; lia|].
  intros request [<-|Hin]; [|now apply Hreq].
  cbn [fst snd]. repeat split; try assumption.
  exists k, raw, credential. split; [now left|now split].
Qed.

(** The requests of the loop, whatever it answers. *)
Lemma checkVpStatus_loop_requests (publicKey : json) (vp : ClaimToken)
    (vcs : list (string * json)) :
  forall statuses log answer log',
    checkVpStatus_loop publicKey vp vcs statuses log = (answer, log') ->
    exists sent, log' = (log ++ sent)%list /\ sent_for publicKey vp vcs sent.
Proof.
  induction vcs as [|[k raw] vcs IH]; intros statuses log answer log' H.
  - cbn in H. injection H as _ <-. exists []. rewrite app_nil_r.
    split; [reflexivity|apply sent_for_nil].
  - assert (Hnone : log' = log ->
                    exists sent, log' = (log ++ sent)%list
                                 /\ sent_for publicKey vp ((k, raw) :: vcs) sent).
    { intros ->. exists []. rewrite app_nil_r.
      split; [reflexivity|apply sent_for_nil]. }
    cbn [checkVpStatus_loop] in H.
    destruct (create raw) as [credential|e] eqn:Hmade;
      [|injection H as _ <-; now apply Hnone].
    destruct (get (Some (decodedToken credential)) "iss") as [issuer|e];
      [|injection H as _ <-; now apply Hnone].
    fold (credential_status_url credential) in H.
    destruct (truthy (credential_status_url credential)) eqn:Hurl.
    2:{ destruct (IH _ _ _ _ H) as (sent & -> & Hsent).
        exists sent. split; [reflexivity|now apply sent_for_skip]. }
    destruct (sign_request publicKey vp) as [body|e] eqn:Hsign;
      [|injection H as _ <-; now apply Hnone].
    assert (Hone : log' = (log ++ [(credential_status_url credential, body)])%list ->
                   exists sent, log' = (log ++ sent)%list
                                /\ sent_for publicKey vp ((k, raw) :: vcs) sent).
    { intros ->. exists [(credential_status_url credential, body)].
      split; [reflexivity|].
      apply sent_for_cons; try assumption. apply sent_for_nil. }
    destruct (fetch (credential_status_url credential) body) as [response|e];
      [|injection H as _ <-; now apply Hone].
    destruct (negb (ok response)); [injection H as _ <-; now apply Hone|].
    destruct (response_json response) as [receipt|e];
      [|injection H as _ <-; now apply Hone].
    destruct (receipt_validate receipt issuer) as [receipts|e];
      [|injection H as _ <-; now apply Hone].
    destruct (negb (result receipts)); [injection H as _ <-; now apply Hone|].
    destruct (IH _ _ _ _ H) as (sent & -> & Hsent).
    exists ((credential_status_url credential, body) :: sent).
    split; [now rewrite <- app_assoc|].
    now apply sent_for_cons.
Qed.

(** The requests of the check of one presentation: none, or requests for
    its credentials signed with the key of the key store. *)
Lemma checkVpStatus_sent (vp : ClaimToken) (log log' : list (value * string))
    (answer : res IValidationResponse) :
  checkVpStatus vp log = (answer, log') ->
  log' = log
  \/ exists publicKey sent,
       keyStore_publicKey = Ok publicKey
       /\ log' = (log ++ sent)%list
       /\ sent_for publicKey vp (entries (presented_credentials vp)) sent.
Proof.
  unfold checkVpStatus.
  destruct keyStore_publicKey as [publicKey|e] eqn:Hkey;
    [|intros H; injection H as _ <-; now left].
  destruct (get (Some (decodedToken vp)) "vp") as [vpClaim|e] eqn:Hvp;
    [|intros H; injection H as _ <-; now left].
  assert (Hclaim : vpClaim = property (decodedToken vp) "vp").
  { destruct (decodedToken vp); try discriminate Hvp; cbn [get] in Hvp;
      now injection Hvp as <-. }
  subst vpClaim. fold (presented_credentials vp).
  destruct (truthy (presented_credentials vp));
    [|intros H; injection H as _ <-; now left].
  intros H.
  destruct (checkVpStatus_loop_requests publicKey vp _ _ _ _ _ H)
    as (sent & -> & Hsent).
  right. now exists publicKey, sent.
Qed.

Lemma sent_for_status_requests (vp : ClaimToken) (publicKey : json)
    (sent : list (value * string)) :
  keyStore_publicKey = Ok publicKey ->
  sent_for publicKey vp (entries (presented_credentials vp)) sent ->
  Forall (status_request_of vp) sent.
Proof.
  intros Hkey [_ Hreq]. apply Forall_forall. intros request Hin.
  destruct (Hreq _ Hin) as (Ht & Hs & Hc).
  unfold status_request_of. repeat split; try assumption.
  now exists publicKey.
Qed.


End VpStatus.

(** ** Validator.checkVcsStatus: the requests *)

Section VcsStatus.
Import Validator.
Context {R : Runtime} {Net : StatusServices}.
Variable builder : ValidatorBuilder.

Lemma checkVcsStatus_loop_requests (vps : list (string * ClaimToken)) :
  forall receipts log answer log',
    checkVcsStatus_loop vps receipts log = (answer, log') ->
    exists sent,
      log' = (log ++ sent)%list
      /\ Forall (fun request =>
                   exists k vp, In (k, vp) vps /\ status_request_of vp request)
                sent.
Proof.
  induction vps as [|[k vp] vps IH]; intros receipts log answer log' H.
  - cbn in H. injection H as _ <-. exists []. now rewrite app_nil_r.
  - cbn [checkVcsStatus_loop] in H.
    destruct (checkVpStatus vp log) as [[response|e] log1] eqn:Hvp;
      (assert (Hone : exists sent1, log1 = (log ++ sent1)%list
                                    /\ Forall (status_request_of vp) sent1)
        by (destruct (checkVpStatus_sent _ _ _ _ Hvp)
              as [->|(publicKey & sent1 & Hkey & -> & Hfor)];
            [exists []; now rewrite app_nil_r
            |exists sent1; split;
             [reflexivity|exact (sent_for_status_requests _ _ _ Hkey Hfor)]]));
      destruct Hone as (sent1 & -> & Hsent1).
    + assert (Hhere : Forall (fun request =>
                                exists k' vp', In (k', vp') ((k, vp) :: vps)
                                               /\ status_request_of vp' request)
                             sent1).
      { apply Forall_forall. intros request Hin. exists k, vp.
        split; [now left|]. now apply (proj1 (Forall_forall _ _) Hsent1). }
      destruct (negb (result response)).
      * injection H as _ <-. now exists sent1.
      * destruct (IH _ _ _ _ H) as (sent & -> & Hsent).
        exists (sent1 ++ sent)%list. split; [now rewrite app_assoc|].
        apply Forall_app. split; [exact Hhere|].
        apply Forall_forall. intros request Hin.
        destruct (proj1 (Forall_forall _ _) Hsent _ Hin) as (k' & vp' & Hin' & Hreq).
        exists k', vp'. split; [now right|exact Hreq].
    + injection H as _ <-. exists sent1. split; [reflexivity|].
      apply Forall_forall. intros request Hin. exists k, vp.
      split; [now left|]. now apply (proj1 (Forall_forall _ _) Hsent1).
Qed.

(** The status check only adds to the log of requests, and every request
    it sends is the signed status request of one of the presentations of
    the validation result, sent to the status URL of one of the credentials
    that this presentation carries. *)
Theorem checkVcsStatus_requests (validationResult : IValidationResult)
    (log log' : list (value * string)) (answer : res IValidationResponse) :
  checkVcsStatus builder validationResult log = (answer, log') ->
  exists sent,
    log' = (log ++ sent)%list
    /\ Forall (fun request =>
                 exists presentations k vp,
                   vr_verifiablePresentations validationResult = Some presentations
                   /\ In (k, vp) presentations
                   /\ status_request_of vp request)
              sent.
Proof.
  unfold checkVcsStatus.
  assert (Hnone : log' = log ->
                  exists sent,
                    log' = (log ++ sent)%list
                    /\ Forall (fun request =>
                                 exists presentations k vp,
                                   vr_verifiablePresentations validationResult
                                   = Some presentations
                                   /\ In (k, vp) presentations
                                   /\ status_request_of vp request)
                              sent).
  { intros ->. exists []. now rewrite app_nil_r. }
  destruct (negb (featureVerifiedCredentialsStatusCheckEnabled builder));
    [intros H; injection H as _ <-; now apply Hnone|].
  destruct (vr_verifiablePresentations validationResult) as [vps|];
    [|intros H; injection H as _ <-; now apply Hnone].
  destruct (vr_verifiableCredentials validationResult);
    [|intros H; injection H as _ <-; now apply Hnone].
  intros H. destruct (checkVcsStatus_loop_requests _ _ _ _ _ H) as (sent & -> & Hsent).
  exists sent. split; [reflexivity|].
  apply Forall_forall. intros request Hin.
  destruct (proj1 (Forall_forall _ _) Hsent _ Hin) as (k & vp & Hin' & Hreq).
  now exists vps, k, vp.
Qed.

End VcsStatus.

(** ** Validator.validate: whole runs *)

Section WholeRuns.
Import Validator.
Context {R : Runtime} {Net : StatusServices}.
Variable builder : ValidatorBuilder.

(** A run on a lone verifiable credential that its validator accepts
    (without touching the queue), the status check being disabled: the
    answer is result=true with status 200; the result has the audience of
    the credential for its did (the empty string when that is falsy), the
    empty string for its contract and jti, and the credential filed under
    the id [siop] of the first queue item. *)
Theorem validate_lone_credential (fuel : nat) (seen : list ClaimToken)
    (token : json) (made : ClaimToken) (validator : ITokenValidator)
    (response : IValidationResponse) :
  create token = Ok made ->
  type made = verifiableCredential ->
  lookup "verifiableCredential" (tokenValidators builder) = Some validator ->
  (forall q item, validator_validate validator q item None None = (Ok response, q)) ->
  result response = true ->
  featureVerifiedCredentialsStatusCheckEnabled builder = false ->
  exists run,
    validate builder (Datatypes.S fuel) seen token
    = Some (Ok (validated
                  {| vr_did := if truthy (property (decodedToken made) "aud")
                               then property (decodedToken made) "aud"
                               else Some (JStr "");
                     vr_contract := Some (JStr "");
                     vr_siopJti := Some (JStr "");
                     vr_idTokens := None;
                     vr_verifiableCredentials := Some [("siop", made)];
                     vr_verifiablePresentations := None;
                     vr_selfIssued := None;
                     vr_siop := None;
                     vr_verifiablePresentationStatus := None |}), run)
    /\ dispatched run = ["siop"]
    /\ tokens run = (seen ++ [made])%list
    /\ requests run = [].
Proof.
  intros Hmade Htype Hvalidator Haccepts Hok Hflag.
  pose proof (created_payload_not_null _ _ Hmade) as Hnull.
  eexists. split.
  - unfold validate.
    cbn [enqueueToken app queue getNextToken getNextToken_from isValidated
           validate_loop].
    unfold validate_step, getClaimToken. cbn [claimToken tokenToValidate].
    rewrite Hmade, Htype. cbn [TokenType_name]. rewrite Hvalidator.
    unfold call. cbn [queue with_token siopDid]. rewrite Haccepts.
    cbn [save with_queue with_dispatched queue setResult_at setResult
           getNextToken getNextToken_from isValidated].
    unfold set_output. cbn -[get]. rewrite Hok.
    unfold setValidationResult, has_type, validated_type.
    cbn -[get]. rewrite Htype. cbn -[get].
    unfold validated_aud. cbn -[get]. rewrite (get_not_null _ _ Hnull). cbn -[get].
    unfold checkVcsStatus. rewrite Hflag. cbn. reflexivity.
  - repeat split.
Qed.

(** A run on an issuance SIOP with the SIOP token validator registered,
    nothing being expected of nonce and state and the status check being
    disabled: when the validation of the SIOP accepts it with a DID and a
    payload that has neither attestations nor a presentation submission,
    and the contract of the payload is a URL, the answer is result=true with
    status 200; the result has the DID of the response, the contract and
    the jti of the payload, and the SIOP token; and the run has recorded
    the DID and the contract id read off the contract URL. *)
Theorem validate_issuance (fuel : nat) (seen : list ClaimToken)
    (token : json) (made : ClaimToken)
    (siopValidation : json -> res IValidationResponse) (expected : IExpectedSiop)
    (response : IValidationResponse) (payload : json) (d contractId : string) :
  create token = Ok made ->
  type made = siopIssuance ->
  lookup "siopIssuance" (tokenValidators builder)
  = Some (siop_token_validator siopValidation expected) ->
  siopValidation token = Ok response ->
  result response = true ->
  payloadObject response = Some payload -> payload <> JNull ->
  truthy (property payload "attestations") = false ->
  truthy (property payload "presentation_submission") = false ->
  tokensToValidate response = None ->
  did response = Some d -> d <> "" ->
  set_string (nonce expected) = false ->
  set_string (state expected) = false ->
  readContractId (property payload "contract") = Ok contractId ->
  featureVerifiedCredentialsStatusCheckEnabled builder = false ->
  exists run,
    validate builder (Datatypes.S fuel) seen token
    = Some (Ok (validated
                  {| vr_did := Some (JStr d);
                     vr_contract := if truthy (property payload "contract")
                                    then property payload "contract"
                                    else Some (JStr "");
                     vr_siopJti := match property payload "jti" with
                                   | None | Some JNull => Some (JStr "")
                                   | Some jti => Some jti
                                   end;
                     vr_idTokens := None;
                     vr_verifiableCredentials := None;
                     vr_verifiablePresentations := None;
                     vr_selfIssued := None;
                     vr_siop := Some made;
                     vr_verifiablePresentationStatus := None |}), run)
    /\ siopDid run = Some d
    /\ siopContractId run = Some contractId
    /\ dispatched run = ["siop"]
    /\ map isValidated (queue run) = [true].
Proof.
  intros Hmade Htype Hvalidator Hvalid Hok Hpayload Hnull Hattestations
         Hsubmission Htokens Hdid Hd Hnonce Hstate Hcontract Hflag.
  assert (Hsiop : forall q item,
             tokenToValidate item = token ->
             SiopTokenValidator.validate siopValidation expected q item
             = (Ok response, q)).
  { intros q item Hitem. unfold SiopTokenValidator.validate.
    rewrite Hitem, Hvalid, Hok.
    unfold SiopTokenValidator.getTokens, SiopTokenValidator.extract_tokens,
      SiopTokenValidator.siop_flavour, ATTESTATIONS, PRESENTATION_SUBMISSION.
    rewrite Hpayload, !(get_not_null payload) by exact Hnull. cbn [bind].
    rewrite Hattestations. cbn [bind]. rewrite Hsubmission. cbn [bind].
    rewrite Htokens.
    now rewrite (validateReplayProtection_unset expected response Hnonce Hstate). }
  assert (Hdtrue : negb (d =? "") = true) by now apply negb_true_iff, String.eqb_neq.
  eexists. split.
  - unfold validate.
    cbn [enqueueToken app queue getNextToken getNextToken_from isValidated
           validate_loop].
    unfold validate_step, getClaimToken. cbn [claimToken tokenToValidate].
    rewrite Hmade, Htype. cbn [TokenType_name]. rewrite Hvalidator.
    unfold call. cbn [queue with_token validator_validate siop_token_validator].
    rewrite Hsiop by reflexivity. rewrite Hok, Hpayload.
    rewrite (get_not_null _ _ Hnull). cbn [bind]. rewrite Hcontract.
    cbn [save with_queue with_dispatched with_siopDid with_siopContractId queue
           setResult_at setResult getNextToken getNextToken_from isValidated].
    unfold set_output. cbn -[get]. rewrite Hok.
    unfold setValidationResult, has_type, validated_type.
    cbn -[get]. rewrite Htype. cbn -[get].
    unfold response_did, response_payload. cbn -[get].
    rewrite Hdid, Hpayload, !(get_not_null _ _ Hnull). cbn -[get].
    rewrite Hdtrue. cbn -[get].
    unfold checkVcsStatus. rewrite Hflag. cbn. rewrite ?Hdtrue. reflexivity.
  - repeat split.
Qed.

End WholeRuns.

(** ** The properties of Part III at sample inputs *)

(** A string without a dot is no token. *)
Lemma create_rejects_malformed_witness :
  exists text, create (R := Cases.runtime) (JStr "garbage") = Throw (TypeError text).
Proof.
  apply (create_rejects_malformed (R := Cases.runtime) (JStr "garbage")).
  intros raw H. injection H as <-. reflexivity.
Defined.

(** The sample credential is classified by its [vc]. *)
Lemma create_returns_classified_witness :
  classification truthy_property Sample.credential (signed ["c2ln"])
  = inr verifiableCredential.
Proof.
  destruct (create_returns_classified (R := Cases.runtime)
              (JStr Sample.credential_token) Sample.credential_claim_token eq_refl)
    as (raw & h & p & rest & Hraw & Hsplit & _ & _ & _ & _ & _ & Hclass & _).
  injection Hraw as <-.
  change (split "." Sample.credential_token)
    with [Sample.header_segment; Sample.credential_segment; "c2ln"] in Hsplit.
  injection Hsplit as <- <- <-. exact Hclass.
Defined.

(** [siop], the name that [getTokens] uses, is no token type. *)
Lemma new_ClaimToken_outcomes_witness :
  new_ClaimToken (R := Cases.runtime) "siop" (JStr Sample.issuance_token) None
  = Throw (Error "Type 'siop is not supported").
Proof.
  apply (proj1 (new_ClaimToken_outcomes (R := Cases.runtime) "siop"
                  (JStr Sample.issuance_token) None)).
  intros t. destruct t; discriminate.
Defined.

(** Two groups with the inner key [a]: the ids are [selfIssued] and [a]. *)
Lemma getClaimTokensFromAttestations_ids_witness :
  same_ids [("selfIssued", Sample.selfIssued_token);
            ("a", Cases.presentation_claim_token)]
           ["selfIssued"; "a"; "a"]
  /\ NoDup ["selfIssued"; "a"].
Proof.
  apply (getClaimTokensFromAttestations_ids (R := Cases.runtime)
           (Some Cases.attestations)
           [("selfIssued", Sample.selfIssued_token);
            ("a", Cases.presentation_claim_token)]); [|reflexivity].
  intros [H|[H|[H|[]]]]; discriminate H.
Defined.

(** One descriptor, one token. *)
Lemma getClaimTokensFromPresentationExchange_bound_witness :
  NoDup ["IdentityCard"] /\ 1 <= 1.
Proof.
  exact (getClaimTokensFromPresentationExchange_bound (R := Cases.runtime)
           (Some Cases.exchange)
           [JObj [("id", JStr "IdentityCard");
                  ("path", JStr "$.tokens.presentations.DrivingLicense")]]
           [("IdentityCard", Cases.presentation_claim_token)] eq_refl eq_refl).
Defined.

(** One receipt, filed under its id. *)
Lemma getClaimTokensFromReceipt_ids_witness :
  same_ids [("vc1", Sample.credential_claim_token)] ["vc1"].
Proof.
  assert (Hkeys : ordinary_ids
                    (map fst (entries (property Cases.receipt_payload "receipt")))).
  { intros [H|[]]. discriminate H. }
  destruct (proj2 (getClaimTokensFromReceipt_ids (R := Cases.runtime)
                     Cases.receipt_payload ltac:(discriminate))
              [("vc1", Sample.credential_claim_token)] Hkeys eq_refl)
    as (_ & H & _).
  exact H.
Defined.

(** The payload echoes the nonce and the state that are expected. *)
Lemma validateReplayProtection_passes_witness :
  SiopTokenValidator.validateReplayProtection Cases.expected_echo
    Sample.attested_response
  = Ok Sample.attested_response.
Proof.
  apply (validateReplayProtection_passes Cases.expected_echo
           Sample.attested_response Sample.attested_payload);
    [reflexivity | discriminate | right; reflexivity | right; reflexivity].
Defined.

(** The rejection of a wrong nonce is no success. *)
Lemma validateReplayProtection_outcomes_witness :
  failure 403 "Expect nonce 'n1' does not match 'n2'." = Sample.attested_response
  \/ (result (failure 403 "Expect nonce 'n1' does not match 'n2'.") = false
      /\ status (failure 403 "Expect nonce 'n1' does not match 'n2'.") = 403%Z
      /\ payloadObject (failure 403 "Expect nonce 'n1' does not match 'n2'.") = None
      /\ tokensToValidate (failure 403 "Expect nonce 'n1' does not match 'n2'.") = None).
Proof.
  exact (validateReplayProtection_outcomes Sample.expected_replay
           Sample.attested_response
           (failure 403 "Expect nonce 'n1' does not match 'n2'.") eq_refl).
Defined.

(** A SIOP with a presentation submission and attestations. *)
Lemma attestations_decide_fan_out_witness :
  create (R := Cases.runtime) (JStr Cases.both_token)
  = Ok {| _configuration := ""; _rawToken := Cases.both_token;
          _type := siopPresentationExchange;
          _decodedToken := Cases.both; _tokenHeader := Sample.header |}
  /\ SiopTokenValidator.extract_tokens (R := Cases.runtime)
       {| result := true; status := 200; detailedError := None;
          payloadObject := Some Cases.both; did := Some "did:test:user";
          tokensToValidate := None; validationResult := None |}
     = Ok (Extracted
             {| result := true; status := 200; detailedError := None;
                payloadObject := Some Cases.both; did := Some "did:test:user";
                tokensToValidate := Some [("selfIssued", Sample.selfIssued_token)];
                validationResult := None |}).
Proof.
  exact (attestations_decide_fan_out (R := Cases.runtime) Cases.both_token
           Sample.header_segment Cases.both_segment ["c2ln"]
           Sample.header Cases.both
           {| result := true; status := 200; detailedError := None;
              payloadObject := Some Cases.both; did := Some "did:test:user";
              tokensToValidate := None; validationResult := None |}
           eq_refl eq_refl eq_refl eq_refl eq_refl eq_refl eq_refl eq_refl).
Defined.

(** The issuance response has no children. *)
Lemma getTokens_without_children_witness :
  SiopTokenValidator.getTokens (R := Cases.runtime) Sample.issuance_response
    [Sample.siop_item]
  = (Ok Sample.issuance_response, [Sample.siop_item]).
Proof.
  exact (getTokens_without_children (R := Cases.runtime) Sample.issuance_response
           Sample.issuance [Sample.siop_item]
           eq_refl ltac:(discriminate) eq_refl eq_refl).
Defined.

(** An attested token without a dot, a nonce being expected. *)
Lemma validate_after_caught_extraction_witness :
  SiopTokenValidator.validate (R := Cases.runtime) Cases.broken_validation
    Sample.expected_replay [Sample.siop_item] Sample.siop_item
  = (Throw (TypeError "Cannot read property 'nonce' of undefined"),
     [Sample.siop_item]).
Proof.
  apply (proj1 (proj2 (proj2
           (validate_after_caught_extraction (R := Cases.runtime)
              Cases.broken_validation Sample.expected_replay
              [Sample.siop_item] Sample.siop_item Cases.broken_response
              (failure 403 "Cannot read property 'toString' of undefined")
              eq_refl eq_refl eq_refl)))).
  reflexivity.
Defined.

(** The first turn of a run on a presentation. *)
Lemma validate_step_continues_witness :
  exists run',
    Validator.validate_step (R := Cases.runtime)
      (Sample.builder false) Cases.presentation_run 0 Cases.presentation_item
    = Validator.Continue run'
    /\ tokens run' = [Cases.presentation_claim_token]
    /\ dispatched run' = ["siop"]
    /\ siopDid run' = None
    /\ siopContractId run' = None.
Proof.
  eexists. split; [reflexivity|].
  destruct (validate_step_continues (R := Cases.runtime)
              (Sample.builder false) Cases.presentation_run _ 0
              Cases.presentation_item eq_refl)
    as (made & Hmade & Htokens & Hdispatched & _ & Hcontract & Hdid).
  assert (E : Validator.getClaimToken (R := Cases.runtime) Cases.presentation_item
              = Ok Cases.presentation_claim_token) by reflexivity.
  rewrite E in Hmade. injection Hmade as <-.
  split; [exact Htokens|]. split; [exact Hdispatched|].
  split; [apply Hdid; discriminate | apply Hcontract; discriminate].
Defined.

(** A run on a string without a dot. *)
Lemma validate_rejects_unclassified_witness :
  exists run,
    Validator.validate (R := Cases.runtime) (Net := Sample.services)
      (Sample.builder false) 1 [] (JStr "garbage")
    = Some (Ok (failure 400 "Cannot read property 'toString' of undefined"), run)
    /\ dispatched run = []
    /\ tokens run = []
    /\ requests run = [].
Proof.
  exact (validate_rejects_unclassified (R := Cases.runtime) (Net := Sample.services)
           (Sample.builder false) 0 [] (JStr "garbage")
           (TypeError "Cannot read property 'toString' of undefined") eq_refl).
Defined.

(** A status token in the queue, with a validator registered for it. *)
Lemma validate_refuses_status_tokens_witness :
  exists run',
    Validator.validate_loop (R := Cases.runtime) (Net := Sample.services)
      Cases.status_builder 1 Cases.status_run 0 Cases.status_item
    = Some (Ok (failure 400 "verifiablePresentationStatus is not supported"), run')
    /\ dispatched run' = []
    /\ queue run' = [Cases.status_item].
Proof.
  exact (validate_refuses_status_tokens (R := Cases.runtime) (Net := Sample.services)
           Cases.status_builder 0 Cases.status_run 0 Cases.status_item
           Cases.status_claim_token (Cases.accepting verifiablePresentationStatus)
           eq_refl eq_refl eq_refl).
Defined.

(** A run on a lone credential, accepted. *)
Lemma validate_lone_credential_witness :
  exists run,
    Validator.validate (R := Cases.runtime) (Net := Sample.services)
      Cases.credential_builder 1 [] (JStr Sample.credential_token)
    = Some (Ok (validated
                  {| vr_did := Some (JStr "did:test:user");
                     vr_contract := Some (JStr "");
                     vr_siopJti := Some (JStr "");
                     vr_idTokens := None;
                     vr_verifiableCredentials :=
                       Some [("siop", Sample.credential_claim_token)];
                     vr_verifiablePresentations := None;
                     vr_selfIssued := None;
                     vr_siop := None;
                     vr_verifiablePresentationStatus := None |}), run)
    /\ dispatched run = ["siop"]
    /\ tokens run = [Sample.credential_claim_token]
    /\ requests run = [].
Proof.
  exact (validate_lone_credential (R := Cases.runtime) (Net := Sample.services)
           Cases.credential_builder 0 [] (JStr Sample.credential_token)
           Sample.credential_claim_token (Cases.accepting verifiableCredential)
           success eq_refl eq_refl eq_refl (fun _ _ => eq_refl) eq_refl eq_refl).
Defined.

(** A run on an issuance SIOP, accepted. *)
Lemma validate_issuance_witness :
  exists run,
    Validator.validate (R := Cases.runtime) (Net := Sample.services)
      Cases.issuance_builder 1 [] (JStr Sample.issuance_token)
    = Some (Ok (validated
                  {| vr_did := Some (JStr "did:test:user");
                     vr_contract :=
                       Some (JStr "https://issuer.example/v1.0/contracts/DrivingLicense");
                     vr_siopJti := Some (JStr "jti-1");
                     vr_idTokens := None;
                     vr_verifiableCredentials := None;
                     vr_verifiablePresentations := None;
                     vr_selfIssued := None;
                     vr_siop := Some Sample.issuance_claim_token;
                     vr_verifiablePresentationStatus := None |}), run)
    /\ siopDid run = Some "did:test:user"
    /\ siopContractId run = Some "DrivingLicense"
    /\ dispatched run = ["siop"]
    /\ map isValidated (queue run) = [true].
Proof.
  exact (validate_issuance (R := Cases.runtime) (Net := Sample.services)
           Cases.issuance_builder 0 [] (JStr Sample.issuance_token)
           Sample.issuance_claim_token Cases.issuance_validation
           Cases.no_expectations Sample.issuance_response Sample.issuance
           "did:test:user" "DrivingLicense"
           eq_refl eq_refl eq_refl eq_refl eq_refl eq_refl ltac:(discriminate)
           eq_refl eq_refl eq_refl eq_refl ltac:(discriminate)
           eq_refl eq_refl eq_refl eq_refl).
Defined.

(** The run that ends on the missing credential validator sends nothing. *)
Lemma validate_sends_nothing_when_disabled_witness :
  exists answer run,
    Validator.validate (R := Cases.runtime) (Net := Sample.services)
      (Sample.builder false) 2 [] (JStr Sample.presentation_token)
    = Some (answer, run)
    /\ requests run = [].
Proof.
  eexists. eexists. split; [vm_compute; reflexivity|].
  apply (validate_sends_nothing_when_disabled (R := Cases.runtime)
           (Net := Sample.services) (Sample.builder false) 2 []
           (JStr Sample.presentation_token)
           (Ok (failure 500 "verifiableCredential does not has a TokenValidator")));
    [reflexivity | vm_compute; reflexivity].
Defined.

(** The accepted run on a lone credential has drained the queue. *)
Lemma validate_success_shape_witness :
  exists response run,
    Validator.validate (R := Cases.runtime) (Net := Sample.services)
      Cases.credential_builder 1 [] (JStr Sample.credential_token)
    = Some (Ok response, run)
    /\ status response = 200%Z
    /\ getNextToken (queue run) = None.
Proof.
  eexists. eexists.
  assert (E : forall response run,
             Validator.validate (R := Cases.runtime) (Net := Sample.services)
               Cases.credential_builder 1 [] (JStr Sample.credential_token)
             = Some (Ok response, run) ->
             result response = true ->
             Validator.validate (R := Cases.runtime) (Net := Sample.services)
               Cases.credential_builder 1 [] (JStr Sample.credential_token)
             = Some (Ok response, run)
             /\ status response = 200%Z
             /\ getNextToken (queue run) = None).
  { intros response run H Hok. split; [exact H|].
    destruct (validate_success_shape (R := Cases.runtime) (Net := Sample.services)
                Cases.credential_builder 1 [] (JStr Sample.credential_token)
                response run H Hok) as (Hstatus & _ & Hdrained & _).
    now split. }
  apply E; [vm_compute; reflexivity | reflexivity].
Defined.

(** The queue of a presentation and its credential. *)
Lemma setValidationResult_groups_witness :
  groups_by_id verifiableCredential Cases.mixed_queue
    (Some [("vc", Sample.credential_claim_token)])
  /\ groups_by_id verifiablePresentation Cases.mixed_queue
       (Some [("siop", Cases.presentation_claim_token)]).
Proof.
  assert (Hids : ordinary_ids (map id Cases.mixed_queue)).
  { intros [H|[H|[]]]; discriminate H. }
  destruct (setValidationResult_groups Cases.mixed_queue
              {| vr_did := Some (JStr "did:test:user");
                 vr_contract := Some (JStr ""); vr_siopJti := Some (JStr "");
                 vr_idTokens := None;
                 vr_verifiableCredentials :=
                   Some [("vc", Sample.credential_claim_token)];
                 vr_verifiablePresentations :=
                   Some [("siop", Cases.presentation_claim_token)];
                 vr_selfIssued := None; vr_siop := None;
                 vr_verifiablePresentationStatus := None |} Hids eq_refl)
    as (Hvc & Hvp & _).
  split; [exact Hvc | exact Hvp].
Defined.

(** Without a SIOP item the did is the audience of the credential. *)
Lemma setValidationResult_without_siop_witness :
  fallback_did Cases.mixed_queue = Some (JStr "did:test:user").
Proof.
  destruct (setValidationResult_without_siop Cases.mixed_queue
              {| vr_did := Some (JStr "did:test:user");
                 vr_contract := Some (JStr ""); vr_siopJti := Some (JStr "");
                 vr_idTokens := None;
                 vr_verifiableCredentials :=
                   Some [("vc", Sample.credential_claim_token)];
                 vr_verifiablePresentations :=
                   Some [("siop", Cases.presentation_claim_token)];
                 vr_selfIssued := None; vr_siop := None;
                 vr_verifiablePresentationStatus := None |} eq_refl eq_refl)
    as (Hdid & _).
  symmetry. exact Hdid.
Defined.

(** The credential of the sample presentation has no status URL. *)
Lemma checkVpStatus_without_status_urls_witness :
  Validator.checkVpStatus (R := Cases.runtime) (Net := Sample.services)
    Cases.presentation_claim_token []
  = (Ok (Validator.status_success []), []).
Proof.
  apply (checkVpStatus_without_status_urls (R := Cases.runtime)
           (Net := Sample.services) Cases.presentation_claim_token (JObj []) []);
    [reflexivity | discriminate |].
  constructor; [|constructor].
  exists Sample.credential_claim_token. split; reflexivity.
Defined.

(** The status endpoint of the sample services does not answer ok. *)
Lemma checkVpStatus_stops_at_failure_witness :
  Validator.checkVpStatus (R := Cases.runtime) (Net := Sample.services)
    Cases.status_presentation []
  = (Ok (failure 403
           "status check could not fetch response from https://status.example/check"),
     [Cases.status_request]).
Proof.
  apply (proj1 (checkVpStatus_stops_at_failure (R := Cases.runtime)
                  (Net := Sample.services) Cases.status_presentation (JObj []) []
                  [] [] "0" (JStr Cases.status_credential_token)
                  Cases.status_credential_claim_token "signed"
                  {| ok := false; response_json := Ok JNull |}
                  eq_refl ltac:(discriminate) eq_refl (Forall_nil _)
                  eq_refl eq_refl eq_refl eq_refl)).
  reflexivity.
Defined.


(** The status check of a result with that presentation. *)
Lemma checkVcsStatus_requests_witness :
  exists sent,
    [Cases.status_request] = ([] ++ sent)%list
    /\ Forall (fun request =>
                 exists presentations k vp,
                   vr_verifiablePresentations Cases.status_result = Some presentations
                   /\ In (k, vp) presentations
                   /\ status_request_of (R := Cases.runtime) (Net := Sample.services)
                        vp request)
              sent.
Proof.
  exact (checkVcsStatus_requests (R := Cases.runtime) (Net := Sample.services)
           (Sample.builder true) Cases.status_result [] [Cases.status_request]
           (Ok (failure 403
                  "status check could not fetch response from https://status.example/check"))
           eq_refl).
Defined.
